(** * Teams automation scripts: a shallow embedding and its checked properties

    The repository is a set of Python scripts that drive a remote
    desktop-control SDK and a hosted decision service.  This development
    embeds the control flow of

    - [agent_preview.py]  (CUAAgent, TeamsAutomationWithAgent),
    - [cui.py]            (automate_teams),
    - [teams_cua.py]      (AgentWorker, CUADaemon),
    - [testom/testing.py] (load_coords, save_coords, _capture_cursor,
                           _async_send, send_message),
    - [host.py]           (_graceful_stop, main),
    - [cua_agent.py]      (the task loop of run_teams_automation),

    and states the properties of the specification, and further properties
    of the code, over it.  Everything the
    scripts do not implement themselves (the SDK, the decision service, the
    file system, the clock) is an oracle: a transition function on an
    arbitrary state type that answers each call with a value or with a
    raised exception. *)

From Stdlib Require Import ZArith List String Ascii Bool Lia Arith.
From Stdlib Require Import DecimalString.
From Stdlib Require DecimalFacts DecimalPos DecimalZ.
From Equations Require Import Equations.
Import ListNotations.

Set Implicit Arguments.
Set Warnings "-register-all".
Open Scope string_scope.
Open Scope Z_scope.

(** ** Python values, exceptions and effects *)

Module Py.

(** The exceptions the handlers of the scripts tell apart.  [except
    Exception] catches every instance of [Exception]; since Python 3.8
    [asyncio.CancelledError] derives from [BaseException] only, so it passes
    through [except Exception] and is delivered at an [await]. *)
Inductive exn : Type :=
| Exception (msg : string)
| CancelledError.

Inductive res (A : Type) : Type :=
| Ok (a : A)
| Raise (e : exn).
Arguments Ok {A} a.
Arguments Raise {A} e.

(** Dynamically typed values: what the SDK and the service hand back.  An
    object is its attribute table.  Floating-point numbers are outside the
    model. *)
Inductive value : Type :=
| VNone
| VBool (b : bool)
| VInt (n : Z)
| VStr (s : string)
| VBytes (b : list Byte.byte)
| VList (l : list value)
| VDict (entries : list (string * value))
| VObj (attrs : list (string * value)).

(** [bool(v)] *)
Definition truthy (v : value) : bool :=
  match v with
  | VNone => false
  | VBool b => b
  | VInt n => negb (n =? 0)
  | VStr s => negb (s =? "")%string
  | VBytes b => match b with [] => false | _ => true end
  | VList l => match l with [] => false | _ => true end
  | VDict d => match d with [] => false | _ => true end
  | VObj _ => true
  end.

(** [v == "literal"]: only a [str] equals a [str]. *)
Definition is_str (v : value) (s : string) : bool :=
  match v with
  | VStr t => (t =? s)%string
  | _ => false
  end.

Fixpoint lookup (name : string) (attrs : list (string * value)) : option value :=
  match attrs with
  | [] => None
  | (k, v) :: rest => if (k =? name)%string then Some v else lookup name rest
  end.

(** [obj.name]: [AttributeError] when the attribute is missing. *)
Definition getattr (obj : value) (name : string) : res value :=
  match obj with
  | VObj attrs =>
      match lookup name attrs with
      | Some v => Ok v
      | None => Raise (Exception ("AttributeError: " ++ name))
      end
  | _ => Raise (Exception ("AttributeError: " ++ name))
  end.

(** [getattr(obj, name, default)] *)
Definition getattr_default (obj : value) (name : string) (default : value) : value :=
  match getattr obj name with
  | Ok v => v
  | Raise _ => default
  end.

(** [d.get(key)]: [None] for a missing key, [AttributeError] when [d] is
    no dict. *)
Definition dict_get (d : value) (key : string) : res value :=
  match d with
  | VDict entries =>
      match lookup key entries with
      | Some v => Ok v
      | None => Ok VNone
      end
  | _ => Raise (Exception "AttributeError: get")
  end.

(** [a or b] *)
Definition py_or (a b : value) : value := if truthy a then a else b.

(** [iter(v)]: the items a [for] loop visits, [None] for a [TypeError]. *)
Definition py_iter (v : value) : option (list value) :=
  match v with
  | VList l => Some l
  | VStr s => Some (map (fun c => VStr (String c EmptyString)) (list_ascii_of_string s))
  | VBytes b => Some (map (fun x => VInt (Z.of_N (Byte.to_N x))) b)
  | VDict d => Some (map (fun kv => VStr (fst kv)) d)
  | _ => None
  end.

(** [str.lower()] on the characters the model has (code points below 256):
    only the ASCII capitals can turn into the letters of a lower-case ASCII
    literal, the other characters are left as they are. *)
Definition lower_ascii (c : ascii) : ascii :=
  let n := nat_of_ascii c in
  if andb (Nat.leb 65 n) (Nat.leb n 90) then ascii_of_nat (n + 32) else c.

Fixpoint lower (s : string) : string :=
  match s with
  | EmptyString => EmptyString
  | String c rest => String (lower_ascii c) (lower rest)
  end.

(** [s] between double quotes. *)
Definition quoted (s : string) : string :=
  String (ascii_of_nat 34) (s ++ String (ascii_of_nat 34) "").

(** [str(n)] for an [int]. *)
Definition str_of_Z (n : Z) : string := NilZero.string_of_int (Z.to_int n).

(** One line of output: the format string of the [print] or [logger] call
    and the values interpolated into it.  The values are kept as they are:
    their conversion to text is not part of the model. *)
Inductive line : Type :=
| Line (fmt : string) (args : list value).

End Py.

(** ** The effects of the scripts *)

Module Effects.
Import Py.

(** Awaited operations: the desktop-control session and the event loop's
    sleep.  An [await] may deliver any exception, [CancelledError]
    included. *)
Inductive acall : Type :=
| Run
| Stop
| Screenshot
| LeftClick (x y : value)
| TypeText (text : value)
| PressKey (key : string)
| GetScreenSize
| Sleep (ms : Z).

(** Synchronous operations: constructing the SDK object, the file system,
    and the blocking client of the decision service.  No [await] is inside
    them, so they fail with instances of [Exception] only. *)
Inductive scall : Type :=
| NewComputer
| Makedirs (path : string)
| WriteFile (path : string) (data : value)
| ResponsesCreate (previous_response_id : value) (prompt : string) (image : list Byte.byte).

Inductive event : Type :=
| Await (c : acall)
| Sync (c : scall).

Definition is_stop (e : event) : bool :=
  match e with Await Stop => true | _ => false end.

Definition is_screenshot (e : event) : bool :=
  match e with Await Screenshot => true | _ => false end.

Definition is_service_call (e : event) : bool :=
  match e with Sync (ResponsesCreate _ _ _) => true | _ => false end.

Definition has_format (fmt : string) (l : line) : bool :=
  match l with Line f _ => (f =? fmt)%string end.

(** The world outside the script. *)
Class Env (S : Type) : Type := {
  await_op : acall -> S -> res value * S;
  sync_op : scall -> S -> (string + value) * S
}.

Section WithEnv.
Context {S : Type} {E : Env S}.

(** What a run can change: the outside world, the operations issued so far
    (oldest first), the printed lines, [CUAAgent.response_history] and
    whether [TeamsAutomationWithAgent.computer] is set. *)
Record world : Type := {
  env : S;
  trace : list event;
  out : list line;
  response_history : list value;
  computer : bool
}.

Definition M (A : Type) : Type := world -> res A * world.

Definition ret {A} (a : A) : M A := fun w => (Ok a, w).

Definition bind {A B} (m : M A) (k : A -> M B) : M B :=
  fun w =>
    match m w with
    | (Ok a, w') => k a w'
    | (Raise e, w') => (Raise e, w')
    end.

Definition raise {A} (e : exn) : M A := fun w => (Raise e, w).

Definition lift {A} (r : res A) : M A := fun w => (r, w).

(** [try: body / except Exception as e: handler e] *)
Definition try_except {A} (body : M A) (handler : string -> M A) : M A :=
  fun w =>
    match body w with
    | (Raise (Exception msg), w') => handler msg w'
    | other => other
    end.

(** [try: body / finally: cleanup]: the cleanup runs on every way out of
    the body; an exception of the cleanup replaces the body's outcome. *)
Definition try_finally {A} (body : M A) (cleanup : M unit) : M A :=
  fun w =>
    match body w with
    | (r, w') =>
        match cleanup w' with
        | (Ok _, w'') => (r, w'')
        | (Raise e, w'') => (Raise e, w'')
        end
    end.

Definition print (l : line) : M unit :=
  fun w => (Ok tt, {| env := env w; trace := trace w; out := out w ++ [l];
                      response_history := response_history w; computer := computer w |}).

Definition await (c : acall) : M value :=
  fun w =>
    (fst (await_op c (env w)),
     {| env := snd (await_op c (env w)); trace := trace w ++ [Await c]; out := out w;
        response_history := response_history w; computer := computer w |}).

Definition sync (c : scall) : M value :=
  fun w =>
    (match fst (sync_op c (env w)) with
     | inl msg => Raise (Exception msg)
     | inr v => Ok v
     end,
     {| env := snd (sync_op c (env w)); trace := trace w ++ [Sync c]; out := out w;
        response_history := response_history w; computer := computer w |}).

Definition get_history : M (list value) := fun w => (Ok (response_history w), w).

Definition set_history (h : list value) : M unit :=
  fun w => (Ok tt, {| env := env w; trace := trace w; out := out w;
                      response_history := h; computer := computer w |}).

Definition get_computer : M bool := fun w => (Ok (computer w), w).

Definition set_computer (c : bool) : M unit :=
  fun w => (Ok tt, {| env := env w; trace := trace w; out := out w;
                      response_history := response_history w; computer := c |}).

(** A session is acquired from world [w]: the SDK object is built and its
    [run()] returns. *)
Definition acquired (w : world) : Prop :=
  exists c r,
    fst (sync_op NewComputer (env w)) = inr c /\
    fst (await_op Run (snd (sync_op NewComputer (env w)))) = Ok r.


(** Observations on a run: how many of the issued operations, and of the
    printed lines, satisfy a test. *)
Definition count_events (p : event -> bool) (t : list event) : nat :=
  List.length (filter p t).

Definition count_lines (q : line -> bool) (o : list line) : nat :=
  List.length (filter q o).

(** [m] only appends to the trace and to the output, what it appends
    passes the tests [p] and [q], and [self.computer] stays as it is. *)
Definition extends {A} (p : event -> bool) (q : line -> bool) (m : M A) : Prop :=
  forall w, exists (t : list event) (o : list line),
    trace (snd (m w)) = (trace w ++ t)%list /\ forallb p t = true /\
    out (snd (m w)) = (out w ++ o)%list /\ forallb q o = true /\
    computer (snd (m w)) = computer w.

End WithEnv.

Arguments world S : clear implicits.
Arguments M S A : clear implicits.

Notation "x <- m ;; k" := (bind m (fun x => k))
  (at level 61, m at next level, right associativity).
Notation "m ;;; k" := (bind m (fun _ => k))
  (at level 61, right associativity).

End Effects.

(** ** agent_preview.py *)

Module AgentPreview.
Import Py Effects.

(** The action dict built by [get_agent_actions]. *)
Record action : Type := {
  a_type : value;
  a_details : value;
  a_call_id : value
}.

(** The five kinds the translator knows. *)
Definition known_kinds : list value :=
  [VStr "click"; VStr "type"; VStr "scroll"; VStr "keypress"; VStr "wait"].

(** The line the loop prints for an empty action list. *)
Definition no_actions_line : string :=
  "No actions returned by agent. Task might be completed or stuck.".

Section WithEnv.
Context {S : Type} {E : Env S}.

#[local] Abbreviation M := (M S).

(** *** CUAAgent.get_agent_actions (lines 25-86) *)

(** [[item for item in response.output if item.type == "computer_call"]] *)
Fixpoint computer_calls (items : list value) : res (list value) :=
  match items with
  | [] => Ok []
  | item :: rest =>
      match getattr item "type" with
      | Raise e => Raise e
      | Ok t =>
          match computer_calls rest with
          | Raise e => Raise e
          | Ok calls => Ok (if is_str t "computer_call" then item :: calls else calls)
          end
      end
  end.

(** The [for call in computer_calls: actions.append({...})] loop. *)
Fixpoint build_actions (calls : list value) : res (list action) :=
  match calls with
  | [] => Ok []
  | call :: rest =>
      match getattr call "action" with
      | Raise e => Raise e
      | Ok act =>
          match getattr act "type" with
          | Raise e => Raise e
          | Ok t =>
              match getattr call "call_id" with
              | Raise e => Raise e
              | Ok cid =>
                  match build_actions rest with
                  | Raise e => Raise e
                  | Ok acts => Ok ({| a_type := t; a_details := act; a_call_id := cid |} :: acts)
                  end
              end
          end
      end
  end.

(** [self.response_history[-1].id], or [None] for an empty history. *)
Definition last_response_id (history : list value) : res value :=
  match rev history with
  | [] => Ok VNone
  | r :: _ => getattr r "id"
  end.

(** The request carries the screenshot as a base64 data URL; the model
    keeps the bytes it encodes.  [b64encode] raises [TypeError] on anything
    that is not bytes. *)
Definition get_agent_actions (screenshot_bytes : value) (user_prompt : string)
  : M (list action) :=
  try_except
    (image <- lift (match screenshot_bytes with
                    | VBytes b => Ok b
                    | _ => Raise (Exception "TypeError: a bytes-like object is required")
                    end) ;;
     history <- get_history ;;
     prev <- lift (last_response_id history) ;;
     response <- sync (ResponsesCreate prev user_prompt image) ;;
     set_history (history ++ [response]) ;;;
     output <- lift (getattr response "output") ;;
     items <- lift (match py_iter output with
                    | Some l => Ok l
                    | None => Raise (Exception "TypeError: object is not iterable")
                    end) ;;
     calls <- lift (computer_calls items) ;;
     actions <- lift (build_actions calls) ;;
     ret actions)
    (fun e =>
       print (Line "Error getting agent actions: {}" [VStr e]) ;;;
       print (Line "traceback.print_exc()" []) ;;;
       ret []).

(** [CUAAgent.clear_history] *)
Definition clear_history : M unit := set_history [].

(** *** TeamsAutomationWithAgent *)

(** [await self.computer.interface.<operation>(...)]: while [self.computer]
    is [None] the attribute lookup fails, and no operation is issued. *)
Definition on_interface (c : acall) : M value :=
  set <- get_computer ;;
  if set then await c
  else raise (Exception "AttributeError: 'NoneType' object has no attribute 'interface'").

(** [initialize_computer] (lines 98-112) *)
Definition initialize_computer : M bool :=
  try_except
    (print (Line "=== Initializing host computer ===" []) ;;;
     sync NewComputer ;;;
     set_computer true ;;;
     await Run ;;;
     ret true)
    (fun e =>
       print (Line "Failed to initialize computer: {}" [VStr e]) ;;;
       ret false).

(** The [for key in keys] loop of the keypress branch.  A [bytes] key has a
    [lower()] too, and its result never equals the [str] "enter". *)
Fixpoint press_keys (keys : list value) : M unit :=
  match keys with
  | [] => ret tt
  | key :: rest =>
      print (Line "Agent action: Press key: {}" [key]) ;;;
      match key with
      | VStr k =>
          (if (lower k =? "enter")%string
           then on_interface (PressKey "enter") ;;; ret tt
           else ret tt) ;;;
          press_keys rest
      | VBytes _ => press_keys rest
      | _ => raise (Exception "AttributeError: lower")
      end
  end.

(** The magnitude from which the quotient of an [int] by 1000 rounds to
    2^1024 or more, beyond the largest float. *)
Definition float_limit : Z := 1000 * (2 ^ 1024 - 2 ^ 970).

(** [wait_ms / 1000] needs a number, and the quotient of an [int] must fit
    a float: [OverflowError] otherwise.  The sleep is kept in
    milliseconds. *)
Definition to_number (v : value) : string + Z :=
  match v with
  | VInt n =>
      if Z.abs n <? float_limit then inr n
      else inl "OverflowError: integer division result too large for a float"
  | VBool b => inr (if b then 1 else 0)
  | _ => inl "TypeError: unsupported operand type(s) for /"
  end.

(** [execute_agent_action] (lines 114-156) *)
Definition execute_agent_action (a : action) : M unit :=
  let action_type := a_type a in
  let details := a_details a in
  try_except
    (if is_str action_type "click" then
       let x := getattr_default details "x" (VInt 0) in
       let y := getattr_default details "y" (VInt 0) in
       let button := getattr_default details "button" (VStr "left") in
       print (Line "Agent action: Click at ({}, {}) with {} button" [x; y; button]) ;;;
       on_interface (LeftClick x y) ;;;
       ret tt
     else if is_str action_type "type" then
       let text := getattr_default details "text" (VStr "") in
       print (Line "Agent action: Type text: '{}'" [text]) ;;;
       on_interface (TypeText text) ;;;
       ret tt
     else if is_str action_type "scroll" then
       let scroll_x := getattr_default details "scroll_x" (VInt 0) in
       let scroll_y := getattr_default details "scroll_y" (VInt 0) in
       print (Line "Agent action: Scroll by ({}, {})" [scroll_x; scroll_y])
     else if is_str action_type "keypress" then
       let keys := getattr_default details "keys" (VList []) in
       match py_iter keys with
       | Some l => press_keys l
       | None => raise (Exception "TypeError: object is not iterable")
       end
     else if is_str action_type "wait" then
       let wait_ms := getattr_default details "ms" (VInt 2000) in
       print (Line "Agent action: Wait for {}ms" [wait_ms]) ;;;
       match to_number wait_ms with
       | inr ms => await (Sleep ms) ;;; ret tt
       | inl e => raise (Exception e)
       end
     else
       print (Line "Unknown action type: {}" [action_type]))
    (fun e =>
       print (Line "Error executing agent action {}: {}" [action_type; VStr e])).

(** [take_screenshot] (lines 158-165) *)
Definition take_screenshot : M value :=
  try_except
    (on_interface Screenshot)
    (fun e =>
       print (Line "Error taking screenshot: {}" [VStr e]) ;;;
       ret (VBytes [])).

(** The [for i, action in enumerate(actions)] loop (lines 225-228). *)
Fixpoint execute_actions (total i : Z) (actions : list action) : M unit :=
  match actions with
  | [] => ret tt
  | a :: rest =>
      print (Line "Executing action {}/{}: {}" [VInt (i + 1); VInt total; a_type a]) ;;;
      execute_agent_action a ;;;
      await (Sleep 1000) ;;;
      execute_actions total (i + 1) rest
  end.

(** How one pass through the body of the [while] leaves it. *)
Inductive control : Type :=
| Continue
| Break.

(** The body of the [while] (lines 195-235); [iteration] is the counter
    after [iteration += 1]. *)
Definition loop_body (task_prompt : string) (max_iterations iteration : Z)
    (task_completed : bool) : M (control * bool) :=
  print (Line "--- Agent Iteration {} ---" [VInt iteration]) ;;;
  screenshot <- take_screenshot ;;
  if negb (truthy screenshot) then
    print (Line "Failed to capture screenshot, stopping..." []) ;;;
    ret (Break, task_completed)
  else
    let output_dir := "./output" in
    sync (Makedirs output_dir) ;;;
    let screenshot_path := output_dir ++ "/iteration_" ++ str_of_Z iteration ++ ".png" in
    sync (WriteFile screenshot_path screenshot) ;;;
    print (Line "Screenshot saved: {}" [VStr screenshot_path]) ;;;
    actions <- get_agent_actions screenshot task_prompt ;;
    match actions with
    | [] =>
        print (Line no_actions_line []) ;;;
        ret (Break, if 3 <? iteration then true else task_completed)
    | _ :: _ =>
        print (Line "Agent returned {} action(s)" [VInt (Z.of_nat (List.length actions))]) ;;;
        execute_actions (Z.of_nat (List.length actions)) 0 actions ;;;
        await (Sleep 2000) ;;;
        (if max_iterations <=? iteration
         then print (Line "Reached maximum iterations ({})" [VInt max_iterations])
         else ret tt) ;;;
        ret (Continue, task_completed)
    end.

(** [while iteration < max_iterations and not task_completed:] (line 194);
    the result is the pair of loop variables when the loop is left. *)
Equations perception_loop (task_prompt : string) (max_iterations iteration : Z)
    (task_completed : bool) : M (Z * bool)
    by wf (Z.to_nat (max_iterations - iteration)) lt :=
perception_loop task_prompt max_iterations iteration task_completed
    with Z_lt_dec iteration max_iterations := {
  | right _ => ret (iteration, task_completed)
  | left _ with task_completed := {
    | true => ret (iteration, true)
    | false => fun w =>
        match loop_body task_prompt max_iterations (iteration + 1) false w with
        | (Ok (Continue, tc), w') =>
            perception_loop task_prompt max_iterations (iteration + 1) tc w'
        | (Ok (Break, tc), w') => (Ok (iteration + 1, tc), w')
        | (Raise e, w') => (Raise e, w')
        end } }.
Next Obligation. lia. Qed.

(** The f-string of lines 174-185, its line breaks and indentation written
    as single spaces. *)
Definition task_prompt (person_name message : string) : string :=
  "Send a message to " ++ person_name ++
  " in Microsoft Teams with the following message: " ++ quoted message ++
  " Steps needed: 1. Find and open Microsoft Teams (look for taskbar icon or start menu)" ++
  " 2. Search for the person named " ++ quoted person_name ++
  " 3. Click on their name to open the chat" ++
  " 4. Type the message in the chat input field" ++
  " 5. Send the message" ++
  " Please perform these actions step by step.".

(** The [try] and [except] blocks of [automate_teams_with_agent]
    (lines 172-247). *)
Definition automation_attempt (person_name message : string) (max_iterations : Z)
  : M bool :=
  try_except
    (print (Line "=== Starting Teams Automation with AI Agent ===" []) ;;;
     print (Line "Target: {}" [VStr person_name]) ;;;
     print (Line "Message: {}" [VStr message]) ;;;
     r <- perception_loop (task_prompt person_name message) max_iterations 0 false ;;
     let task_completed := snd r in
     (if task_completed
      then print (Line "=== Task completed successfully! ===" [])
      else print (Line "=== Task ended (may not be fully completed) ===" [])) ;;;
     ret task_completed)
    (fun e =>
       print (Line "Error during automation: {}" [VStr e]) ;;;
       print (Line "traceback.print_exc()" []) ;;;
       ret false).

(** Its [finally] block (lines 249-253). *)
Definition cleanup : M unit :=
  c <- get_computer ;;
  (if c then await Stop ;;; ret tt else ret tt) ;;;
  clear_history.

(** [automate_teams_with_agent] (lines 167-253) *)
Definition automate_teams_with_agent (person_name message : string) (max_iterations : Z)
  : M bool :=
  ok <- initialize_computer ;;
  if negb ok then ret false
  else try_finally (automation_attempt person_name message max_iterations) cleanup.

(** *** Observations on a run of the loop *)

(** Neither [stop] nor [screenshot]. *)
Definition inner_event (e : event) : bool := negb (is_stop e) && negb (is_screenshot e).

(** Any line but the one for an empty action list. *)
Definition other_line (l : line) : bool := negb (has_format no_actions_line l).

Definition any_line (l : line) : bool := true.

(** How often the loop has met an empty action list. *)
Definition empties (o : list line) : nat := count_lines (has_format no_actions_line) o.

(** The three counts of a world: [stop]s, [screenshot]s, empty results. *)
Definition counts (w : world S) : nat * nat * nat :=
  (count_events is_stop (trace w), count_events is_screenshot (trace w), empties (out w)).

(** What one pass through the body does to the counts [c] it starts
    from; [set] tells whether [self.computer] is set. *)
Definition body_post (it : Z) (tc set : bool) (c : nat * nat * nat)
    (r : res (control * bool) * world S) : Prop :=
  count_events is_stop (trace (snd r)) = fst (fst c) /\
  count_events is_screenshot (trace (snd r))
  = (snd (fst c) + (if set then 1 else 0))%nat /\
  match fst r with
  | Ok (Continue, tc') => tc' = tc /\ empties (out (snd r)) = snd c
  | Ok (Break, tc') =>
      (empties (out (snd r)) = Datatypes.S (snd c) /\ tc' = (if 3 <? it then true else tc))
      \/ (empties (out (snd r)) = snd c /\ tc' = tc)
  | Raise _ => empties (out (snd r)) = snd c
  end.

(** What a run of the loop from counter [it] does to the counts [c] it
    starts from: no [stop]; a pass per step of the counter, and with
    [self.computer] set one screenshot per pass; at most one empty result,
    and the flag is set by it alone. *)
Definition loop_post (mx it : Z) (tc set : bool) (c : nat * nat * nat)
    (r : res (Z * bool) * world S) : Prop :=
  count_events is_stop (trace (snd r)) = fst (fst c) /\
  (count_events is_screenshot (trace (snd r)) <= snd (fst c) + Z.to_nat (mx - it))%nat /\
  match fst r with
  | Ok (it', tc') =>
      it <= it' <= Z.max it mx /\
      (set = true ->
       count_events is_screenshot (trace (snd r))
       = (snd (fst c) + Z.to_nat (it' - it))%nat) /\
      ((tc' = tc /\ empties (out (snd r)) = snd c)
       \/ (tc = false /\ empties (out (snd r)) = Datatypes.S (snd c) /\ tc' = (3 <? it')))
  | Raise _ => empties (out (snd r)) = snd c
  end.

(** No [stop], at most [k] screenshots, [self.computer] untouched. *)
Definition bounded {A} (k : nat) (m : M A) : Prop :=
  forall w,
    count_events is_stop (trace (snd (m w))) = count_events is_stop (trace w) /\
    (count_events is_screenshot (trace (snd (m w)))
     <= count_events is_screenshot (trace w) + k)%nat /\
    computer (snd (m w)) = computer w.

End WithEnv.

End AgentPreview.

(** ** cui.py *)

Module Cui.
Import Py Effects.

Section WithEnv.
Context {S : Type} {E : Env S}.

#[local] Abbreviation M := (M S).

(** The steps inside the inner [try] (lines 21-71). *)
Definition automate_steps : M unit :=
  await Run ;;;
  let person_name := "John Doe" in
  let message := "Hello, this is an automated test message!" in
  screenshot <- await Screenshot ;;
  let output_dir := "./output" in
  sync (Makedirs output_dir) ;;;
  let screenshot_path := output_dir ++ "/screenshot.png" in
  sync (WriteFile screenshot_path screenshot) ;;;
  print (Line "Screenshot saved to: {}" [VStr screenshot_path]) ;;;
  print (Line "=== Opening Teams ===" []) ;;;
  await (LeftClick (VInt 813) (VInt 1046)) ;;;
  await (Sleep 5000) ;;;
  print (Line "=== Searching for Person ===" []) ;;;
  await (LeftClick (VInt 45) (VInt 95)) ;;;
  await (TypeText (VStr person_name)) ;;;
  await (Sleep 2000) ;;;
  print (Line "=== Opening Chat ===" []) ;;;
  await (LeftClick (VInt 793) (VInt 950)) ;;;
  await (Sleep 3000) ;;;
  print (Line "=== Sending Message ===" []) ;;;
  await (LeftClick (VInt 1798) (VInt 945)) ;;;
  await (TypeText (VStr message)) ;;;
  await (PressKey "enter") ;;;
  print (Line "Automation completed successfully!" []) ;;;
  screen_size <- await GetScreenSize ;;
  print (Line "Screen size: {}" [screen_size]).

(** [automate_teams] (lines 8-79) *)
Definition automate_teams : M unit :=
  try_except
    (print (Line "=== Using host computer initialization ===" []) ;;;
     sync NewComputer ;;;
     try_finally
       automate_steps
       (await Stop ;;; ret tt))
    (fun e =>
       print (Line "Error in automate_teams: {}" [VStr e]) ;;;
       print (Line "traceback.print_exc()" [])).

End WithEnv.

End Cui.

(** ** Sample environments *)

Module Samples.
Import Py Effects AgentPreview.

(** A response of the decision service with one click at (100, 200), and
    one with no action at all. *)
Definition click_response : value :=
  VObj [("id", VStr "resp");
        ("output",
         VList [VObj [("type", VStr "computer_call");
                      ("action", VObj [("type", VStr "click"); ("x", VInt 100);
                                       ("y", VInt 200); ("button", VStr "right")]);
                      ("call_id", VStr "call")]])].

Definition empty_response : value :=
  VObj [("id", VStr "resp"); ("output", VList [])].

Definition screen : value := VBytes [Byte.x89; Byte.x50; Byte.x4e; Byte.x47].

(** The state of the sample worlds: how many requests the decision
    service has answered. *)
Definition desktop (c : acall) (n : nat) : res value * nat :=
  match c with
  | Screenshot => (Ok screen, n)
  | _ => (Ok VNone, n)
  end.

(** The service returns an action for its first [k] requests and an empty
    list from then on. *)
Definition scripted (k : nat) : Env nat := {|
  await_op := desktop;
  sync_op c n :=
    match c with
    | ResponsesCreate _ _ _ =>
        (inr (if Nat.ltb n k then click_response else empty_response), Datatypes.S n)
    | _ => (inr VNone, n)
    end
|}.

(** The service returns an action for every request. *)
Definition always_acting : Env nat := {|
  await_op := desktop;
  sync_op c n :=
    match c with
    | ResponsesCreate _ _ _ => (inr click_response, Datatypes.S n)
    | _ => (inr VNone, n)
    end
|}.

(** Every request to the service fails. *)
Definition service_down : Env nat := {|
  await_op := desktop;
  sync_op c n :=
    match c with
    | ResponsesCreate _ _ _ => (inl "APIConnectionError", Datatypes.S n)
    | _ => (inr VNone, n)
    end
|}.

(** The session is acquired, and the first screenshot is cancelled: an
    exception that no [except Exception] handles. *)
Definition cancelled_at_screenshot : Env nat := {|
  await_op c n :=
    match c with
    | Screenshot => (Raise CancelledError, n)
    | _ => (Ok VNone, n)
    end;
  sync_op c n := (inr VNone, n)
|}.

(** A decoder that rejects every string. *)
Definition no_base64 (s : string) : option (list Byte.byte) := None.

Definition fresh : world nat :=
  {| env := O; trace := []; out := []; response_history := []; computer := false |}.

(** The world once [self.computer] is set. *)
Definition in_session : world nat :=
  {| env := O; trace := []; out := []; response_history := []; computer := true |}.

End Samples.

(** ** teams_cua.py *)

Module TeamsCua.
Import Py.

(** [AgentWorker]: [self.name] and [self._ready]. *)
Record AgentWorker : Type := {
  name : string;
  ready : bool
}.

(** What the agent's stream does during one [run_task]: the results it
    yields (each with the clock reading and the outcome of the file write
    that saving its screenshot would meet) and how the stream ends. *)
Record yielded : Type := {
  y_result : value;
  y_timestamp : string;
  y_write_error : option string
}.

Inductive stream_end : Type :=
| Ended
| Raised (e : exn).

Record agent_run : Type := {
  yields : list yielded;
  ending : stream_end
}.

Definition no_run : agent_run := {| yields := []; ending := Ended |}.

Definition replace_newlines (s : string) : string :=
  string_of_list_ascii
    (map (fun c => if Ascii.eqb c (ascii_of_nat 10) then " "%char else c)
         (list_ascii_of_string s)).

(** [text.replace("\n", " ")[:300]] *)
Definition snippet (text : string) : string :=
  substring 0 300 (replace_newlines text).

Section WithBase64.
(** [base64.b64decode], [None] where it raises. *)
Variable b64decode : string -> option (list Byte.byte).

(** [_save_screenshot_bytes] (lines 83-90): a failed write is logged as a
    warning and goes no further. *)
Definition save_screenshot_bytes (w : AgentWorker) (y : yielded) : list line :=
  let fname := "trajectories/" ++ name w ++ "_task_" ++ y_timestamp y ++ ".png" in
  match y_write_error y with
  | None => [Line "[{}] Saved screenshot: {}" [VStr (name w); VStr fname]]
  | Some e => [Line "[{}] Failed to save screenshot: {}" [VStr (name w); VStr e]]
  end.

(** The body of the [async for] (lines 99-117): the lines it logs, or the
    exception it raises before logging anything. *)
Definition process_result (w : AgentWorker) (y : yielded) : res (list line) :=
  match dict_get (y_result y) "text", dict_get (y_result y) "message" with
  | Raise e, _ => Raise e
  | _, Raise e => Raise e
  | Ok t, Ok m =>
      let text := py_or t m in
      match (if truthy text
             then match text with
                  | VStr s => Ok [Line "[{}] -> {}" [VStr (name w); VStr (snippet s)]]
                  | _ => Raise (Exception "AttributeError: replace")
                  end
             else Ok []) with
      | Raise e => Raise e
      | Ok logged =>
          match dict_get (y_result y) "screenshot", dict_get (y_result y) "image" with
          | Ok s, Ok i =>
              let screenshot := py_or s i in
              if truthy screenshot then
                let img_bytes :=
                  match screenshot with
                  | VBytes b => Some b
                  | VStr s64 => b64decode s64
                  | _ => None
                  end in
                match img_bytes with
                | Some (_ :: _) => Ok (logged ++ save_screenshot_bytes w y)%list
                | _ => Ok logged
                end
              else Ok logged
          | Raise e, _ => Raise e
          | _, Raise e => Raise e
          end
      end
  end.

(** The [async for] over the stream, up to [return True]. *)
Fixpoint consume (w : AgentWorker) (ys : list yielded) (e : stream_end)
  : res bool * list line :=
  match ys with
  | [] =>
      match e with
      | Ended => (Ok true, [Line "[{}] Task finished." [VStr (name w)]])
      | Raised x => (Raise x, [])
      end
  | y :: rest =>
      match process_result w y with
      | Raise x => (Raise x, [])
      | Ok logged => (fst (consume w rest e), (logged ++ snd (consume w rest e))%list)
      end
  end.

(** [AgentWorker.run_task] (lines 92-123): the outcome and the lines
    logged. *)
Definition run_task (w : AgentWorker) (task_text : string) (b : agent_run)
  : res bool * list line :=
  if negb (ready w) then (Raise (Exception "RuntimeError: Agent not initialized"), [])
  else
    let started := Line "[{}] Running task: {}" [VStr (name w); VStr task_text] in
    match consume w (yields b) (ending b) with
    | (Raise (Exception msg), logged) =>
        (Ok false,
         started :: (logged ++ [Line "[{}] Task error: {}" [VStr (name w); VStr msg]])%list)
    | (other, logged) => (other, started :: logged)
    end.

(** Where the coroutine of one [_agent_loop] is suspended. *)
Inductive pc : Type :=
| Created
| AwaitGet
| AwaitRun (task_text : string)
| AwaitSleep
| AwaitBackoff
| Finished (r : res unit).

(** An [asyncio.Task]: where its coroutine stands, and whether [cancel()]
    was called on it. *)
Record coroutine : Type := {
  at_pc : pc;
  must_cancel : bool
}.

Inductive stop_pc : Type :=
| NotStopping
| InJoin
| Stopped.

(** [CUADaemon]: the queue ([items] in FIFO order, [None] the sentinel, and
    the unfinished-task count that [join] waits on), [agents], [_running],
    [_tasks], the log, the progress of [stop] and whether the session is
    open. *)
Record daemon : Type := {
  items : list (option string);
  unfinished : nat;
  agents : list AgentWorker;
  running : bool;
  tasks : list coroutine;
  log : list line;
  stopping : stop_pc;
  computer_open : bool
}.

Definition with_queue (q : list (option string)) (n : nat) (d : daemon) : daemon :=
  {| items := q; unfinished := n; agents := agents d; running := running d;
     tasks := tasks d; log := log d; stopping := stopping d;
     computer_open := computer_open d |}.

Definition with_tasks (t : list coroutine) (d : daemon) : daemon :=
  {| items := items d; unfinished := unfinished d; agents := agents d;
     running := running d; tasks := t; log := log d; stopping := stopping d;
     computer_open := computer_open d |}.

Definition logd (l : list line) (d : daemon) : daemon :=
  {| items := items d; unfinished := unfinished d; agents := agents d;
     running := running d; tasks := tasks d; log := log d ++ l;
     stopping := stopping d; computer_open := computer_open d |}.

Fixpoint update {A} (i : nat) (f : A -> A) (l : list A) : list A :=
  match l, i with
  | [], _ => []
  | x :: rest, O => f x :: rest
  | x :: rest, Datatypes.S j => x :: update j f rest
  end.

Definition set_pc (i : nat) (p : pc) (d : daemon) : daemon :=
  with_tasks (update i (fun c => {| at_pc := p; must_cancel := must_cancel c |}) (tasks d)) d.

(** [queue.put(x)]: the queue is unbounded, so [put] never waits. *)
Definition put (x : option string) (d : daemon) : daemon :=
  with_queue (items d ++ [x]) (Datatypes.S (unfinished d)) d.

(** [queue.task_done()] *)
Definition task_done (d : daemon) : res daemon :=
  match unfinished d with
  | O => Raise (Exception "ValueError: task_done() called too many times")
  | Datatypes.S n => Ok (with_queue (items d) n d)
  end.

(** [except asyncio.CancelledError:] (lines 178-180) *)
Definition on_cancelled (i : nat) (w : AgentWorker) (d : daemon) : daemon :=
  set_pc i (Finished (Ok tt)) (logd [Line "[{}] Cancelled." [VStr (name w)]] d).

(** [except Exception as e:] (lines 181-183), up to the [sleep(1.0)]. *)
Definition on_exception (i : nat) (w : AgentWorker) (msg : string) (d : daemon) : daemon :=
  set_pc i AwaitBackoff (logd [Line "[{}] Loop error: {}" [VStr (name w); VStr msg]] d).

Definition handle (i : nat) (w : AgentWorker) (e : exn) (d : daemon) : daemon :=
  match e with
  | CancelledError => on_cancelled i w d
  | Exception msg => on_exception i w msg d
  end.

(** From the return of [await worker.run_task(task_text)] to the next
    suspension (lines 175-177). *)
Definition finish_run (i : nat) (w : AgentWorker) (r : res bool * list line) (d : daemon)
  : daemon :=
  let d1 := logd (snd r) d in
  match fst r with
  | Raise e => handle i w e d1
  | Ok _ =>
      match task_done d1 with
      | Raise e => handle i w e d1
      | Ok d2 => set_pc i AwaitSleep d2
      end
  end.

(** From the return of [await self.queue.get()] to the next suspension
    (lines 170-175). *)
Definition after_get (i : nat) (w : AgentWorker) (x : option string) (d : daemon) : daemon :=
  match x with
  | None =>
      let d1 := logd [Line "[{}] Stop sentinel received." [VStr (name w)]] d in
      match task_done d1 with
      | Raise e => handle i w e d1
      | Ok d2 => set_pc i (Finished (Ok tt)) d2
      end
  | Some task_text =>
      let d1 := logd [Line "[{}] Dequeued task." [VStr (name w)]] d in
      if ready w then set_pc i (AwaitRun task_text) d1
      else finish_run i w (run_task w task_text no_run) d1
  end.

(** From [while self._running:] to the next suspension (lines 167-169). *)
Definition loop_head (i : nat) (w : AgentWorker) (d : daemon) : daemon :=
  if running d then
    match items d with
    | [] => set_pc i AwaitGet d
    | x :: rest => after_get i w x (with_queue rest (unfinished d) d)
    end
  else set_pc i (Finished (Ok tt)) d.

(** What resumes a suspended coroutine. *)
Inductive wake : Type :=
| Start
| Item
| RunEnds (b : agent_run)
| Timer
| Cancel.

(** One scheduling of the [_agent_loop] of worker [i]: from its suspension
    to the next one.  [None] when the wake-up does not apply. *)
Definition resume (i : nat) (k : wake) (d : daemon) : option daemon :=
  match nth_error (agents d) i, nth_error (tasks d) i with
  | Some w, Some c =>
      match at_pc c, k with
      | Created, Start => if must_cancel c then None else Some (loop_head i w d)
      | Created, Cancel => Some (set_pc i (Finished (Raise CancelledError)) d)
      | AwaitGet, Item =>
          if must_cancel c then None
          else match items d with
               | [] => None
               | x :: rest => Some (after_get i w x (with_queue rest (unfinished d) d))
               end
      | AwaitGet, Cancel => Some (on_cancelled i w d)
      | AwaitRun task_text, RunEnds b => Some (finish_run i w (run_task w task_text b) d)
      | AwaitSleep, Timer => if must_cancel c then None else Some (loop_head i w d)
      | AwaitSleep, Cancel => Some (on_cancelled i w d)
      | AwaitBackoff, Timer => if must_cancel c then None else Some (loop_head i w d)
      | AwaitBackoff, Cancel => Some (set_pc i (Finished (Raise CancelledError)) d)
      | _, _ => None
      end
  | _, _ => None
  end.

(** [AgentWorker(name=f"agent{i+1}", ...)] followed by [init_agent]
    (lines 62-81, 147-156). *)
Definition new_worker (i : nat) : AgentWorker :=
  {| name := "agent" ++ str_of_Z (Z.of_nat (i + 1)); ready := true |}.

Definition init_lines (w : AgentWorker) : list line :=
  [Line "[{}] Initializing ComputerAgent (Azure model=MODEL_NAME)" [VStr (name w)];
   Line "[{}] Agent initialized." [VStr (name w)]].

(** [CUADaemon.start] (lines 135-164), once the session and the agents
    were built: [num_agents] initialised workers, a task per worker. *)
Definition start (num_agents : nat) : daemon :=
  {| items := []; unfinished := 0;
     agents := map new_worker (seq 0 num_agents);
     running := true;
     tasks := repeat {| at_pc := Created; must_cancel := false |} num_agents;
     log := ([Line "Starting Computer container/session (local host server)..." []]
             ++ flat_map (fun i => init_lines (new_worker i)) (seq 0 num_agents)
             ++ [Line "CUA Daemon (Azure) started with {} agents."
                   [VInt (Z.of_nat num_agents)]])%list;
     stopping := NotStopping;
     computer_open := true |}.

(** The f-string of lines 202-206. *)
Definition instruction (person_name message_text : string) : string :=
  "Open Microsoft Teams on the desktop, wait until the app is visible, " ++
  "click the search box, type the name '" ++ person_name ++
  "', select the person from results, " ++
  "open the chat, click the message input area, type the message: " ++
  quoted message_text ++ ", and press Enter to send.".

(** [enqueue_teams_message] (lines 201-208) *)
Definition enqueue_teams_message (person_name message_text : string) (d : daemon) : daemon :=
  logd [Line "Enqueued Teams message task for {}" [VStr person_name]]
       (put (Some (instruction person_name message_text)) d).

(** [stop] up to [await self.queue.join()] (lines 185-191): the flag is
    cleared, then one sentinel is put per agent. *)
Definition stop_begin (d : daemon) : daemon :=
  let d1 := logd [Line "Stopping CUA Daemon..." []] d in
  let d2 := {| items := items d1; unfinished := unfinished d1; agents := agents d1;
               running := false; tasks := tasks d1; log := log d1;
               stopping := InJoin; computer_open := computer_open d1 |} in
  fold_left (fun acc _ => put None acc) (agents d2) d2.

(** [stop] after the join (lines 192-199): every task is cancelled and the
    session closed; an error of the closing is logged. *)
Definition stop_finish (aexit_error : option string) (d : daemon) : daemon :=
  {| items := items d; unfinished := unfinished d; agents := agents d;
     running := running d;
     tasks := map (fun c => {| at_pc := at_pc c; must_cancel := true |}) (tasks d);
     log := (log d ++
             match aexit_error with
             | Some e => [Line "Error during computer shutdown: {}" [VStr e]]
             | None => []
             end ++ [Line "CUA Daemon stopped." []])%list;
     stopping := Stopped;
     computer_open := false |}.

(** The runs of the daemon: the event loop schedules a worker, a producer
    enqueues a message, [stop] is called, or its join returns, which it
    does when the queue counts no unfinished task. *)
Inductive step : daemon -> daemon -> Prop :=
| step_worker i k d d' :
    resume i k d = Some d' -> step d d'
| step_enqueue person_name message_text d :
    step d (enqueue_teams_message person_name message_text d)
| step_stop d :
    stopping d = NotStopping -> step d (stop_begin d)
| step_join aexit_error d :
    stopping d = InJoin -> unfinished d = O -> step d (stop_finish aexit_error d).

Inductive steps : daemon -> daemon -> Prop :=
| steps_refl d : steps d d
| steps_step d1 d2 d3 : steps d1 d2 -> step d2 d3 -> steps d1 d3.

(** *** Observations on a run of the daemon *)

Definition pc_of (i : nat) (d : daemon) : option pc :=
  option_map at_pc (nth_error (tasks d) i).

(** A coroutine that will not call [queue.get()] again once [_running] is
    cleared: it is inside a task, asleep, or gone. *)
Definition past_get (c : coroutine) : bool :=
  match at_pc c with
  | AwaitRun _ | AwaitSleep | AwaitBackoff | Finished _ => true
  | Created | AwaitGet => false
  end.

Definition in_task (c : coroutine) : bool :=
  match at_pc c with
  | AwaitRun _ => true
  | _ => false
  end.

(** [stop] waits in [join] and no worker will take anything from the queue
    any more, while the queue still counts what it holds and what is being
    run. *)
Definition join_blocked (d : daemon) : Prop :=
  running d = false /\
  stopping d = InJoin /\
  forallb past_get (tasks d) = true /\
  items d <> [] /\
  (List.length (items d) + List.length (filter in_task (tasks d)) <= unfinished d)%nat.

(** *** The run of [main] (lines 211-233)

    One agent ([CUA_NUM_AGENTS] defaults to 1), the demo message enqueued,
    the worker scheduled while [main] waits for the signal. *)
Definition demo_message : string := "Hello from CUA agent (automated via Azure)".

Definition main_waiting : daemon :=
  match resume 0 Start (enqueue_teams_message "John Doe" demo_message (start 1)) with
  | Some d => d
  | None => start 1
  end.

(** The signal arrives while the worker is inside the task: [main] calls
    [stop]. *)
Definition main_stopping : daemon := stop_begin main_waiting.

(** The task ends, the worker sleeps its half second and meets the cleared
    flag. *)
Definition main_stuck : daemon :=
  match resume 0 (RunEnds no_run) main_stopping with
  | Some d1 =>
      match resume 0 Timer d1 with
      | Some d2 => d2
      | None => d1
      end
  | None => main_stopping
  end.




End WithBase64.

End TeamsCua.

(** ** The [json] module, as far as the scripts use it

    [json.dumps(obj, indent=2)] and [json.loads(text)] of CPython on the
    values of the model: [None], booleans, integers, strings (escaped with
    [ensure_ascii], the default), lists and dicts with string keys.  A
    number with a fraction or an exponent, and an escape above U+00FF, are
    outside the model and answered with an error. *)

Module Json.
Import Py.
#[local] Open Scope nat_scope.

Definition dquote : ascii := ascii_of_nat 34.
Definition backslash : ascii := ascii_of_nat 92.
Definition nl : ascii := ascii_of_nat 10.

Definition hex_digit (n : nat) : ascii :=
  if Nat.ltb n 10 then ascii_of_nat (48 + n) else ascii_of_nat (87 + n).

(** What [ensure_ascii] writes for one character (ESCAPE_DCT, then
    [\uXXXX] for everything outside the printable ASCII range). *)
Definition escape_char (c : ascii) : string :=
  let n := nat_of_ascii c in
  if Nat.eqb n 34 then String backslash (String dquote "")
  else if Nat.eqb n 92 then String backslash (String backslash "")
  else if Nat.eqb n 10 then String backslash "n"
  else if Nat.eqb n 13 then String backslash "r"
  else if Nat.eqb n 9 then String backslash "t"
  else if Nat.eqb n 8 then String backslash "b"
  else if Nat.eqb n 12 then String backslash "f"
  else if orb (Nat.ltb n 32) (Nat.ltb 126 n) then
    String backslash
      (String "u" (String "0" (String "0"
         (String (hex_digit (n / 16)) (String (hex_digit (n mod 16)) "")))))
  else String c "".

Fixpoint escape (s : string) : string :=
  match s with
  | EmptyString => EmptyString
  | String c rest => escape_char c ++ escape rest
  end.

(** [py_encode_basestring_ascii] *)
Definition encode_str (s : string) : string :=
  String dquote (escape s ++ String dquote "").

(** A newline and the indentation of nesting level [level], two spaces a
    level. *)
Definition newline_indent (level : nat) : string :=
  String nl (string_of_list_ascii (repeat " "%char (2 * level))).

Fixpoint join (sep : string) (parts : list string) : string :=
  match parts with
  | [] => ""
  | [p] => p
  | p :: rest => p ++ sep ++ join sep rest
  end.

(** The encoder at nesting level [level]; [None] for a value that is not
    JSON serializable ([TypeError]). *)
Fixpoint encode (level : nat) (v : value) : option string :=
  match v with
  | VNone => Some "null"
  | VBool true => Some "true"
  | VBool false => Some "false"
  | VInt n => Some (str_of_Z n)
  | VStr s => Some (encode_str s)
  | VList [] => Some "[]"
  | VList l =>
      match (fix items (l : list value) : option (list string) :=
               match l with
               | [] => Some []
               | x :: rest =>
                   match encode (Datatypes.S level) x, items rest with
                   | Some a, Some b => Some (a :: b)
                   | _, _ => None
                   end
               end) l with
      | Some parts =>
          Some ("[" ++ newline_indent (Datatypes.S level)
                    ++ join ("," ++ newline_indent (Datatypes.S level)) parts
                    ++ newline_indent level ++ "]")
      | None => None
      end
  | VDict [] => Some "{}"
  | VDict d =>
      match (fix members (d : list (string * value)) : option (list string) :=
               match d with
               | [] => Some []
               | (k, x) :: rest =>
                   match encode (Datatypes.S level) x, members rest with
                   | Some a, Some b => Some ((encode_str k ++ ": " ++ a) :: b)
                   | _, _ => None
                   end
               end) d with
      | Some parts =>
          Some ("{" ++ newline_indent (Datatypes.S level)
                    ++ join ("," ++ newline_indent (Datatypes.S level)) parts
                    ++ newline_indent level ++ "}")
      | None => None
      end
  | VBytes _ => None
  | VObj _ => None
  end.

(** [json.dumps(obj, indent=2)] *)
Definition dumps (obj : value) : res string :=
  match encode 0 obj with
  | Some text => Ok text
  | None => Raise (Exception "TypeError: Object is not JSON serializable")
  end.

(** *** Decoding *)

Definition is_ws (c : ascii) : bool :=
  let n := nat_of_ascii c in
  orb (orb (Nat.eqb n 32) (Nat.eqb n 9)) (orb (Nat.eqb n 10) (Nat.eqb n 13)).

Fixpoint skip_ws (s : string) : string :=
  match s with
  | String c rest => if is_ws c then skip_ws rest else s
  | EmptyString => EmptyString
  end.

Definition hex_value (c : ascii) : option nat :=
  let n := nat_of_ascii c in
  if andb (Nat.leb 48 n) (Nat.leb n 57) then Some (n - 48)
  else if andb (Nat.leb 97 n) (Nat.leb n 102) then Some (n - 87)
  else if andb (Nat.leb 65 n) (Nat.leb n 70) then Some (n - 55)
  else None.

(** The character an escape [\c] stands for (BACKSLASH). *)
Definition unescape (c : ascii) : option ascii :=
  let n := nat_of_ascii c in
  if Nat.eqb n 34 then Some dquote
  else if Nat.eqb n 92 then Some backslash
  else if Nat.eqb n 47 then Some "/"%char
  else if Nat.eqb n 98 then Some (ascii_of_nat 8)
  else if Nat.eqb n 102 then Some (ascii_of_nat 12)
  else if Nat.eqb n 110 then Some (ascii_of_nat 10)
  else if Nat.eqb n 114 then Some (ascii_of_nat 13)
  else if Nat.eqb n 116 then Some (ascii_of_nat 9)
  else None.

Definition cons_char (c : ascii) (r : option (string * string)) : option (string * string) :=
  match r with
  | Some (s, rest) => Some (String c s, rest)
  | None => None
  end.

(** [scanstring] (strict): the text after an opening quote, up to the
    closing one; the decoded string and what follows. *)
Fixpoint scanstring (s : string) : option (string * string) :=
  match s with
  | EmptyString => None
  | String c rest =>
      if Ascii.eqb c dquote then Some (EmptyString, rest)
      else if Ascii.eqb c backslash then
        match rest with
        | String e rest1 =>
            if Ascii.eqb e "u" then
              match rest1 with
              | String h1 (String h2 (String h3 (String h4 rest2))) =>
                  match hex_value h1, hex_value h2, hex_value h3, hex_value h4 with
                  | Some a, Some b, Some x, Some y =>
                      if andb (Nat.eqb a 0) (Nat.eqb b 0)
                      then cons_char (ascii_of_nat (16 * x + y)) (scanstring rest2)
                      else None
                  | _, _, _, _ => None
                  end
              | _ => None
              end
            else
              match unescape e with
              | Some x => cons_char x (scanstring rest1)
              | None => None
              end
        | EmptyString => None
        end
      else if Nat.ltb (nat_of_ascii c) 32 then None
      else cons_char c (scanstring rest)
  end.

Definition digit_of (c : ascii) : option (Decimal.uint -> Decimal.uint) :=
  let n := nat_of_ascii c in
  if Nat.eqb n 48 then Some Decimal.D0
  else if Nat.eqb n 49 then Some Decimal.D1
  else if Nat.eqb n 50 then Some Decimal.D2
  else if Nat.eqb n 51 then Some Decimal.D3
  else if Nat.eqb n 52 then Some Decimal.D4
  else if Nat.eqb n 53 then Some Decimal.D5
  else if Nat.eqb n 54 then Some Decimal.D6
  else if Nat.eqb n 55 then Some Decimal.D7
  else if Nat.eqb n 56 then Some Decimal.D8
  else if Nat.eqb n 57 then Some Decimal.D9
  else None.

(** The longest run of digits at the head of [s]. *)
Fixpoint scan_digits (s : string) : Decimal.uint * string :=
  match s with
  | EmptyString => (Decimal.Nil, EmptyString)
  | String c rest =>
      match digit_of c with
      | Some d => (d (fst (scan_digits rest)), snd (scan_digits rest))
      | None => (Decimal.Nil, s)
      end
  end.

(** A fraction or an exponent follows: the number is a float. *)
Definition float_follows (s : string) : bool :=
  match s with
  | String c _ =>
      let n := nat_of_ascii c in
      orb (Nat.eqb n 46) (orb (Nat.eqb n 101) (Nat.eqb n 69))
  | EmptyString => false
  end.

(** Where a number can end: at the end of the text, or before a character
    that neither continues the digits nor starts a fraction or an
    exponent. *)
Definition ends_number (s : string) : bool :=
  match s with
  | EmptyString => true
  | String c _ =>
      match digit_of c with
      | Some _ => false
      | None => negb (float_follows s)
      end
  end.

(** The integer part of NUMBER_RE: a single zero, or a run of digits that
    does not start with one. *)
Definition scan_uint (s : string) : option (Decimal.uint * string) :=
  match s with
  | String c rest =>
      if Ascii.eqb c "0" then Some (Decimal.D0 Decimal.Nil, rest)
      else match scan_digits s with
           | (Decimal.Nil, _) => None
           | (d, rest') => Some (d, rest')
           end
  | EmptyString => None
  end.

Definition scan_int (s : string) : option (Z * string) :=
  match s with
  | String c rest =>
      if Ascii.eqb c "-" then
        match scan_uint rest with
        | Some (d, rest') =>
            if float_follows rest' then None else Some (Z.of_int (Decimal.Neg d), rest')
        | None => None
        end
      else
        match scan_uint s with
        | Some (d, rest') =>
            if float_follows rest' then None else Some (Z.of_int (Decimal.Pos d), rest')
        | None => None
        end
  | EmptyString => None
  end.

(** [lit] is a prefix of [s]: what follows it. *)
Fixpoint expect (lit s : string) : option string :=
  match lit, s with
  | EmptyString, _ => Some s
  | String a lit', String b s' => if Ascii.eqb a b then expect lit' s' else None
  | String _ _, EmptyString => None
  end.

(** [d[key] = v] on a dict in insertion order. *)
Fixpoint dict_set (key : string) (v : value) (d : list (string * value))
  : list (string * value) :=
  match d with
  | [] => [(key, v)]
  | (k, x) :: rest =>
      if (k =? key)%string then (k, v) :: rest else (k, x) :: dict_set key v rest
  end.

(** [scan_once], [JSONObject] and [JSONArray]: each call uses one unit of
    [fuel]; [s] starts at the value, whitespace skipped. *)
Fixpoint parse_value (fuel : nat) (s : string) : option (value * string) :=
  match fuel with
  | O => None
  | Datatypes.S fuel' =>
      match s with
      | EmptyString => None
      | String c rest =>
          if Ascii.eqb c dquote then
            match scanstring rest with
            | Some (str, rest') => Some (VStr str, rest')
            | None => None
            end
          else if Ascii.eqb c "{" then
            match skip_ws rest with
            | String c' rest' =>
                if Ascii.eqb c' "}" then Some (VDict [], rest')
                else parse_members fuel' [] (skip_ws rest)
            | EmptyString => None
            end
          else if Ascii.eqb c "[" then
            match skip_ws rest with
            | String c' rest' =>
                if Ascii.eqb c' "]" then Some (VList [], rest')
                else parse_elements fuel' [] (skip_ws rest)
            | EmptyString => None
            end
          else if Ascii.eqb c "n" then
            match expect "null" s with
            | Some rest' => Some (VNone, rest')
            | None => None
            end
          else if Ascii.eqb c "t" then
            match expect "true" s with
            | Some rest' => Some (VBool true, rest')
            | None => None
            end
          else if Ascii.eqb c "f" then
            match expect "false" s with
            | Some rest' => Some (VBool false, rest')
            | None => None
            end
          else
            match scan_int s with
            | Some (n, rest') => Some (VInt n, rest')
            | None => None
            end
      end
  end

(** The members of an object from a key's opening quote on; [acc] holds the
    pairs read so far. *)
with parse_members (fuel : nat) (acc : list (string * value)) (s : string)
  : option (value * string) :=
  match fuel with
  | O => None
  | Datatypes.S fuel' =>
      match s with
      | String c rest =>
          if Ascii.eqb c dquote then
            match scanstring rest with
            | Some (key, rest1) =>
                match skip_ws rest1 with
                | String colon rest2 =>
                    if Ascii.eqb colon ":" then
                      match parse_value fuel' (skip_ws rest2) with
                      | Some (v, rest3) =>
                          match skip_ws rest3 with
                          | String sep rest4 =>
                              if Ascii.eqb sep "}" then Some (VDict (dict_set key v acc), rest4)
                              else if Ascii.eqb sep ","
                              then parse_members fuel' (dict_set key v acc) (skip_ws rest4)
                              else None
                          | EmptyString => None
                          end
                      | None => None
                      end
                    else None
                | EmptyString => None
                end
            | None => None
            end
          else None
      | EmptyString => None
      end
  end

(** The elements of an array from the first character of an element on. *)
with parse_elements (fuel : nat) (acc : list value) (s : string)
  : option (value * string) :=
  match fuel with
  | O => None
  | Datatypes.S fuel' =>
      match parse_value fuel' s with
      | Some (v, rest1) =>
          match skip_ws rest1 with
          | String sep rest2 =>
              if Ascii.eqb sep "]" then Some (VList (acc ++ [v]), rest2)
              else if Ascii.eqb sep ","
              then parse_elements fuel' (acc ++ [v])%list (skip_ws rest2)
              else None
          | EmptyString => None
          end
      | None => None
      end
  end.

(** [json.loads(text)]: one value between optional whitespace and nothing
    after it.  No value takes more calls than the text has characters. *)
Definition loads (text : string) : res value :=
  match parse_value (Datatypes.S (String.length text)) (skip_ws text) with
  | Some (v, rest) =>
      match skip_ws rest with
      | EmptyString => Ok v
      | String _ _ => Raise (Exception "json.JSONDecodeError: Extra data")
      end
  | None => Raise (Exception "json.JSONDecodeError")
  end.

(** *** The shape of an encoded dict *)

(** One member of an object: the key, a colon and a space, the value. *)
Definition member_text (key text : string) : string :=
  encode_str key ++ ": " ++ text.

(** A non-empty object at nesting level [level], from the texts of its
    members. *)
Definition object_text (level : nat) (members : list string) : string :=
  "{" ++ newline_indent (Datatypes.S level)
      ++ join ("," ++ newline_indent (Datatypes.S level)) members
      ++ newline_indent level ++ "}".

(** The entries of an object under construction: the key, the text of the
    value and the value. *)
Definition member_texts (entries : list (string * (string * value))) : list string :=
  map (fun e => member_text (fst e) (fst (snd e))) entries.

(** The dict a run of [d[key] = v] over the entries builds from [acc]. *)
Definition built (entries : list (string * (string * value))) (acc : list (string * value))
  : list (string * value) :=
  fold_left (fun a e => dict_set (fst e) (snd (snd e)) a) entries acc.

(** [text] is read back as [v] by every call with at least [fuel], whatever
    follows it, as long as a number can end there; and no whitespace is
    skipped at its head. *)
Definition reads (fuel : nat) (text : string) (v : value) : Prop :=
  (forall rest, skip_ws (text ++ rest) = text ++ rest) /\
  (forall f rest, fuel <= f -> ends_number rest = true ->
                  parse_value f (text ++ rest) = Some (v, rest)).

End Json.

(** ** testom/testing.py *)

Module Testing.
Import Py.

(** [COORD_FILE]: the text of [teams_coords.json], [None] while the file
    does not exist.  The text written by [save_coords] is ASCII, which the
    UTF-8 codec of [write_text] and [read_text] leaves as it is. *)
Definition coord_file : Type := option string.

(** [load_coords] (lines 28-31) *)
Definition load_coords (f : coord_file) : res value :=
  match f with
  | Some text => Json.loads text
  | None => Ok (VDict [])
  end.

(** [save_coords] (lines 33-34): the file after the call. *)
Definition save_coords (c : value) (f : coord_file) : res coord_file :=
  match Json.dumps c with
  | Ok text => Ok (Some text)
  | Raise e => Raise e
  end.

(** The coordinate map as [_capture_cursor] and the calibration loop build
    it: [{name: {"x": x, "y": y}, ...}]. *)
Definition position (p : Z * Z) : value :=
  VDict [("x", VInt (fst p)); ("y", VInt (snd p))].

Definition coords_value (anchors : list (string * (Z * Z))) : value :=
  VDict (map (fun a => (fst a, position (snd a))) anchors).

(** The text [save_coords] writes for a position and for a coordinate
    map. *)
Definition position_entries (p : Z * Z) : list (string * (string * value)) :=
  [("x", (str_of_Z (fst p), VInt (fst p))); ("y", (str_of_Z (snd p), VInt (snd p)))].

Definition position_text (p : Z * Z) : string :=
  Json.object_text 1 (Json.member_texts (position_entries p)).

Definition coords_entries (anchors : list (string * (Z * Z)))
  : list (string * (string * value)) :=
  map (fun a => (fst a, (position_text (snd a), position (snd a)))) anchors.

Definition coords_text (anchors : list (string * (Z * Z))) : string :=
  match anchors with
  | [] => "{}"
  | _ :: _ => Json.object_text 0 (Json.member_texts (coords_entries anchors))
  end.

End Testing.

(** ** Further observations on agent_preview.py *)

Module Observers.
Import Py Effects AgentPreview.

(** An item of [response.output] that the list comprehension of
    [get_agent_actions] keeps. *)
Definition is_computer_call (item : value) : bool :=
  match getattr item "type" with
  | Ok t => is_str t "computer_call"
  | Raise _ => false
  end.

(** An item the extraction can read: it has a [type]; a computer call has
    an [action] with a [type] of its own, and a [call_id]. *)
Definition readable_item (item : value) : bool :=
  match getattr item "type" with
  | Raise _ => false
  | Ok t =>
      if is_str t "computer_call" then
        match getattr item "action", getattr item "call_id" with
        | Ok act, Ok _ => match getattr act "type" with Ok _ => true | Raise _ => false end
        | _, _ => false
        end
      else true
  end.

(** The action dict built from a computer call. *)
Definition action_of (call : value) : action :=
  {| a_type := getattr_default (getattr_default call "action" VNone) "type" VNone;
     a_details := getattr_default call "action" VNone;
     a_call_id := getattr_default call "call_id" VNone |}.


(** A key of a keypress action that the translator sends. *)
Definition is_enter_key (key : value) : bool :=
  match key with
  | VStr k => (lower k =? "enter")%string
  | _ => false
  end.

Definition enter_keys (keys : value) : nat :=
  match py_iter keys with
  | Some l => List.length (filter is_enter_key l)
  | None => O
  end.


(** A request to the decision service that carries no image. *)
Definition is_blank_request (e : event) : bool :=
  match e with
  | Sync (ResponsesCreate _ _ []) => true
  | _ => false
  end.

Definition carries_image (e : event) : bool := negb (is_blank_request e).

Section WithEnv.
Context {S : Type} {E : Env S}.

(** [m] only appends to the trace, and what it appends passes [p]. *)
Definition appends {A} (p : event -> bool) (m : M S A) : Prop :=
  forall w, exists t : list event,
    trace (snd (m w)) = (trace w ++ t)%list /\ forallb p t = true.

(** [m] makes at most [n] requests to the decision service. *)
Definition requests_le {A} (n : nat) (m : M S A) : Prop :=
  forall w,
    (count_events is_service_call (trace (snd (m w)))
     <= count_events is_service_call (trace w) + n)%nat.

(** [m] makes no more requests than it takes screenshots, and takes none
    back. *)
Definition paced {A} (m : M S A) : Prop :=
  forall w,
    (count_events is_service_call (trace (snd (m w))) + count_events is_screenshot (trace w)
     <= count_events is_screenshot (trace (snd (m w)))
        + count_events is_service_call (trace w))%nat /\
    (count_events is_screenshot (trace w)
     <= count_events is_screenshot (trace (snd (m w))))%nat /\
    (count_events is_service_call (trace w)
     <= count_events is_service_call (trace (snd (m w))))%nat.


End WithEnv.




Definition any_event (e : event) : bool := true.

Definition no_request (e : event) : bool := negb (is_service_call e).

End Observers.

(** ** Further observations on teams_cua.py *)

Module DaemonObservers.
Import Py Effects TeamsCua.

Definition loop_error_line : string := "[{}] Loop error: {}".

(** A line logged by the [except Exception] handler of [_agent_loop]. *)
Definition is_loop_error (l : line) : bool := has_format loop_error_line l.

Definition no_loop_error (l : line) : bool := negb (is_loop_error l).

Definition in_backoff (c : coroutine) : bool :=
  match at_pc c with
  | AwaitBackoff => true
  | _ => false
  end.

Definition not_in_backoff (c : coroutine) : bool := negb (in_backoff c).

Definition not_in_task (c : coroutine) : bool := negb (in_task c).

Definition no_newline (c : ascii) : bool := negb (Ascii.eqb c (ascii_of_nat 10)).

(** A task at [p] that nobody cancelled. *)
Definition task_at (p : pc) : coroutine := {| at_pc := p; must_cancel := false |}.

(** The coroutine left its loop through the sentinel or the flag. *)
Definition returned (c : coroutine) : bool :=
  match at_pc c with
  | Finished (Ok _) => true
  | _ => false
  end.

(** The state of a daemon whose workers are all initialised: a task per
    worker, the queue counts at least what it holds and what is being run,
    and the handler of the loop has not run. *)
Definition sound (d : daemon) : Prop :=
  List.length (tasks d) = List.length (agents d) /\
  forallb ready (agents d) = true /\
  (List.length (items d) + List.length (filter in_task (tasks d)) <= unfinished d)%nat /\
  forallb not_in_backoff (tasks d) = true /\
  forallb no_loop_error (log d) = true.

Section WithBase64.
Variable b64decode : string -> option (list Byte.byte).

(** The body of the [async for] goes through for the result [y]. *)
Definition processed (w : AgentWorker) (y : yielded) : bool :=
  match process_result b64decode w y with
  | Ok _ => true
  | Raise _ => false
  end.

End WithBase64.

End DaemonObservers.

(** ** Scripts over other operations

    The monad of [Effects], over any vocabulary of operations: the scripts
    below talk to the session through calls that [agent_preview.py] does
    not make. *)

Module Script.
Import Py.

Declare Scope script_scope.
Delimit Scope script_scope with script.

Section WithOps.
Variables (op S : Type).
(** What the world answers to an operation. *)
Variable perform : op -> S -> res value * S.

Record state : Type := {
  env : S;
  trace : list op;
  out : list line
}.

Definition M (A : Type) : Type := state -> res A * state.

Definition ret {A} (a : A) : M A := fun w => (Ok a, w).

Definition bind {A B} (m : M A) (k : A -> M B) : M B :=
  fun w =>
    match m w with
    | (Ok a, w') => k a w'
    | (Raise e, w') => (Raise e, w')
    end.

Definition raise {A} (e : exn) : M A := fun w => (Raise e, w).

Definition lift {A} (r : res A) : M A := fun w => (r, w).

(** [try: body / except Exception as e: handler e] *)
Definition try_except {A} (body : M A) (handler : string -> M A) : M A :=
  fun w =>
    match body w with
    | (Raise (Exception msg), w') => handler msg w'
    | other => other
    end.

(** [try: body / finally: cleanup] *)
Definition try_finally {A} (body : M A) (cleanup : M unit) : M A :=
  fun w =>
    match body w with
    | (r, w') =>
        match cleanup w' with
        | (Ok _, w'') => (r, w'')
        | (Raise e, w'') => (Raise e, w'')
        end
    end.

Definition print (l : line) : M unit :=
  fun w => (Ok tt, {| env := env w; trace := trace w; out := out w ++ [l] |}).

Definition call (o : op) : M value :=
  fun w =>
    (fst (perform o (env w)),
     {| env := snd (perform o (env w)); trace := trace w ++ [o]; out := out w |}).

(** Every operation returns. *)
Definition reliable : Prop := forall o s, exists v, fst (perform o s) = Ok v.

(** [m] only appends to the trace, and what it appends passes [p]. *)
Definition appends {A} (p : op -> bool) (m : M A) : Prop :=
  forall w, exists t : list op,
    trace (snd (m w)) = (trace w ++ t)%list /\ forallb p t = true.

End WithOps.

Arguments ret {op S A} a.
Arguments raise {op S A} e.
Arguments lift {op S A} r.
Arguments print {op S} l.

Notation "x <- m ;; k" := (bind m (fun x => k))
  (at level 61, m at next level, right associativity) : script_scope.
Notation "m ;;; k" := (bind m (fun _ => k))
  (at level 61, right associativity) : script_scope.

End Script.

(** ** host.py *)

Module Host.
Import Py Script.
#[local] Open Scope script_scope.

(** What [getattr(comp, name, None)] hands to [_graceful_stop]. *)
Inductive attribute : Type :=
| Absent              (* no such attribute, or one that is false in a condition *)
| CoroutineFunction   (* [asyncio.iscoroutinefunction(fn)] holds *)
| PlainFunction       (* any other callable *)
| NotCallable.        (* true in a condition, and calling it is a [TypeError] *)

Inductive op : Type :=
| NewComputer
| Run
| Screenshot
| Mkdir (path : string)
| WriteBytes (path : string) (data : list Byte.byte)
| Resolve (path : string)
| GetScreenSize
| MoveCursor (x y : Z)
| LeftClick
| AwaitMethod (name : string)
| CallMethod (name : string).

Definition is_shutdown (o : op) : bool :=
  match o with
  | AwaitMethod _ | CallMethod _ => true
  | _ => false
  end.

Definition working (o : op) : bool := negb (is_shutdown o).

(** What invoking the attribute found under [name] adds to the trace: a
    coroutine function is awaited, another callable is called, and calling
    anything else fails before an operation is issued. *)
Definition invocation (name : string) (found : attribute) : list op :=
  match found with
  | CoroutineFunction => [AwaitMethod name]
  | PlainFunction => [CallMethod name]
  | Absent | NotCallable => []
  end.

Section WithWorld.
Variable S : Type.
Variable perform : op -> S -> res value * S.
(** The attributes of the object that [Computer(...)] returns. *)
Variable comp : string -> attribute.

#[local] Abbreviation M := (M op S).

(** The [for name in ...] loop of [_graceful_stop] (lines 6-17): the first
    attribute found ends it. *)
Fixpoint graceful_stop_from (names : list string) : M unit :=
  match names with
  | [] => ret tt
  | name :: rest =>
      match comp name with
      | Absent => graceful_stop_from rest
      | CoroutineFunction =>
          try_except (call perform (AwaitMethod name) ;;; ret tt) (fun _ => ret tt)
      | PlainFunction =>
          try_except (call perform (CallMethod name) ;;; ret tt) (fun _ => ret tt)
      | NotCallable => ret tt
      end
  end.

Definition graceful_stop : M unit := graceful_stop_from ["stop"; "shutdown"; "close"].

(** The screenshot as bytes to write (lines 25-32). *)
Definition png_of (shot : value) : res value :=
  match shot with
  | VBytes b => Ok (VBytes b)
  | VDict entries =>
      let get key := match lookup key entries with Some v => v | None => VNone end in
      match py_or (get "png") (py_or (get "image") (get "data")) with
      | VNone => Raise (Exception "RuntimeError: Unexpected screenshot dict keys")
      | png => Ok png
      end
  | _ => Raise (Exception "RuntimeError: Unexpected screenshot type")
  end.

(** [Path.write_bytes]: the data must offer the buffer interface, which is
    checked before the file is opened. *)
Definition write_bytes (path : string) (data : value) : M value :=
  match data with
  | VBytes b => call perform (WriteBytes path b)
  | _ => raise (Exception "TypeError: a bytes-like object is required")
  end.

(** The body of the [try] of [main] (lines 23-44); the check mark of the
    first message is left out of its format. *)
Definition checks : M unit :=
  shot <- call perform Screenshot ;;
  png <- lift (png_of shot) ;;
  call perform (Mkdir "output") ;;;
  write_bytes "output/screenshot.png" png ;;;
  resolved <- call perform (Resolve "output/screenshot.png") ;;
  print (Line "Screenshot saved to: {}" [resolved]) ;;;
  size <- call perform GetScreenSize ;;
  print (Line "Screen size: {}" [size]) ;;;
  call perform (MoveCursor 50 50) ;;;
  call perform LeftClick ;;;
  ret tt.

(** [main] (lines 19-47) *)
Definition main : M unit :=
  call perform NewComputer ;;;
  call perform Run ;;;
  try_finally checks graceful_stop.

End WithWorld.

End Host.

(** ** cua_agent.py *)

Module CuaAgent.
Import Py TeamsCua.

(** [tasks] (lines 40-46) *)
Definition tasks : list string :=
  ["Open the Microsoft Teams application using the desktop or taskbar icon.";
   "Click on the search bar within Teams and type the name 'John Doe'.";
   "From the search results, click on 'John Doe' to open their chat window.";
   "Click on the message input area in the chat window and type 'Hello from Cua Agent!'";
   "Press the Enter key to send the message."].

(** [v[:100]]: a [str], [bytes] or [list] can be sliced. *)
Definition head100 (v : value) : res value :=
  match v with
  | VStr s => Ok (VStr (substring 0 100 s))
  | VBytes b => Ok (VBytes (firstn 100 b))
  | VList l => Ok (VList (firstn 100 l))
  | _ => Raise (Exception "TypeError: object is not subscriptable")
  end.

Definition screenshot_path (i : nat) : string :=
  "trajectories/task_" ++ str_of_Z (Z.of_nat (i + 1)) ++ "_screenshot.png".

(** The body of the [async for] (lines 52-60) for task [i]: how it ends,
    and the lines it has printed by then.  The arrows of the messages are
    left out of their formats. *)
Definition process_result (i : nat) (y : yielded) : res unit * list line :=
  match dict_get (y_result y) "text" with
  | Raise e => (Raise e, [])
  | Ok text =>
      match (if truthy text
             then match head100 text with
                  | Ok shown => Ok [Line " {}..." [shown]]
                  | Raise e => Raise e
                  end
             else Ok []) with
      | Raise e => (Raise e, [])
      | Ok printed =>
          match dict_get (y_result y) "screenshot" with
          | Raise e => (Raise e, printed)
          | Ok shot =>
              if truthy shot then
                match y_write_error y, shot with
                | Some e, _ => (Raise (Exception e), printed)
                | None, VBytes _ =>
                    (Ok tt,
                     (printed ++ [Line " Screenshot saved: {}" [VStr (screenshot_path i)]])%list)
                | None, _ =>
                    (Raise (Exception "TypeError: a bytes-like object is required"), printed)
                end
              else (Ok tt, printed)
          end
      end
  end.

(** The [async for] over the stream of task [i]. *)
Fixpoint consume (i : nat) (ys : list yielded) (e : stream_end) : res unit * list line :=
  match ys with
  | [] =>
      match e with
      | Ended => (Ok tt, [])
      | Raised x => (Raise x, [])
      end
  | y :: rest =>
      match process_result i y with
      | (Raise x, printed) => (Raise x, printed)
      | (Ok _, printed) => (fst (consume i rest e), (printed ++ snd (consume i rest e))%list)
      end
  end.

Definition executing (total i : nat) (task : string) : line :=
  Line "Executing task {}/{}: {}"
       [VInt (Z.of_nat (i + 1)); VInt (Z.of_nat total); VStr task].

Definition failed (i : nat) (msg : string) : line :=
  Line "Task {} failed: {}" [VInt (Z.of_nat (i + 1)); VStr msg].

Definition completed (total i : nat) (task : string) : line :=
  Line "Task {}/{} completed: {}"
       [VInt (Z.of_nat (i + 1)); VInt (Z.of_nat total); VStr task].

(** The [for i, task in enumerate(tasks)] loop (lines 48-65) from index [i]
    on; [behaviour j] is what the stream of task [j] does. *)
Fixpoint run_tasks (behaviour : nat -> agent_run) (total i : nat) (remaining : list string)
  : res unit * list line :=
  match remaining with
  | [] => (Ok tt, [])
  | task :: rest =>
      let b := behaviour i in
      match consume i (yields b) (ending b) with
      | (Ok _, printed) =>
          (fst (run_tasks behaviour total (Datatypes.S i) rest),
           (executing total i task :: printed ++ [completed total i task]
              ++ snd (run_tasks behaviour total (Datatypes.S i) rest))%list)
      | (Raise (Exception msg), printed) =>
          (fst (run_tasks behaviour total (Datatypes.S i) rest),
           (executing total i task :: printed ++ [failed i msg]
              ++ snd (run_tasks behaviour total (Datatypes.S i) rest))%list)
      | (Raise CancelledError, printed) =>
          (Raise CancelledError, (executing total i task :: printed)%list)
      end
  end.

(** A stream that is not cancelled. *)
Definition uncancelled (b : agent_run) : bool :=
  match ending b with
  | Raised CancelledError => false
  | _ => true
  end.

(** The task goes through: its stream ends by itself and the body of the
    loop raises for none of its results. *)
Definition clean (i : nat) (b : agent_run) : bool :=
  match consume i (yields b) (ending b) with
  | (Ok _, _) => true
  | _ => false
  end.

Definition is_executing (l : line) : bool := Effects.has_format "Executing task {}/{}: {}" l.
Definition is_completed (l : line) : bool := Effects.has_format "Task {}/{} completed: {}" l.
Definition is_failed (l : line) : bool := Effects.has_format "Task {} failed: {}" l.

End CuaAgent.

(** ** testom/testing.py: calibration and sending *)

Module Calibration.
Import Py Script Testing.
#[local] Open Scope script_scope.

(** [v[key]] with a [str] key. *)
Definition getitem (v : value) (key : string) : res value :=
  match v with
  | VDict entries =>
      match lookup key entries with
      | Some x => Ok x
      | None => Raise (Exception ("KeyError: " ++ key))
      end
  | VStr _ | VBytes _ | VList _ =>
      Raise (Exception "TypeError: indices must be integers")
  | _ => Raise (Exception "TypeError: object is not subscriptable")
  end.

(** [v[key] = x] with a [str] key. *)
Definition setitem (v : value) (key : string) (x : value) : res value :=
  match v with
  | VDict entries => Ok (VDict (Json.dict_set key x entries))
  | _ => Raise (Exception "TypeError: object does not support item assignment")
  end.

(** [key in v], for the dict that [v] is where the scripts ask. *)
Definition has_key (v : value) (key : string) : bool :=
  match v with
  | VDict entries => match lookup key entries with Some _ => true | None => false end
  | _ => false
  end.

(** [coords[key] = pos] on the anchors of a coordinate map. *)
Fixpoint set_anchor (key : string) (p : Z * Z) (anchors : list (string * (Z * Z)))
  : list (string * (Z * Z)) :=
  match anchors with
  | [] => [(key, p)]
  | (k, q) :: rest =>
      if (k =? key)%string then (k, p) :: rest else (k, q) :: set_anchor key p rest
  end.

Section WithInt.
(** [int(s)] for a [str] and for [bytes], [None] where it raises
    [ValueError]. *)
Variable int_of_str : string -> option Z.
Variable int_of_bytes : list Byte.byte -> option Z.

(** [int(v)]; an object of the model has no [__int__]. *)
Definition py_int (v : value) : res Z :=
  match v with
  | VInt n => Ok n
  | VBool b => Ok (if b then 1 else 0)
  | VStr s =>
      match int_of_str s with
      | Some n => Ok n
      | None => Raise (Exception "ValueError: invalid literal for int()")
      end
  | VBytes b =>
      match int_of_bytes b with
      | Some n => Ok n
      | None => Raise (Exception "ValueError: invalid literal for int()")
      end
  | _ => Raise (Exception "TypeError: int() argument must be a string or a real number")
  end.

(** [_capture_cursor] (lines 65-70), from the position the session
    reported. *)
Definition capture_cursor (pos : value) : res value :=
  let field name :=
    match pos with
    | VDict _ => getitem pos name
    | _ => getattr pos name
    end in
  match field "x" with
  | Raise e => Raise e
  | Ok x =>
      match py_int x with
      | Raise e => Raise e
      | Ok xn =>
          match field "y" with
          | Raise e => Raise e
          | Ok y =>
              match py_int y with
              | Raise e => Raise e
              | Ok yn => Ok (position (xn, yn))
              end
          end
      end
  end.

(** One calibration (lines 128-130): the captured position is stored under
    [key] and the map is saved; the file after it. *)
Definition calibrate (key : string) (pos coords : value) (f : coord_file) : res coord_file :=
  match capture_cursor pos with
  | Raise e => Raise e
  | Ok p =>
      match setitem coords key p with
      | Raise e => Raise e
      | Ok updated => save_coords updated f
      end
  end.

End WithInt.

Inductive op : Type :=
| LeftClick (x y : value)
| Hotkey (modifier key : string)
| PressKey (key : string)
| TypeText (text : string)
| Sleep (ms : Z).

Section WithWorld.
Variable S : Type.
Variable perform : op -> S -> res value * S.

#[local] Abbreviation M := (M op S).

(** [await comp.interface.<operation>(...)]; [comp] tells whether
    [st.session_state.computer] holds a session. *)
Definition on_interface (comp : bool) (o : op) : M value :=
  if comp then call perform o
  else raise (Exception "AttributeError: 'NoneType' object has no attribute 'interface'").

(** [_async_send] (lines 73-100) *)
Definition async_send (comp : bool) (coords : value) (recipient message : string) : M unit :=
  search <- lift (getitem coords "search_box") ;;
  sx <- lift (getitem search "x") ;;
  sy <- lift (getitem search "y") ;;
  on_interface comp (LeftClick sx sy) ;;;
  on_interface comp (Hotkey "ctrl" "a") ;;;
  on_interface comp (PressKey "backspace") ;;;
  call perform (Sleep 200) ;;;
  on_interface comp (TypeText recipient) ;;;
  call perform (Sleep 500) ;;;
  on_interface comp (PressKey "enter") ;;;
  call perform (Sleep 1000) ;;;
  (if has_key coords "first_result" then
     first <- lift (getitem coords "first_result") ;;
     fx <- lift (getitem first "x") ;;
     fy <- lift (getitem first "y") ;;
     on_interface comp (LeftClick fx fy) ;;;
     call perform (Sleep 500) ;;;
     ret tt
   else ret tt) ;;;
  box <- lift (getitem coords "message_box") ;;
  mx <- lift (getitem box "x") ;;
  my <- lift (getitem box "y") ;;
  on_interface comp (LeftClick mx my) ;;;
  call perform (Sleep 200) ;;;
  on_interface comp (TypeText message) ;;;
  call perform (Sleep 200) ;;;
  on_interface comp (PressKey "enter") ;;;
  call perform (Sleep 500) ;;;
  ret tt.

(** [send_message] (lines 102-109) *)
Definition send_message (comp : bool) (coords : value) (recipient message : string) : M unit :=
  try_except
    (async_send comp coords recipient message ;;;
     print (Line "Message sent (best-effort)." []))
    (fun e =>
       print (Line "Failed to send: {}" [VStr e]) ;;;
       print (Line "traceback.format_exc()" [])).

End WithWorld.

(** An operation that types [text]. *)
Definition types (text : string) (o : op) : bool :=
  match o with
  | TypeText t => (t =? text)%string
  | _ => false
  end.

Definition is_click (o : op) : bool :=
  match o with
  | LeftClick _ _ => true
  | _ => false
  end.

End Calibration.

(** ** Further sample environments *)

Module MoreSamples.
Import Py Effects Samples.

(** A response with a message and one computer call. *)
Definition mixed_items : list value :=
  [VObj [("type", VStr "message"); ("content", VStr "Opening Teams")];
   VObj [("type", VStr "computer_call");
         ("action", VObj [("type", VStr "type"); ("text", VStr "John Doe")]);
         ("call_id", VStr "call_7")]].

Definition mixed_response : value :=
  VObj [("id", VStr "resp_7"); ("output", VList mixed_items)].

Definition mixed : Env nat := {|
  await_op := desktop;
  sync_op c n :=
    match c with
    | ResponsesCreate _ _ _ => (inr mixed_response, Datatypes.S n)
    | _ => (inr VNone, n)
    end
|}.

(** The service returns an action for its first [k] requests and fails
    from then on. *)
Definition fails_after (k : nat) : Env nat := {|
  await_op := desktop;
  sync_op c n :=
    match c with
    | ResponsesCreate _ _ _ =>
        (if Nat.ltb n k then inr click_response else inl "APIConnectionError", Datatypes.S n)
    | _ => (inr VNone, n)
    end
|}.

(** The SDK object is built and its [run()] fails. *)
Definition run_fails : Env nat := {|
  await_op c n :=
    match c with
    | Run => (Raise (Exception "ConnectionRefusedError"), n)
    | _ => (Ok VNone, n)
    end;
  sync_op c n := (inr VNone, n)
|}.

(** The session runs and cannot take a screenshot. *)
Definition screenshot_fails : Env nat := {|
  await_op c n :=
    match c with
    | Screenshot => (Raise (Exception "TimeoutError"), n)
    | _ => (Ok VNone, n)
    end;
  sync_op c n := (inr VNone, n)
|}.

(** Every click fails; the clock works. *)
Definition clicks_fail : Env nat := {|
  await_op c n :=
    match c with
    | LeftClick _ _ => (Raise (Exception "click failed"), n)
    | _ => (Ok VNone, n)
    end;
  sync_op c n := (inr VNone, n)
|}.

Definition click_at (x y : Z) : AgentPreview.action :=
  {| AgentPreview.a_type := VStr "click";
     AgentPreview.a_details := VObj [("x", VInt x); ("y", VInt y)];
     AgentPreview.a_call_id := VStr "call" |}.

(** A world whose history ends with a response that has no [id]. *)
Definition anonymous_history : world nat :=
  {| env := O; trace := []; out := []; computer := true;
     response_history := [click_response; VObj [("output", VList [])]] |}.

(** One worker, idle in [queue.get()], then [stop] and the sentinel
    taken. *)
Definition idle_waiting : TeamsCua.daemon :=
  match TeamsCua.resume no_base64 0 TeamsCua.Start (TeamsCua.start 1) with
  | Some d => d
  | None => TeamsCua.start 1
  end.

Definition idle_stopping : TeamsCua.daemon := TeamsCua.stop_begin idle_waiting.

Definition idle_returned : TeamsCua.daemon :=
  match TeamsCua.resume no_base64 0 TeamsCua.Item idle_stopping with
  | Some d => d
  | None => idle_stopping
  end.

(** A stream with a text, a screenshot that cannot be written, and a
    normal end. *)
Definition unwritable_run : TeamsCua.agent_run :=
  {| TeamsCua.yields :=
       [{| TeamsCua.y_result := VDict [("text", VStr "clicked"); ("screenshot", screen)];
           TeamsCua.y_timestamp := "20250101T000000Z";
           TeamsCua.y_write_error := Some "PermissionError" |}];
     TeamsCua.ending := TeamsCua.Ended |}.

(** The second task of five fails, the others go through. *)
Definition second_fails (j : nat) : TeamsCua.agent_run :=
  if Nat.eqb j 1 then unwritable_run else TeamsCua.no_run.

(** A session object with a [stop] coroutine, in a world where everything
    returns [None]. *)
Definition stoppable (name : string) : Host.attribute :=
  if (name =? "stop")%string then Host.CoroutineFunction else Host.Absent.

Definition obliging {op : Type} (o : op) (n : nat) : res value * nat := (Ok VNone, n).

Definition blank {op : Type} : Script.state op nat :=
  {| Script.env := O; Script.trace := []; Script.out := [] |}.

(** No text is an integer literal. *)
Definition no_int {A : Type} (s : A) : option Z := None.

(** The position as an object with attributes [x] and [y]. *)
Definition cursor_at (x y : Z) : value := VObj [("x", VInt x); ("y", VInt y)].

End MoreSamples.

(** * Properties *)

Unset Implicit Arguments.
#[local] Open Scope list_scope.
Import Py Effects.

Section AgentPreviewProperties.
Import Py Effects AgentPreview.
Context {S : Type} {E : Env S}.

Lemma is_str_false (v : value) (s : string) :
  v <> VStr s -> is_str v s = false.
Proof.
  destruct v; simpl; try reflexivity.
  intros H. destruct (String.eqb_spec s0 s); [subst; congruence | reflexivity].
Qed.

(** C5: an action whose kind is none of click, type, scroll, keypress and
    wait makes [execute_agent_action] return normally; it issues no
    operation at all, leaves the outside world as it was and prints the
    single line "Unknown action type". *)
Theorem unknown_action_only_logged (a : action) (w : world S) :
  ~ In (a_type a) known_kinds ->
  execute_agent_action a w =
    (Ok tt, {| env := env w; trace := trace w;
               out := out w ++ [Line "Unknown action type: {}" [a_type a]];
               response_history := response_history w; computer := computer w |}).
Proof.
  intros H. unfold known_kinds in H. simpl in H.
  unfold execute_agent_action, try_except.
  rewrite !is_str_false by (intros Heq; apply H; rewrite Heq; tauto).
  reflexivity.
Qed.

(** C9: with the session set, a click action issues exactly one operation,
    [left_click] at the action's coordinates (0 where one is missing),
    whatever the action's button field says: with the button set to any
    value, "right" and "middle" included, the operation issued is the same
    left click. *)
Theorem click_is_always_left_click (details call_id : value) (w : world S) :
  computer w = true ->
  trace (snd (execute_agent_action
                {| a_type := VStr "click"; a_details := details; a_call_id := call_id |} w))
    = trace w ++ [Await (LeftClick (getattr_default details "x" (VInt 0))
                                   (getattr_default details "y" (VInt 0)))]
  /\ forall (attrs : list (string * value)) (button : value),
       trace (snd (execute_agent_action
                     {| a_type := VStr "click";
                        a_details := VObj (("button", button) :: attrs);
                        a_call_id := call_id |} w))
       = trace w ++ [Await (LeftClick (getattr_default (VObj attrs) "x" (VInt 0))
                                      (getattr_default (VObj attrs) "y" (VInt 0)))].
Proof.
  intros Hset.
  assert (Hgen : forall d,
    trace (snd (execute_agent_action
                  {| a_type := VStr "click"; a_details := d; a_call_id := call_id |} w))
    = trace w ++ [Await (LeftClick (getattr_default d "x" (VInt 0))
                                   (getattr_default d "y" (VInt 0)))]).
  { intros d.
    unfold execute_agent_action, try_except, on_interface, bind, get_computer, print, await, ret.
    simpl. rewrite Hset.
    destruct (fst (await_op _ _)) as [v | [msg | ]]; reflexivity. }
  split; [apply Hgen | ].
  intros attrs button. rewrite Hgen. reflexivity.
Qed.

(** C10: a scroll action issues no operation: the trace and the outside
    world are unchanged, the call returns normally, and the only effect is
    the printed line with the scroll parameters. *)
Theorem scroll_is_only_logged (details call_id : value) (w : world S) :
  execute_agent_action
    {| a_type := VStr "scroll"; a_details := details; a_call_id := call_id |} w
  = (Ok tt, {| env := env w; trace := trace w;
               out := out w ++ [Line "Agent action: Scroll by ({}, {})"
                                     [getattr_default details "scroll_x" (VInt 0);
                                      getattr_default details "scroll_y" (VInt 0)]];
               response_history := response_history w; computer := computer w |}).
Proof. reflexivity. Qed.

(** C6: when the call to the decision service raises, [get_agent_actions]
    returns the empty list instead of raising; the service was called once
    (no retry), the error and the traceback were printed, and the response
    history is as before. *)
Theorem service_error_gives_no_actions
    (screenshot : list Byte.byte) (prompt : string) (w : world S)
    (prev : value) (msg : string) :
  last_response_id (response_history w) = Ok prev ->
  fst (sync_op (ResponsesCreate prev prompt screenshot) (env w)) = inl msg ->
  get_agent_actions (VBytes screenshot) prompt w =
    (Ok [], {| env := snd (sync_op (ResponsesCreate prev prompt screenshot) (env w));
               trace := trace w ++ [Sync (ResponsesCreate prev prompt screenshot)];
               out := out w ++ [Line "Error getting agent actions: {}" [VStr msg];
                                Line "traceback.print_exc()" []];
               response_history := response_history w; computer := computer w |}).
Proof.
  intros Hprev Hfail.
  unfold get_agent_actions, try_except, bind, lift, get_history, sync. simpl.
  rewrite Hprev. simpl. rewrite Hfail. unfold print, ret. simpl.
  rewrite <- app_assoc. reflexivity.
Qed.







End AgentPreviewProperties.

(** ** How the operations extend the trace and the output *)

Section Frames.
Import Py Effects AgentPreview.
Context {S : Type} {E : Env S}.
Variables (p : event -> bool) (q : line -> bool).

Lemma extends_ret {A} (a : A) : extends p q (ret (S:=S) a).
Proof. intros w. exists [], []. simpl. rewrite !app_nil_r. auto 6. Qed.

Lemma extends_raise {A} (e : exn) : extends p q (raise (S:=S) (A:=A) e).
Proof. intros w. exists [], []. simpl. rewrite !app_nil_r. auto 6. Qed.

Lemma extends_lift {A} (r : res A) : extends p q (lift (S:=S) r).
Proof. intros w. exists [], []. simpl. rewrite !app_nil_r. auto 6. Qed.

Lemma extends_bind {A B} (m : M S A) (k : A -> M S B) :
  extends p q m -> (forall a, extends p q (k a)) -> extends p q (bind m k).
Proof.
  intros Hm Hk w. unfold bind.
  destruct (Hm w) as (t1 & o1 & Ht1 & Hp1 & Ho1 & Hq1 & Hc1).
  destruct (m w) as [[a | e] w1]; simpl in *.
  - destruct (Hk a w1) as (t2 & o2 & Ht2 & Hp2 & Ho2 & Hq2 & Hc2).
    exists (t1 ++ t2), (o1 ++ o2).
    rewrite Ht2, Ho2, Hc2, Ht1, Ho1, Hc1, !app_assoc, !forallb_app, Hp1, Hp2, Hq1, Hq2.
    auto 6.
  - exists t1, o1. auto 6.
Qed.

Lemma extends_try_except {A} (body : M S A) (handler : string -> M S A) :
  extends p q body -> (forall e, extends p q (handler e)) ->
  extends p q (try_except body handler).
Proof.
  intros Hm Hk w. unfold try_except.
  destruct (Hm w) as (t1 & o1 & Ht1 & Hp1 & Ho1 & Hq1 & Hc1).
  destruct (body w) as [[a | [msg | ]] w1]; simpl in *.
  - exists t1, o1. auto 6.
  - destruct (Hk msg w1) as (t2 & o2 & Ht2 & Hp2 & Ho2 & Hq2 & Hc2).
    exists (t1 ++ t2), (o1 ++ o2).
    rewrite Ht2, Ho2, Hc2, Ht1, Ho1, Hc1, !app_assoc, !forallb_app, Hp1, Hp2, Hq1, Hq2.
    auto 6.
  - exists t1, o1. auto 6.
Qed.

Lemma extends_try_finally {A} (body : M S A) (cleanup : M S unit) :
  extends p q body -> extends p q cleanup -> extends p q (try_finally body cleanup).
Proof.
  intros Hm Hk w. unfold try_finally.
  destruct (Hm w) as (t1 & o1 & Ht1 & Hp1 & Ho1 & Hq1 & Hc1).
  destruct (body w) as [r w1]; simpl in *.
  destruct (Hk w1) as (t2 & o2 & Ht2 & Hp2 & Ho2 & Hq2 & Hc2).
  exists (t1 ++ t2), (o1 ++ o2).
  destruct (cleanup w1) as [[u | e] w2]; simpl in *;
    rewrite Ht2, Ho2, Hc2, Ht1, Ho1, Hc1, !app_assoc, !forallb_app, Hp1, Hp2, Hq1, Hq2;
    auto 6.
Qed.

Lemma extends_print (l : line) : q l = true -> extends p q (print (S:=S) l).
Proof. intros H w. exists [], [l]. simpl. rewrite H, app_nil_r. auto 6. Qed.

Lemma extends_await (c : acall) : p (Await c) = true -> extends p q (await c).
Proof. intros H w. exists [Await c], []. simpl. rewrite H, app_nil_r. auto 6. Qed.

Lemma extends_sync (c : scall) : p (Sync c) = true -> extends p q (sync c).
Proof. intros H w. exists [Sync c], []. simpl. rewrite H, app_nil_r. auto 6. Qed.

Lemma extends_get_history : extends p q (get_history (S:=S)).
Proof. intros w. exists [], []. simpl. rewrite !app_nil_r. auto 6. Qed.

Lemma extends_set_history (h : list value) : extends p q (set_history (S:=S) h).
Proof. intros w. exists [], []. simpl. rewrite !app_nil_r. auto 6. Qed.

Lemma extends_get_computer : extends p q (get_computer (S:=S)).
Proof. intros w. exists [], []. simpl. rewrite !app_nil_r. auto 6. Qed.

End Frames.

(** Breaks a goal [extends p q m] down along the structure of [m]; the
    tests on the single events and lines are left to [side]. *)
Ltac frame_with side :=
  repeat first
    [ assumption
    | match goal with
      | H : forall x, extends _ _ (?f x) |- extends _ _ (?f _) => apply H
      | H : forall x y, extends _ _ (?f x y) |- extends _ _ (?f _ _) => apply H
      | H : forall x y z, extends _ _ (?f x y z) |- extends _ _ (?f _ _ _) => apply H
      end
    | apply extends_ret | apply extends_raise | apply extends_lift
    | apply extends_get_history | apply extends_set_history
    | apply extends_get_computer
    | progress unfold AgentPreview.on_interface
    | apply extends_print; side
    | apply extends_await; side
    | apply extends_sync; side
    | apply extends_bind; [ | intros ? ]
    | apply extends_try_except; [ | intros ? ]
    | apply extends_try_finally
    | match goal with
      | |- extends _ _ (if ?b then _ else _) => destruct b
      | |- extends _ _ (match ?x with _ => _ end) => destruct x
      end ].

Section InnerFrames.
Import Py Effects AgentPreview.
Context {S : Type} {E : Env S}.
Variables (p : event -> bool) (q : line -> bool).
(** The operations below issue neither [stop] nor [screenshot], and never
    print the line for an empty action list. *)
Hypothesis Hp : forall e, is_stop e = false -> is_screenshot e = false -> p e = true.
Hypothesis Hq : forall l, has_format no_actions_line l = false -> q l = true.

Ltac side := first [ apply Hp; reflexivity | apply Hq; reflexivity ].

Lemma extends_get_agent_actions (screenshot : value) (prompt : string) :
  extends p q (get_agent_actions (S:=S) screenshot prompt).
Proof. unfold get_agent_actions. frame_with side. Qed.

Lemma extends_press_keys (keys : list value) : extends p q (press_keys (S:=S) keys).
Proof.
  induction keys as [ | key rest IH]; simpl; frame_with side.
Qed.

Lemma extends_execute_agent_action (a : action) :
  extends p q (execute_agent_action (S:=S) a).
Proof.
  unfold execute_agent_action. pose proof extends_press_keys. frame_with side.
Qed.

Lemma extends_execute_actions (total i : Z) (actions : list action) :
  extends p q (execute_actions (S:=S) total i actions).
Proof.
  revert i. induction actions as [ | a rest IH]; intros i; simpl.
  - frame_with side.
  - pose proof extends_execute_agent_action. frame_with side. apply IH.
Qed.

End InnerFrames.

(** ** The perception loop *)

Section LoopProperties.
Import AgentPreview.
Context {S : Type} {E : Env S}.

Lemma inner_event_ok (e : event) :
  is_stop e = false -> is_screenshot e = false -> inner_event e = true.
Proof. unfold inner_event. intros -> ->. reflexivity. Qed.

Lemma other_line_ok (l : line) : has_format no_actions_line l = false -> other_line l = true.
Proof. unfold other_line. intros ->. reflexivity. Qed.

Lemma count_events_app (f : event -> bool) (t1 t2 : list event) :
  count_events f (t1 ++ t2) = (count_events f t1 + count_events f t2)%nat.
Proof. unfold count_events. rewrite filter_app, length_app. reflexivity. Qed.

Lemma count_lines_app (f : line -> bool) (o1 o2 : list line) :
  count_lines f (o1 ++ o2) = (count_lines f o1 + count_lines f o2)%nat.
Proof. unfold count_lines. rewrite filter_app, length_app. reflexivity. Qed.

Lemma count_events_none (f g : event -> bool) (t : list event) :
  (forall e, g e = true -> f e = false) -> forallb g t = true -> count_events f t = O.
Proof.
  intros Hfg. unfold count_events. induction t as [ | e t IH]; simpl; [reflexivity | ].
  intros H. apply andb_prop in H. destruct H as [He Ht].
  rewrite (Hfg e He). auto.
Qed.

Lemma count_lines_none (f g : line -> bool) (o : list line) :
  (forall l, g l = true -> f l = false) -> forallb g o = true -> count_lines f o = O.
Proof.
  intros Hfg. unfold count_lines. induction o as [ | l o IH]; simpl; [reflexivity | ].
  intros H. apply andb_prop in H. destruct H as [Hl Ho].
  rewrite (Hfg l Hl). auto.
Qed.

Lemma inner_not_stop (e : event) : inner_event e = true -> is_stop e = false.
Proof. unfold inner_event. destruct (is_stop e); simpl; congruence. Qed.

Lemma inner_not_screenshot (e : event) : inner_event e = true -> is_screenshot e = false.
Proof. unfold inner_event. destruct (is_stop e), (is_screenshot e); simpl; congruence. Qed.

Lemma other_not_empty (l : line) : other_line l = true -> has_format no_actions_line l = false.
Proof. unfold other_line. destruct (has_format _ l); simpl; congruence. Qed.

(** What an operation that stays inside leaves unchanged. *)
Lemma inner_counts {A} (m : M S A) (w : world S) :
  extends inner_event other_line m ->
  count_events is_stop (trace (snd (m w))) = count_events is_stop (trace w) /\
  count_events is_screenshot (trace (snd (m w))) = count_events is_screenshot (trace w) /\
  empties (out (snd (m w))) = empties (out w).
Proof.
  intros H. destruct (H w) as (t & o & Ht & Hp & Ho & Hq & _).
  unfold empties. rewrite Ht, Ho, !count_events_app, count_lines_app.
  rewrite (count_events_none is_stop inner_event t inner_not_stop Hp).
  rewrite (count_events_none is_screenshot inner_event t inner_not_screenshot Hp).
  rewrite (count_lines_none _ other_line o other_not_empty Hq).
  lia.
Qed.

Ltac inner_side := first [ apply inner_event_ok; reflexivity | apply other_line_ok; reflexivity ].

Ltac inner :=
  pose proof (extends_get_agent_actions (S:=S) inner_event other_line inner_event_ok other_line_ok);
  pose proof (extends_execute_actions (S:=S) inner_event other_line inner_event_ok other_line_ok);
  frame_with inner_side.

Lemma counts_inner {A} (m : M S A) (w : world S) :
  extends inner_event other_line m -> counts (snd (m w)) = counts w.
Proof.
  intros H. destruct (inner_counts m w H) as (H1 & H2 & H3). unfold counts. congruence.
Qed.

(** [take_screenshot] asks for one screenshot when [self.computer] is set
    and for none when it is not. *)
Lemma counts_take_screenshot (w : world S) :
  counts (snd (take_screenshot w)) =
  (count_events is_stop (trace w),
   (count_events is_screenshot (trace w) + (if computer w then 1 else 0))%nat,
   empties (out w)).
Proof.
  unfold take_screenshot, on_interface, try_except, bind, get_computer, await, counts, empties.
  simpl. destruct (computer w); simpl.
  - destruct (fst (await_op Screenshot (env w))) as [v | [msg | ]]; simpl;
      unfold count_events, count_lines; rewrite ?filter_app, ?length_app; simpl;
      f_equal; try f_equal; lia.
  - unfold count_events, count_lines; rewrite ?filter_app, ?length_app; simpl;
      f_equal; try f_equal; lia.
Qed.

Lemma bind_print {A} (l : line) (k : unit -> M S A) (w : world S) :
  bind (print l) k w =
  k tt {| env := env w; trace := trace w; out := out w ++ [l];
          response_history := response_history w; computer := computer w |}.
Proof. reflexivity. Qed.

Lemma counts_print (l : line) (w : world S) :
  other_line l = true ->
  counts {| env := env w; trace := trace w; out := out w ++ [l];
            response_history := response_history w; computer := computer w |} = counts w.
Proof.
  intros H. apply (counts_inner (print l) w). apply extends_print. exact H.
Qed.

(** Sequencing after an operation that stays inside: the counts at the
    start of the continuation are the counts at the start. *)
Lemma bind_inner {A B} (m : M S A) (k : A -> M S B) (w : world S)
    (P : res B * world S -> Prop) :
  extends inner_event other_line m ->
  (forall a w1, counts w1 = counts w -> P (k a w1)) ->
  (forall e w1, counts w1 = counts w -> P (Raise e, w1)) ->
  P (bind m k w).
Proof.
  intros Hm Hk He. pose proof (counts_inner m w Hm) as Hc. unfold bind.
  destruct (m w) as [[a | e] w1]; simpl in Hc; auto.
Qed.

Lemma bind_print_counts {A} (l : line) (k : unit -> M S A) (w : world S)
    (P : res A * world S -> Prop) :
  other_line l = true ->
  (forall w1, counts w1 = counts w -> P (k tt w1)) ->
  P (bind (print l) k w).
Proof. intros Hl Hk. rewrite bind_print. apply Hk. apply counts_print. exact Hl. Qed.

Lemma counts_fields (w : world S) (c : nat * nat * nat) :
  counts w = c ->
  count_events is_stop (trace w) = fst (fst c) /\
  count_events is_screenshot (trace w) = snd (fst c) /\
  empties (out w) = snd c.
Proof. intros <-. unfold counts. simpl. auto. Qed.

(** One pass through the body: one screenshot, no [stop]; the line for an
    empty action list is printed exactly when the pass breaks the loop on
    an empty list, and only then can the completion flag change. *)
Lemma loop_body_counts (tp : string) (mx it : Z) (tc : bool) (w : world S) :
  body_post it tc (computer w) (counts w) (loop_body tp mx it tc w).
Proof.
  unfold loop_body. rewrite bind_print.
  set (w1 := {| env := env w; trace := trace w; out := out w ++ [_];
                response_history := response_history w; computer := computer w |}).
  assert (H1 : counts w1 = counts w) by (apply counts_print; reflexivity).
  assert (Hset : computer w1 = computer w) by reflexivity.
  clearbody w1.
  unfold bind at 1. pose proof (counts_take_screenshot w1) as Hshot.
  rewrite Hset in Hshot.
  destruct (take_screenshot w1) as [[shot | e] w2]; simpl in Hshot.
  2:{ unfold body_post. simpl. apply counts_fields in Hshot. apply counts_fields in H1.
      simpl in *. intuition congruence. }
  assert (H2 : counts w2 =
               (fst (fst (counts w)),
                (snd (fst (counts w)) + (if computer w then 1 else 0))%nat,
                snd (counts w))).
  { rewrite Hshot. apply counts_fields in H1. simpl in *.
    destruct H1 as (-> & -> & ->). reflexivity. }
  clear Hshot H1 Hset w1.
  assert (Hraise : forall e (w3 : world S), counts w3 = counts w2 -> body_post it tc (computer w) (counts w) (Raise e, w3)).
  { intros e w3 H3. rewrite H2 in H3. apply counts_fields in H3. unfold body_post.
    simpl in *. intuition. }
  assert (Hbreak : forall (w3 : world S), counts w3 = counts w2 -> body_post it tc (computer w) (counts w) (Ok (Break, tc), w3)).
  { intros w3 H3. rewrite H2 in H3. apply counts_fields in H3. unfold body_post.
    simpl in *. intuition. }
  assert (Hcont : forall (w3 : world S), counts w3 = counts w2 -> body_post it tc (computer w) (counts w) (Ok (Continue, tc), w3)).
  { intros w3 H3. rewrite H2 in H3. apply counts_fields in H3. unfold body_post.
    simpl in *. intuition. }
  destruct (negb (truthy shot)).
  - apply bind_print_counts; [reflexivity | intros w3 H3]. apply Hbreak. exact H3.
  - cbv zeta.
    apply bind_inner; [inner | intros _ w3 H3 | intros e w3 H3; apply Hraise; congruence].
    apply bind_inner; [inner | intros _ w4 H4 | intros e w4 H4; apply Hraise; congruence].
    apply bind_print_counts; [reflexivity | intros w5 H5].
    apply bind_inner; [inner | intros actions w6 H6 | intros e w6 H6; apply Hraise; congruence].
    assert (H6' : counts w6 = counts w2) by congruence.
    clear H3 H4 H5 H6 w3 w4 w5.
    destruct actions as [ | a rest].
    + rewrite bind_print. unfold ret.
      rewrite H2 in H6'. apply counts_fields in H6'. unfold body_post, empties. simpl.
      unfold empties in H6'. simpl in H6'. destruct H6' as (Ha & Hb & Hc).
      rewrite count_lines_app. repeat split; try assumption.
      left. split; [ | reflexivity]. rewrite Hc.
      change (count_lines (has_format no_actions_line) [Line no_actions_line []]) with 1%nat.
      lia.
    + apply bind_print_counts; [reflexivity | intros w7 H7].
      apply bind_inner; [inner | intros _ w8 H8 | intros e w8 H8; apply Hraise; congruence].
      apply bind_inner; [inner | intros _ w9 H9 | intros e w9 H9; apply Hraise; congruence].
      apply bind_inner; [inner | intros _ w10 H10 | intros e w10 H10; apply Hraise; congruence].
      apply Hcont. congruence.
Qed.

End LoopProperties.

Section LoopInduction.
Import AgentPreview.
Context {S : Type} {E : Env S}.

(** The [while] unrolled once. *)
Lemma perception_loop_unroll (tp : string) (mx it : Z) (tc : bool) (w : world S) :
  perception_loop tp mx it tc w =
  if Z_lt_dec it mx then
    if tc then (Ok (it, true), w)
    else match loop_body tp mx (it + 1) false w with
         | (Ok (Continue, tc'), w') => perception_loop tp mx (it + 1) tc' w'
         | (Ok (Break, tc'), w') => (Ok (it + 1, tc'), w')
         | (Raise e, w') => (Raise e, w')
         end
  else (Ok (it, tc), w).
Proof.
  rewrite perception_loop_unfold_eq. unfold perception_loop_unfold.
  destruct (Z_lt_dec it mx); [ | reflexivity].
  destruct tc; reflexivity.
Qed.

(** A pass through the body issues no [stop] and leaves [self.computer]
    as it is. *)
Lemma extends_loop_body (tp : string) (mx it : Z) (tc : bool) :
  extends (fun e => negb (is_stop e)) any_line (loop_body (S:=S) tp mx it tc).
Proof.
  unfold loop_body, take_screenshot.
  assert (Hp : forall e, is_stop e = false -> is_screenshot e = false ->
                         negb (is_stop e) = true) by (intros e -> _; reflexivity).
  assert (Hq : forall l, has_format no_actions_line l = false -> any_line l = true)
    by reflexivity.
  pose proof (extends_get_agent_actions (S:=S) _ _ Hp Hq).
  pose proof (extends_execute_actions (S:=S) _ _ Hp Hq).
  frame_with reflexivity.
Qed.

Lemma perception_loop_counts (tp : string) (mx : Z) (n : nat) :
  forall (it : Z) (tc : bool) (w : world S),
    Z.to_nat (mx - it) = n ->
    loop_post mx it tc (computer w) (counts w) (perception_loop tp mx it tc w).
Proof.
  induction n as [n IH] using lt_wf_ind. intros it tc w Hn.
  rewrite perception_loop_unroll.
  destruct (Z_lt_dec it mx) as [Hlt | Hge].
  - destruct tc.
    + unfold loop_post, counts. simpl. repeat split; try lia; left; auto.
    + pose proof (loop_body_counts tp mx (it + 1) false w) as Hb.
      destruct (extends_loop_body tp mx (it + 1) false w) as (_ & _ & _ & _ & _ & _ & Hset).
      destruct (loop_body tp mx (it + 1) false w) as [[[[ | ] tc'] | e] w'];
        unfold body_post in Hb; simpl in Hb, Hset; destruct Hb as (Hs & Hsh & Hrest).
      * destruct Hrest as [-> Hem].
        assert (Hm : (Z.to_nat (mx - (it + 1)) < n)%nat) by lia.
        pose proof (IH _ Hm (it + 1) false w' eq_refl) as Hrec.
        rewrite Hset in Hrec.
        unfold loop_post in *. unfold counts in Hrec at 1 2 3. simpl in Hrec.
        destruct Hrec as (Hs' & Hsh' & Hres). simpl.
        split; [congruence | ].
        split; [destruct (computer w); lia | ].
        destruct (fst (perception_loop tp mx (it + 1) false w')) as [[it' tcf] | e].
        -- destruct Hres as (Hit & Hcount & Hflag).
           split; [lia | ].
           split; [intros Hon; rewrite (Hcount Hon), Hsh, Hon; lia | ].
           destruct Hflag as [[-> Hem'] | (_ & Hem' & ->)]; [left | right]; split; auto;
             try congruence. split; [congruence | reflexivity].
        -- congruence.
      * unfold loop_post. simpl. split; [exact Hs | ].
        split; [destruct (computer w); lia | ].
        split; [lia | ].
        split; [intros Hon; rewrite Hsh, Hon; replace (it + 1 - it) with 1 by lia; simpl; lia | ].
        destruct Hrest as [[Hem ->] | [Hem ->]]; [right | left]; auto.
        repeat split; auto. destruct (3 <? it + 1); reflexivity.
      * unfold loop_post. simpl. split; [exact Hs | ].
        split; [destruct (computer w); lia | exact Hrest].
  - unfold loop_post, counts. simpl. repeat split; try lia; left; auto.
Qed.

End LoopInduction.

Section AutomateProperties.
Import AgentPreview.
Context {S : Type} {E : Env S}.

Lemma bounded_of_extends {A} (m : M S A) :
  extends inner_event any_line m -> bounded 0 m.
Proof.
  intros H w. destruct (H w) as (t & o & Ht & Hp & _ & _ & Hc).
  rewrite Ht, !count_events_app.
  rewrite (count_events_none is_stop inner_event t inner_not_stop Hp).
  rewrite (count_events_none is_screenshot inner_event t inner_not_screenshot Hp).
  repeat split; try lia. exact Hc.
Qed.

Lemma bounded_bind {A B} (a b : nat) (m : M S A) (k : A -> M S B) :
  bounded a m -> (forall x, bounded b (k x)) -> bounded (a + b) (bind m k).
Proof.
  intros Hm Hk w. unfold bind. destruct (Hm w) as (H1 & H2 & H3).
  destruct (m w) as [[x | e] w1]; simpl in *.
  - destruct (Hk x w1) as (K1 & K2 & K3). repeat split; try congruence. lia.
  - repeat split; try congruence. lia.
Qed.

Lemma bounded_try_except {A} (a b : nat) (body : M S A) (handler : string -> M S A) :
  bounded a body -> (forall e, bounded b (handler e)) ->
  bounded (a + b) (try_except body handler).
Proof.
  intros Hm Hk w. unfold try_except. destruct (Hm w) as (H1 & H2 & H3).
  destruct (body w) as [[x | [msg | ]] w1]; simpl in *.
  - repeat split; try congruence. lia.
  - destruct (Hk msg w1) as (K1 & K2 & K3). repeat split; try congruence. lia.
  - repeat split; try congruence. lia.
Qed.

Lemma bounded_le {A} (a b : nat) (m : M S A) : (a <= b)%nat -> bounded a m -> bounded b m.
Proof.
  intros Hab Hm w. destruct (Hm w) as (H1 & H2 & H3). repeat split; auto. lia.
Qed.

Lemma extends_perception_loop (tp : string) (mx : Z) (n : nat) :
  forall (it : Z) (tc : bool),
    Z.to_nat (mx - it) = n ->
    extends (fun e => negb (is_stop e)) any_line (perception_loop (S:=S) tp mx it tc).
Proof.
  induction n as [n IH] using lt_wf_ind. intros it tc Hn w.
  rewrite perception_loop_unroll.
  destruct (Z_lt_dec it mx) as [Hlt | Hge].
  2:{ exists [], []. simpl. rewrite !app_nil_r. auto 6. }
  destruct tc.
  { exists [], []. simpl. rewrite !app_nil_r. auto 6. }
  destruct (extends_loop_body tp mx (it + 1) false w) as (t1 & o1 & Ht1 & Hp1 & Ho1 & Hq1 & Hc1).
  destruct (loop_body tp mx (it + 1) false w) as [[[[ | ] tc'] | e] w']; simpl in *.
  - assert (Hm : (Z.to_nat (mx - (it + 1)) < n)%nat) by lia.
    destruct (IH _ Hm (it + 1) tc' eq_refl w') as (t2 & o2 & Ht2 & Hp2 & Ho2 & Hq2 & Hc2).
    exists (t1 ++ t2), (o1 ++ o2).
    rewrite Ht2, Ho2, Hc2, Ht1, Ho1, Hc1, !app_assoc, !forallb_app, Hp1, Hp2, Hq1, Hq2.
    auto 6.
  - exists t1, o1. auto 6.
  - exists t1, o1. auto 6.
Qed.

Lemma bounded_perception_loop (tp : string) (mx : Z) :
  bounded (Z.to_nat mx) (perception_loop (S:=S) tp mx 0 false).
Proof.
  intros w.
  pose proof (perception_loop_counts tp mx _ 0 false w eq_refl) as Hl.
  destruct (extends_perception_loop tp mx _ 0 false eq_refl w)
    as (_ & _ & _ & _ & _ & _ & Hc).
  unfold loop_post, counts in Hl. simpl in Hl. destruct Hl as (Hs & Hsh & _).
  rewrite Z.sub_0_r in Hsh. auto.
Qed.

(** [initialize_computer] issues neither [stop] nor [screenshot], and
    [self.computer] is set when it returns [True]. *)
Lemma initialize_computer_spec (w : world S) :
  let r := initialize_computer w in
  count_events is_stop (trace (snd r)) = count_events is_stop (trace w) /\
  count_events is_screenshot (trace (snd r)) = count_events is_screenshot (trace w) /\
  (fst r = Ok true -> computer (snd r) = true).
Proof.
  unfold initialize_computer, try_except, bind, print, sync, set_computer, await, ret.
  simpl.
  destruct (fst (sync_op NewComputer (env w))) as [msg | v]; simpl.
  - unfold count_events. rewrite !filter_app, !length_app. simpl.
    repeat split; try lia. discriminate.
  - destruct (fst (await_op Run _)) as [v' | [msg | ]]; simpl;
      unfold count_events; rewrite !filter_app, !length_app; simpl;
      repeat split; try lia; discriminate.
Qed.

Lemma bounded_automation_attempt (person_name message : string) (mx : Z) :
  bounded (Z.to_nat mx) (automation_attempt (S:=S) person_name message mx).
Proof.
  unfold automation_attempt.
  apply (bounded_le (Z.to_nat mx + 0)); [lia | ].
  apply bounded_try_except.
  - apply (bounded_le (0 + (0 + (0 + (Z.to_nat mx + 0))))); [lia | ].
    repeat (apply bounded_bind; [apply bounded_of_extends; frame_with reflexivity | intros ? ]).
    apply bounded_bind; [apply bounded_perception_loop | intros r ].
    apply bounded_of_extends. frame_with reflexivity.
  - intros e. apply bounded_of_extends. frame_with reflexivity.
Qed.

(** The [finally] block calls [stop] once when [self.computer] is set,
    whether or not [stop] raises. *)
Lemma cleanup_spec (w : world S) :
  computer w = true ->
  count_events is_stop (trace (snd (cleanup w))) = Datatypes.S (count_events is_stop (trace w)) /\
  count_events is_screenshot (trace (snd (cleanup w))) = count_events is_screenshot (trace w).
Proof.
  intros Hc. unfold cleanup, bind, get_computer, await, clear_history, set_history, ret.
  simpl. rewrite Hc.
  destruct (fst (await_op Stop (env w))) as [v | e]; simpl;
    unfold count_events; rewrite !filter_app, !length_app; simpl; lia.
Qed.

Lemma automate_unfold (person_name message : string) (mx : Z) (w : world S) :
  automate_teams_with_agent person_name message mx w =
  match initialize_computer w with
  | (Ok true, w1) => try_finally (automation_attempt person_name message mx) cleanup w1
  | (Ok false, w1) => (Ok false, w1)
  | (Raise e, w1) => (Raise e, w1)
  end.
Proof.
  unfold automate_teams_with_agent, bind.
  destruct (initialize_computer w) as [[[ | ] | e] w1]; reflexivity.
Qed.

(** The counts of a whole run of [automate_teams_with_agent]. *)
Lemma automate_counts (person_name message : string) (mx : Z) (w : world S) :
  let r := automate_teams_with_agent person_name message mx w in
  (count_events is_screenshot (trace (snd r))
   <= count_events is_screenshot (trace w) + Z.to_nat mx)%nat /\
  (fst (initialize_computer w) = Ok true ->
   count_events is_stop (trace (snd r)) = Datatypes.S (count_events is_stop (trace w))).
Proof.
  intros r. subst r. rewrite automate_unfold.
  pose proof (initialize_computer_spec w) as Hi. simpl in Hi.
  destruct (initialize_computer w) as [[[ | ] | e] w1]; simpl in Hi; simpl fst;
    destruct Hi as (Hs1 & Hsh1 & Hc1).
  2, 3: simpl; split; [lia | discriminate].
  specialize (Hc1 eq_refl). unfold try_finally.
  destruct (bounded_automation_attempt person_name message mx w1) as (Hs2 & Hsh2 & Hc2).
  destruct (automation_attempt person_name message mx w1) as [r2 w2]. simpl in Hs2, Hsh2, Hc2.
  destruct (cleanup_spec w2) as (Hs3 & Hsh3); [congruence | ].
  destruct (cleanup w2) as [[u | e] w3]; simpl in *; split; try lia; intros _; lia.
Qed.

Lemma initialize_computer_acquired (w : world S) :
  acquired w ->
  fst (initialize_computer w) = Ok true /\
  trace (snd (initialize_computer w)) = trace w ++ [Sync NewComputer; Await Run] /\
  computer (snd (initialize_computer w)) = true /\
  response_history (snd (initialize_computer w)) = response_history w /\
  env (snd (initialize_computer w)) = snd (await_op Run (snd (sync_op NewComputer (env w)))).
Proof.
  intros (c & r & Hnew & Hrun).
  unfold initialize_computer, try_except, bind, print, sync, set_computer, await, ret.
  simpl. rewrite Hnew. simpl. rewrite Hrun. simpl. rewrite <- app_assoc. auto.
Qed.

(** The [try] and [except] blocks issue no [stop] and leave
    [self.computer] as it is. *)
Lemma extends_automation_attempt (person_name message : string) (mx : Z) :
  extends (fun e => negb (is_stop e)) any_line
    (automation_attempt (S:=S) person_name message mx).
Proof.
  unfold automation_attempt.
  apply extends_try_except; [ | intros e; frame_with reflexivity].
  apply extends_bind; [frame_with reflexivity | intros _].
  apply extends_bind; [frame_with reflexivity | intros _].
  apply extends_bind; [frame_with reflexivity | intros _].
  apply extends_bind;
    [apply (extends_perception_loop _ mx _ 0 false eq_refl) | intros r; frame_with reflexivity].
Qed.

(** The run of [automate_teams_with_agent] after an acquisition: what the
    [try] issues, none of it a [stop], and then the [stop] of the
    [finally]. *)
Lemma automate_trace (person_name message : string) (mx : Z) (w : world S) :
  acquired w ->
  exists t : list event,
    trace (snd (automate_teams_with_agent person_name message mx w))
    = trace w ++ [Sync NewComputer; Await Run] ++ t ++ [Await Stop] /\
    forallb (fun e => negb (is_stop e)) t = true.
Proof.
  intros Hacq. rewrite automate_unfold.
  destruct (initialize_computer_acquired w Hacq) as (Hr & Ht & Hc & _).
  destruct (initialize_computer w) as [r1 w1]. simpl in Hr, Ht, Hc. subst r1.
  unfold try_finally.
  destruct (extends_automation_attempt person_name message mx w1)
    as (t & o & Ht2 & Hp2 & _ & _ & Hc2).
  destruct (automation_attempt person_name message mx w1) as [r2 w2]. simpl in Ht2, Hc2.
  exists t. split; [ | exact Hp2].
  unfold cleanup, bind, get_computer, await, clear_history, set_history, ret.
  cbn [computer env trace fst snd]. rewrite Hc2, Hc.
  destruct (fst (await_op Stop (env w2))) as [v | e]; simpl;
    rewrite Ht2, Ht, <- !app_assoc; reflexivity.
Qed.

End AutomateProperties.

(** ** cui.py *)

Section CuiProperties.
Import AgentPreview.
Context {S : Type} {E : Env S}.

Lemma not_inner_stop (e : event) :
  is_stop e = false -> is_screenshot e = false -> negb (is_stop e) = true.
Proof. intros -> _. reflexivity. Qed.

Lemma stops_of_extends {A} (q : line -> bool) (m : M S A) (w : world S) :
  extends (fun e => negb (is_stop e)) q m ->
  count_events is_stop (trace (snd (m w))) = count_events is_stop (trace w).
Proof.
  intros H. destruct (H w) as (t & o & Ht & Hp & _).
  rewrite Ht, count_events_app.
  rewrite (count_events_none is_stop (fun e => negb (is_stop e)) t); [lia | | exact Hp].
  intros e He. destruct (is_stop e); [discriminate | reflexivity].
Qed.

Lemma extends_automate_steps :
  extends (fun e => negb (is_stop e)) any_line (Cui.automate_steps (S:=S)).
Proof. unfold Cui.automate_steps. frame_with reflexivity. Qed.

(** [automate_teams] calls [stop] exactly once as soon as the SDK object
    exists, however the steps in between end. *)
Lemma cui_stop_once (w : world S) (c : value) :
  fst (sync_op NewComputer (env w)) = inr c ->
  count_events is_stop (trace (snd (Cui.automate_teams w))) =
  Datatypes.S (count_events is_stop (trace w)).
Proof.
  intros Hnew.
  unfold Cui.automate_teams, try_except. unfold bind at 1 2. unfold print at 1, sync at 1.
  simpl. rewrite Hnew. unfold try_finally.
  match goal with |- context [Cui.automate_steps ?w1] =>
    pose proof (stops_of_extends any_line Cui.automate_steps w1 extends_automate_steps) as Hs;
    destruct (Cui.automate_steps w1) as [r2 w2] end.
  simpl in Hs. unfold count_events in Hs. rewrite filter_app, length_app in Hs. simpl in Hs.
  unfold bind, await, ret. simpl.
  destruct (fst (await_op Stop (env w2))) as [v | [msg | ]]; destruct r2 as [u | [msg' | ]];
    simpl; unfold count_events; rewrite ?filter_app, ?length_app; simpl; lia.
Qed.

(** The run of [automate_teams] once the SDK object exists: the steps,
    none of them a [stop], and then the [stop] of the [finally]. *)
Lemma cui_trace (w : world S) (c : value) :
  fst (sync_op NewComputer (env w)) = inr c ->
  exists t : list event,
    trace (snd (Cui.automate_teams w)) = trace w ++ [Sync NewComputer] ++ t ++ [Await Stop] /\
    forallb (fun e => negb (is_stop e)) t = true.
Proof.
  intros Hnew.
  unfold Cui.automate_teams, try_except. unfold bind at 1 2. unfold print at 1, sync at 1.
  simpl. rewrite Hnew. unfold try_finally.
  match goal with |- context [Cui.automate_steps ?w1] =>
    destruct (extends_automate_steps w1) as (t & o & Ht & Hp & _);
    destruct (Cui.automate_steps w1) as [r2 w2] end.
  simpl in Ht. exists t. split; [ | exact Hp].
  unfold bind, await, ret. simpl.
  destruct (fst (await_op Stop (env w2))) as [v | [msg | ]]; destruct r2 as [u | [msg' | ]];
    simpl; rewrite Ht, <- !app_assoc; reflexivity.
Qed.

End CuiProperties.

(** ** The claims on agent_preview.py and cui.py *)

Section LoopClaims.
Import AgentPreview.
Context {S : Type} {E : Env S}.

(** C2: the perception loop runs its body at most [max_iterations] times
    and then returns, whatever the decision service answers, a non-empty
    action list on every call included: the loop is a total function, a
    run that leaves it with counter [it] has made [it] passes with [it] no
    more than [max_iterations], each pass with the session set takes one
    screenshot, and a whole run of [automate_teams_with_agent] takes no
    more than [max_iterations] screenshots. *)
Theorem perception_loop_within_max_iterations
    (person_name message prompt : string) (max_iterations : Z) (w : world S) :
  (count_events is_screenshot (trace (snd (perception_loop prompt max_iterations 0 false w)))
   <= count_events is_screenshot (trace w) + Z.to_nat max_iterations)%nat
  /\ (forall it tc,
        fst (perception_loop prompt max_iterations 0 false w) = Ok (it, tc) ->
        0 <= it <= Z.max 0 max_iterations /\
        (computer w = true ->
         count_events is_screenshot
           (trace (snd (perception_loop prompt max_iterations 0 false w)))
         = (count_events is_screenshot (trace w) + Z.to_nat it)%nat))
  /\ (count_events is_screenshot
        (trace (snd (automate_teams_with_agent person_name message max_iterations w)))
      <= count_events is_screenshot (trace w) + Z.to_nat max_iterations)%nat.
Proof.
  pose proof (perception_loop_counts prompt max_iterations _ 0 false w eq_refl) as Hl.
  unfold loop_post, counts in Hl. simpl in Hl. destruct Hl as (_ & Hsh & Hres).
  rewrite Z.sub_0_r in Hsh.
  split; [exact Hsh | ]. split.
  - intros it tc Heq. rewrite Heq in Hres. destruct Hres as (Hit & Hcount & _).
    rewrite Z.sub_0_r in Hcount. auto.
  - apply (automate_counts person_name message max_iterations w).
Qed.

(** C3, where the code departs from the claim.  The loop is left at the
    first empty action list that [get_agent_actions] hands it (an answer
    without a computer call, or a call that failed), so no run meets two of
    them, let alone several on passes in a row; and the task is marked
    complete exactly when that one empty list is met on a pass numbered
    above 3, as line 218 tests the pass number and counts nothing.  On
    passes 1 to 3 the empty list ends the run with the task not
    complete. *)
Theorem completion_needs_one_late_empty_result
    (prompt : string) (max_iterations it : Z) (tc : bool) (w w' : world S) :
  perception_loop prompt max_iterations 0 false w = (Ok (it, tc), w') ->
  (empties (out w') <= Datatypes.S (empties (out w)))%nat /\
  (tc = true <-> empties (out w') = Datatypes.S (empties (out w)) /\ 3 < it).
Proof.
  intros Heq.
  pose proof (perception_loop_counts prompt max_iterations _ 0 false w eq_refl) as Hl.
  rewrite Heq in Hl. unfold loop_post, counts in Hl. simpl in Hl.
  destruct Hl as (_ & _ & _ & _ & [[-> Hem] | (_ & Hem & ->)]).
  - split; [lia | ]. split; [discriminate | ]. intros [H _]. lia.
  - split; [lia | ]. rewrite Z.ltb_lt. tauto.
Qed.

(** C7: in every run that acquired a session, [stop] is called exactly
    once and on the way out, by [automate_teams_with_agent] and by
    [automate_teams] alike: the trace of the run is the acquisition, the
    operations of the steps after it, none of them a [stop], and the
    [stop] of the [finally] block as the last operation.  This holds
    whatever the steps after the acquisition do, raising an exception that
    no handler catches included, and whether or not [stop] itself
    raises. *)
Theorem session_stopped_exactly_once
    (person_name message : string) (max_iterations : Z) (w : world S) :
  acquired w ->
  (exists t : list event,
     trace (snd (automate_teams_with_agent person_name message max_iterations w))
     = trace w ++ [Sync NewComputer; Await Run] ++ t ++ [Await Stop] /\
     forallb (fun e => negb (is_stop e)) t = true)
  /\ (exists t : list event,
        trace (snd (Cui.automate_teams w))
        = trace w ++ [Sync NewComputer] ++ t ++ [Await Stop] /\
        forallb (fun e => negb (is_stop e)) t = true)
  /\ count_events is_stop
       (trace (snd (automate_teams_with_agent person_name message max_iterations w)))
     = Datatypes.S (count_events is_stop (trace w))
  /\ count_events is_stop (trace (snd (Cui.automate_teams w)))
     = Datatypes.S (count_events is_stop (trace w)).
Proof.
  intros Hacq. pose proof Hacq as (c & r & Hnew & Hrun).
  split; [apply (automate_trace person_name message max_iterations w Hacq) | ].
  split; [apply (cui_trace w c Hnew) | ].
  split.
  - apply (automate_counts person_name message max_iterations w).
    unfold initialize_computer, try_except, bind, print, sync, set_computer, await, ret.
    simpl. rewrite Hnew. simpl. rewrite Hrun. reflexivity.
  - apply (cui_stop_once w c Hnew).
Qed.

End LoopClaims.

Section AgentPreviewExamples.
Import AgentPreview Samples.

Lemma unknown_action_only_logged_witness :
  ~ In (VStr "drag") known_kinds /\
  execute_agent_action (E := scripted 3)
    {| a_type := VStr "drag"; a_details := VObj []; a_call_id := VStr "call" |} fresh
  = (Ok tt, {| env := O; trace := []; out := [Line "Unknown action type: {}" [VStr "drag"]];
               response_history := []; computer := false |}).
Proof.
  assert (H : ~ In (VStr "drag") known_kinds).
  { simpl. intros [H | [H | [H | [H | [H | []]]]]]; discriminate. }
  split; [exact H | ].
  exact (unknown_action_only_logged (E := scripted 3)
           {| a_type := VStr "drag"; a_details := VObj []; a_call_id := VStr "call" |}
           fresh H).
Defined.

Lemma service_error_gives_no_actions_witness :
  get_agent_actions (E := service_down) screen "send hello" fresh
  = (Ok [], {| env := 1%nat;
               trace := [Sync (ResponsesCreate VNone "send hello"
                                 [Byte.x89; Byte.x50; Byte.x4e; Byte.x47])];
               out := [Line "Error getting agent actions: {}" [VStr "APIConnectionError"];
                       Line "traceback.print_exc()" []];
               response_history := []; computer := false |}).
Proof.
  exact (service_error_gives_no_actions (E := service_down)
           [Byte.x89; Byte.x50; Byte.x4e; Byte.x47] "send hello" fresh VNone
           "APIConnectionError" eq_refl eq_refl).
Defined.

(** With a service that returns an action on every call, fifteen passes are
    made and the run ends not complete. *)
Example always_acting_runs_to_the_bound :
  fst (perception_loop (E := always_acting) "send hello" 15 0 false in_session)
  = Ok (15, false) /\
  count_events is_screenshot
    (trace (snd (perception_loop (E := always_acting) "send hello" 15 0 false in_session)))
  = 15%nat.
Proof. vm_compute. split; reflexivity. Qed.

(** Without a session no screenshot can be taken, and the first pass ends
    the loop. *)
Example no_session_ends_the_loop :
  fst (perception_loop (E := always_acting) "send hello" 15 0 false fresh) = Ok (1, false) /\
  trace (snd (perception_loop (E := always_acting) "send hello" 15 0 false fresh)) = [].
Proof. vm_compute. split; reflexivity. Qed.

Lemma perception_loop_within_max_iterations_witness :
  count_events is_screenshot
    (trace (snd (perception_loop (E := always_acting) "send hello" 15 0 false in_session)))
  = 15%nat.
Proof.
  exact (proj2 (proj1 (proj2 (perception_loop_within_max_iterations (E := always_acting)
                                "John Doe" "hello" "send hello" 15 in_session))
                  15 false ltac:(vm_compute; reflexivity))
           eq_refl).
Defined.

(** With [self.computer] unset a click issues nothing: the failed lookup
    is caught and printed. *)
Example click_without_session :
  execute_agent_action (E := scripted 3)
    {| a_type := VStr "click"; a_details := VObj [("x", VInt 100); ("y", VInt 200)];
       a_call_id := VStr "call" |} fresh
  = (Ok tt,
     {| env := O; trace := [];
        out := [Line "Agent action: Click at ({}, {}) with {} button"
                     [VInt 100; VInt 200; VStr "left"];
                Line "Error executing agent action {}: {}"
                     [VStr "click";
                      VStr "AttributeError: 'NoneType' object has no attribute 'interface'"]];
        response_history := []; computer := false |}).
Proof. reflexivity. Qed.

Lemma click_is_always_left_click_witness :
  computer in_session = true /\
  trace (snd (execute_agent_action (E := scripted 3)
                {| a_type := VStr "click";
                   a_details := VObj [("button", VStr "right"); ("x", VInt 100);
                                      ("y", VInt 200)];
                   a_call_id := VStr "call" |} in_session))
  = [Await (LeftClick (VInt 100) (VInt 200))].
Proof.
  split; [reflexivity | ].
  exact (proj2 (click_is_always_left_click (E := scripted 3) VNone (VStr "call")
                  in_session eq_refl)
           [("x", VInt 100); ("y", VInt 200)] (VStr "right")).
Defined.

(** The run on which the code misses the claim: three passes with
    actions and then one empty action list on pass 4, and the run returns
    [True], the task counted as complete, although the service returned an
    empty list once, not on several passes in a row. *)
Lemma complete_after_a_single_empty_result :
  fst (automate_teams_with_agent (E := scripted 3) "John Doe" "hello" 15 fresh) = Ok true /\
  empties (out (snd (automate_teams_with_agent (E := scripted 3) "John Doe" "hello" 15 fresh)))
  = 1%nat /\
  count_events is_service_call
    (trace (snd (automate_teams_with_agent (E := scripted 3) "John Doe" "hello" 15 fresh)))
  = 4%nat.
Proof. vm_compute. repeat split; reflexivity. Qed.

(** A request that fails on pass 4 does as much: its empty list marks the
    task complete, the service having returned no empty list at all. *)
Example complete_after_a_failed_request :
  fst (automate_teams_with_agent (E := MoreSamples.fails_after 3) "John Doe" "hello" 15 fresh)
  = Ok true /\
  count_events is_service_call
    (trace (snd (automate_teams_with_agent (E := MoreSamples.fails_after 3)
                   "John Doe" "hello" 15 fresh)))
  = 4%nat.
Proof. vm_compute. split; reflexivity. Qed.

Lemma completion_needs_one_late_empty_result_witness :
  (empties (out (snd (perception_loop (E := scripted 3) "send hello" 15 0 false in_session)))
   <= 1)%nat /\
  (true = true <->
   empties (out (snd (perception_loop (E := scripted 3) "send hello" 15 0 false in_session)))
   = 1%nat /\ 3 < 4).
Proof.
  exact (completion_needs_one_late_empty_result (E := scripted 3) "send hello" 15 4 true
           in_session
           (snd (perception_loop (E := scripted 3) "send hello" 15 0 false in_session))
           ltac:(vm_compute; reflexivity)).
Defined.

Lemma session_stopped_exactly_once_witness :
  acquired (E := cancelled_at_screenshot) fresh /\
  fst (automate_teams_with_agent (E := cancelled_at_screenshot) "John Doe" "hello" 15 fresh)
  = Raise CancelledError /\
  fst (Cui.automate_teams (E := cancelled_at_screenshot) fresh) = Raise CancelledError /\
  (exists t : list event,
     trace (snd (automate_teams_with_agent (E := cancelled_at_screenshot)
                   "John Doe" "hello" 15 fresh))
     = trace fresh ++ [Sync NewComputer; Await Run] ++ t ++ [Await Stop] /\
     forallb (fun e => negb (is_stop e)) t = true) /\
  (exists t : list event,
     trace (snd (Cui.automate_teams (E := cancelled_at_screenshot) fresh))
     = trace fresh ++ [Sync NewComputer] ++ t ++ [Await Stop] /\
     forallb (fun e => negb (is_stop e)) t = true) /\
  count_events is_stop
    (trace (snd (automate_teams_with_agent (E := cancelled_at_screenshot)
                   "John Doe" "hello" 15 fresh))) = 1%nat /\
  count_events is_stop
    (trace (snd (Cui.automate_teams (E := cancelled_at_screenshot) fresh))) = 1%nat.
Proof.
  assert (H : acquired (E := cancelled_at_screenshot) fresh).
  { exists VNone, VNone. split; reflexivity. }
  split; [exact H | ].
  split; [vm_compute; reflexivity | ]. split; [vm_compute; reflexivity | ].
  exact (session_stopped_exactly_once (E := cancelled_at_screenshot)
           "John Doe" "hello" 15 fresh H).
Defined.

(** The run in which the first screenshot is cancelled: the exception
    leaves [automate_teams_with_agent], and the [stop] of the [finally]
    comes after the screenshot. *)
Example stop_follows_the_cancelled_screenshot :
  trace (snd (automate_teams_with_agent (E := cancelled_at_screenshot)
                "John Doe" "hello" 15 fresh))
  = [Sync NewComputer; Await Run; Await Screenshot; Await Stop] /\
  trace (snd (Cui.automate_teams (E := cancelled_at_screenshot) fresh))
  = [Sync NewComputer; Await Run; Await Screenshot; Await Stop].
Proof. vm_compute. split; reflexivity. Qed.

End AgentPreviewExamples.

(** ** teams_cua.py *)

Section DaemonProperties.
Import TeamsCua.
Variable b64decode : string -> option (list Byte.byte).

Lemma nth_error_update_same {A} (i : nat) (f : A -> A) (l : list A) :
  nth_error (update i f l) i = option_map f (nth_error l i).
Proof.
  revert i. induction l as [ | x l IH]; intros [ | i]; simpl; auto.
Qed.

Lemma nth_error_update_other {A} (i j : nat) (f : A -> A) (l : list A) :
  i <> j -> nth_error (update i f l) j = nth_error l j.
Proof.
  revert i j. induction l as [ | x l IH]; intros [ | i] [ | j] H; simpl; auto.
  - congruence.
Qed.

Lemma forallb_update {A} (g : A -> bool) (i : nat) (f : A -> A) (l : list A) :
  forallb g l = true -> (forall x, g (f x) = true) -> forallb g (update i f l) = true.
Proof.
  revert i. induction l as [ | x l IH]; intros [ | i] Hl Hf; simpl in *; auto;
    apply andb_prop in Hl; destruct Hl as [Hx Hl]; apply andb_true_intro; auto.
Qed.

(** Moving coroutine [i] to a state outside a task does not add to the
    tasks being run, and takes one away when [i] was inside one. *)
Lemma in_task_update (i : nat) (c : coroutine) (p : pc) (l : list coroutine) :
  nth_error l i = Some c ->
  in_task {| at_pc := p; must_cancel := must_cancel c |} = false ->
  List.length (filter in_task (update i (fun c => {| at_pc := p; must_cancel := must_cancel c |}) l))
  = (List.length (filter in_task l) - (if in_task c then 1 else 0))%nat.
Proof.
  revert i. induction l as [ | x l IH]; intros [ | i] Hi Hp; simpl in *; try discriminate.
  - injection Hi as ->. unfold in_task at 1. simpl. unfold in_task in Hp. simpl in Hp.
    rewrite Hp. destruct (in_task c); simpl; lia.
  - destruct (in_task x); simpl; rewrite (IH i Hi Hp); [ | reflexivity].
    destruct (in_task c) eqn:Hc; [ | lia].
    assert (List.length (filter in_task l) > 0)%nat; [ | lia].
    clear IH. revert i Hi. induction l as [ | y l IH]; intros [ | i] Hi; simpl in *; try discriminate.
    + injection Hi as ->. rewrite Hc. simpl. lia.
    + specialize (IH i Hi). destruct (in_task y); simpl; lia.
Qed.

Lemma in_task_positive (i : nat) (c : coroutine) (l : list coroutine) :
  nth_error l i = Some c -> in_task c = true -> (0 < List.length (filter in_task l))%nat.
Proof.
  revert i. induction l as [ | y l IH]; intros [ | i] Hi Hc; simpl in *; try discriminate.
  - injection Hi as ->. rewrite Hc. simpl. lia.
  - specialize (IH i Hi Hc). destruct (in_task y); simpl; lia.
Qed.

End DaemonProperties.

Section DaemonInvariant.
Import TeamsCua.
Variable b64decode : string -> option (list Byte.byte).

Lemma forallb_nth_error {A} (g : A -> bool) (l : list A) (i : nat) (x : A) :
  forallb g l = true -> nth_error l i = Some x -> g x = true.
Proof.
  intros Hl Hi. rewrite forallb_forall in Hl. apply Hl. eapply nth_error_In. exact Hi.
Qed.

(** Moving coroutine [i] to a state past the [get], with the count of
    unfinished tasks lowered by no more than the task it leaves. *)
Lemma join_blocked_move (d : daemon) (i : nat) (c : coroutine) (p : pc)
    (l : list line) (n : nat) :
  join_blocked d ->
  nth_error (tasks d) i = Some c ->
  past_get {| at_pc := p; must_cancel := must_cancel c |} = true ->
  in_task {| at_pc := p; must_cancel := must_cancel c |} = false ->
  (unfinished d - (if in_task c then 1 else 0) <= n)%nat ->
  join_blocked (set_pc i p (logd l (with_queue (items d) n d))).
Proof.
  intros (Hrun & Hstop & Hpast & Hitems & Hcount) Hi Hp Ht Hn.
  unfold join_blocked, set_pc, with_tasks, logd, with_queue. simpl.
  repeat split; try assumption.
  - apply forallb_update; [assumption | ]. intros x. unfold past_get in *. simpl in *. exact Hp.
  - rewrite (in_task_update i c p (tasks d) Hi Ht).
    destruct (in_task c) eqn:Hc; [ | lia].
    pose proof (in_task_positive i c (tasks d) Hi Hc). lia.
Qed.

Lemma join_blocked_ext (d d' : daemon) :
  items d' = items d -> unfinished d' = unfinished d -> running d' = running d ->
  tasks d' = tasks d -> stopping d' = stopping d ->
  join_blocked d -> join_blocked d'.
Proof.
  unfold join_blocked. intros -> -> -> -> ->. auto.
Qed.

(** Once [stop] waits in [join] with no worker left to call [get], every
    step keeps it there. *)
Lemma join_blocked_step (d d' : daemon) :
  join_blocked d -> step b64decode d d' -> join_blocked d'.
Proof.
  intros Hb Hstep. pose proof Hb as (Hrun & Hstop & Hpast & Hitems & Hcount).
  destruct Hstep as [i k d d' Hres | person message d | d Hns | err d Hj Hzero].
  - unfold resume in Hres.
    destruct (nth_error (agents d) i) as [w | ]; [ | discriminate].
    destruct (nth_error (tasks d) i) as [c | ] eqn:Hi; [ | discriminate].
    pose proof (forallb_nth_error past_get (tasks d) i c Hpast Hi) as Hc.
    unfold past_get in Hc.
    assert (Hpos : in_task c = true -> (2 <= unfinished d)%nat).
    { intros Ht. pose proof (in_task_positive i c (tasks d) Hi Ht).
      destruct (items d); [congruence | simpl in Hcount; lia]. }
    assert (Hmove : forall p n,
              past_get {| at_pc := p; must_cancel := must_cancel c |} = true ->
              in_task {| at_pc := p; must_cancel := must_cancel c |} = false ->
              (unfinished d - (if in_task c then 1 else 0) <= n)%nat ->
              forall d2, items d2 = items d -> unfinished d2 = n -> running d2 = running d ->
                         tasks d2 = update i (fun c => {| at_pc := p; must_cancel := must_cancel c |}) (tasks d) ->
                         stopping d2 = stopping d -> join_blocked d2).
    { intros p n Hp Ht Hn d2 E1 E2 E3 E4 E5.
      apply (join_blocked_ext (set_pc i p (logd [] (with_queue (items d) n d)))); auto.
      apply (join_blocked_move d i c p [] n); auto. }
    destruct (at_pc c) eqn:Hpc; try discriminate; destruct k; try discriminate.
    + (* the task ends *)
      injection Hres as <-.
      assert (Ht : in_task c = true) by (unfold in_task; rewrite Hpc; reflexivity).
      specialize (Hpos Ht).
      unfold finish_run, handle, on_cancelled, on_exception, task_done.
      destruct (fst (run_task b64decode w task_text b)) as [ok | [msg | ]]; simpl.
      * destruct (unfinished d) as [ | n] eqn:Hu; [lia | ].
        apply (Hmove AwaitSleep n); try reflexivity. rewrite Ht. lia.
      * apply (Hmove AwaitBackoff (unfinished d)); try reflexivity. lia.
      * apply (Hmove (Finished (Ok tt)) (unfinished d)); try reflexivity. lia.
    + (* the sleep after a task ends *)
      destruct (must_cancel c); [discriminate | ]. injection Hres as <-.
      unfold loop_head. rewrite Hrun.
      apply (Hmove (Finished (Ok tt)) (unfinished d)); try reflexivity. lia.
    + injection Hres as <-. unfold on_cancelled.
      apply (Hmove (Finished (Ok tt)) (unfinished d)); try reflexivity. lia.
    + (* the back-off ends *)
      destruct (must_cancel c); [discriminate | ]. injection Hres as <-.
      unfold loop_head. rewrite Hrun.
      apply (Hmove (Finished (Ok tt)) (unfinished d)); try reflexivity. lia.
    + injection Hres as <-.
      apply (Hmove (Finished (Raise CancelledError)) (unfinished d)); try reflexivity. lia.
  - (* a producer enqueues *)
    unfold join_blocked, enqueue_teams_message, logd, put, with_queue. simpl.
    repeat split; try assumption.
    + destruct (items d); discriminate.
    + rewrite length_app. simpl. lia.
  - congruence.
  - destruct (items d); [congruence | simpl in Hcount; lia].
Qed.

Lemma join_blocked_steps (d d' : daemon) :
  join_blocked d -> steps b64decode d d' -> join_blocked d'.
Proof.
  intros Hb Hs. induction Hs as [d | d1 d2 d3 Hs IH Hstep]; [exact Hb | ].
  apply (join_blocked_step d2 d3); auto.
Qed.

End DaemonInvariant.

Section DaemonClaims.
Import TeamsCua.
Variable b64decode : string -> option (list Byte.byte).

(** [stop] puts exactly one sentinel per agent behind what the queue
    holds. *)
Lemma stop_puts_one_sentinel_per_agent (d : daemon) :
  items (stop_begin d) = items d ++ repeat None (List.length (agents d)) /\
  unfinished (stop_begin d) = (unfinished d + List.length (agents d))%nat /\
  running (stop_begin d) = false /\
  tasks (stop_begin d) = tasks d /\
  stopping (stop_begin d) = InJoin.
Proof.
  unfold stop_begin. simpl.
  set (d2 := {| items := items d; unfinished := unfinished d; agents := agents d;
                running := false; tasks := tasks d; log := log d ++ _;
                stopping := InJoin; computer_open := computer_open d |}).
  change (items d) with (items d2). change (unfinished d) with (unfinished d2).
  change (tasks d) with (tasks d2).
  assert (H : forall (l : list AgentWorker) (d0 : daemon),
             items (fold_left (fun acc _ => put None acc) l d0)
             = items d0 ++ repeat None (List.length l) /\
             unfinished (fold_left (fun acc _ => put None acc) l d0)
             = (unfinished d0 + List.length l)%nat /\
             running (fold_left (fun acc _ => put None acc) l d0) = running d0 /\
             tasks (fold_left (fun acc _ => put None acc) l d0) = tasks d0 /\
             stopping (fold_left (fun acc _ => put None acc) l d0) = stopping d0).
  { induction l as [ | a l IH]; intros d0; simpl.
    - rewrite app_nil_r. repeat split; lia.
    - destruct (IH (put None d0)) as (H1 & H2 & H3 & H4 & H5).
      rewrite H1, H2, H3, H4, H5. simpl.
      rewrite <- app_assoc. simpl. repeat split; lia. }
  apply (H (agents d) d2).
Qed.

(** Whenever [stop] is called while no worker waits in [queue.get()] (each
    is inside a task, asleep or gone), its [join] is blocked for good. *)
Lemma stop_blocks_when_no_worker_waits (d : daemon) :
  agents d <> [] ->
  forallb past_get (tasks d) = true ->
  (List.length (items d) + List.length (filter in_task (tasks d)) <= unfinished d)%nat ->
  forall d', steps b64decode (stop_begin d) d' -> stopping d' = InJoin /\ unfinished d' <> 0%nat.
Proof.
  intros Hagents Hpast Hcount d' Hsteps.
  destruct (stop_puts_one_sentinel_per_agent d) as (Hi & Hu & Hr & Ht & Hs).
  assert (Hb : join_blocked (stop_begin d)).
  { unfold join_blocked. rewrite Hi, Hu, Hr, Ht, Hs, length_app, repeat_length.
    repeat split; auto.
    - destruct (agents d); [congruence | ]. simpl. destruct (items d); discriminate.
    - lia. }
  destruct (join_blocked_steps b64decode _ _ Hb Hsteps) as (_ & Hstop & _ & Hitems & Hc).
  split; [exact Hstop | ]. destruct (items d'); [congruence | simpl in Hc; lia].
Qed.

(** A worker that dequeues the sentinel marks it done and leaves its loop:
    no wake-up resumes it, so it processes no further task. *)
Lemma sentinel_ends_the_loop (d : daemon) (i n : nat) (w : AgentWorker) (c : coroutine)
    (rest : list (option string)) :
  nth_error (agents d) i = Some w ->
  nth_error (tasks d) i = Some c ->
  at_pc c = AwaitGet -> must_cancel c = false ->
  items d = None :: rest -> unfinished d = Datatypes.S n ->
  exists d',
    resume b64decode i Item d = Some d' /\
    pc_of i d' = Some (Finished (Ok tt)) /\
    items d' = rest /\ unfinished d' = n /\
    forall k, resume b64decode i k d' = None.
Proof.
  intros Hw Hc Hpc Hcancel Hitems Hun.
  unfold resume. rewrite Hw, Hc, Hpc, Hcancel, Hitems.
  unfold after_get, task_done. simpl. rewrite Hun.
  eexists. split; [reflexivity | ].
  unfold pc_of. simpl. rewrite nth_error_update_same, Hc. simpl.
  repeat split.
  intros k. unfold resume. simpl. rewrite Hw, ?nth_error_update_same, ?Hc. simpl.
  destruct k; reflexivity.
Qed.

Lemma past_get_repeat (n : nat) (p : pc) (b : bool) :
  past_get {| at_pc := p; must_cancel := b |} = true ->
  forallb past_get (repeat {| at_pc := p; must_cancel := b |} n) = true.
Proof. intros H. induction n as [ | n IH]; simpl; [reflexivity | ]. rewrite H, IH. reflexivity. Qed.

(** C1, on the run of [main] in which the signal arrives while the worker
    is inside the demo task.  [stop] has put its one sentinel, and the task
    and the sentinel are unfinished.  From there [join] never returns: in
    every later state [stop] is still waiting and the unfinished count is
    not zero.  In particular the state is reached where the task has been
    marked done and the worker has left its loop through the cleared
    [_running] flag, the sentinel still in the queue and counted. *)
Theorem stop_never_returns_for_a_busy_worker :
  steps b64decode (start 1) (main_stopping b64decode)
  /\ items (main_stopping b64decode) = [None]
  /\ unfinished (main_stopping b64decode) = 2%nat
  /\ (forall d, steps b64decode (main_stopping b64decode) d ->
                stopping d = InJoin /\ unfinished d <> 0%nat)
  /\ steps b64decode (main_stopping b64decode) (main_stuck b64decode)
  /\ pc_of 0 (main_stuck b64decode) = Some (Finished (Ok tt))
  /\ items (main_stuck b64decode) = [None]
  /\ unfinished (main_stuck b64decode) = 1%nat.
Proof.
  assert (Hblocked : join_blocked (main_stopping b64decode)).
  { unfold join_blocked. vm_compute.
    repeat split; try reflexivity; try discriminate; try apply le_n. }
  assert (Hall : forall d, steps b64decode (main_stopping b64decode) d ->
                           stopping d = InJoin /\ unfinished d <> 0%nat).
  { intros d Hs. destruct (join_blocked_steps b64decode _ _ Hblocked Hs)
      as (_ & Hstop & _ & Hitems & Hcount).
    split; [exact Hstop | ]. destruct (items d); [congruence | simpl in Hcount; lia]. }
  split.
  { apply (@steps_step b64decode _ (main_waiting b64decode) _).
    - apply (@steps_step b64decode _
               (enqueue_teams_message "John Doe" demo_message (start 1)) _).
      + apply (@steps_step b64decode _ (start 1) _); [apply steps_refl | ].
        apply (step_enqueue b64decode "John Doe" demo_message).
      + apply (step_worker b64decode 0 Start). vm_compute. reflexivity.
    - apply step_stop. vm_compute. reflexivity. }
  split; [vm_compute; reflexivity | ]. split; [vm_compute; reflexivity | ].
  split; [exact Hall | ].
  split.
  { destruct (resume b64decode 0 (RunEnds no_run) (main_stopping b64decode)) as [d1 | ] eqn:H1;
      [ | vm_compute in H1; discriminate].
    apply (@steps_step b64decode _ d1 _).
    - apply (@steps_step b64decode _ (main_stopping b64decode) _); [apply steps_refl | ].
      apply (step_worker b64decode 0 (RunEnds no_run)). exact H1.
    - apply (step_worker b64decode 0 Timer).
      vm_compute in H1. injection H1 as <-. vm_compute. reflexivity. }
  split; [vm_compute; reflexivity | ]. split; vm_compute; reflexivity.
Qed.

(** With the worker idle in [queue.get()] the same shutdown goes through:
    the worker takes the sentinel and [join] returns. *)
Example stop_returns_for_an_idle_worker :
  exists d, steps b64decode (start 1) d /\ stopping d = Stopped /\
            pc_of 0 d = Some (Finished (Ok tt)) /\ items d = [] /\ unfinished d = 0%nat.
Proof.
  destruct (resume b64decode 0 Start (start 1)) as [d1 | ] eqn:H1;
    [ | vm_compute in H1; discriminate].
  destruct (resume b64decode 0 Item (stop_begin d1)) as [d2 | ] eqn:H2;
    [ | vm_compute in H1; injection H1 as <-; vm_compute in H2; discriminate].
  exists (stop_finish None d2).
  assert (Hd2 : stopping d2 = InJoin /\ unfinished d2 = 0%nat /\
                pc_of 0 d2 = Some (Finished (Ok tt)) /\ items d2 = []).
  { vm_compute in H1. injection H1 as <-. vm_compute in H2. injection H2 as <-.
    vm_compute. repeat split. }
  destruct Hd2 as (Hj & Hu & Hp & Hi).
  split.
  - apply (@steps_step b64decode _ d2 _).
    + apply (@steps_step b64decode _ (stop_begin d1) _).
      * apply (@steps_step b64decode _ d1 _).
        -- apply (@steps_step b64decode _ (start 1) _); [apply steps_refl | ].
           apply (step_worker b64decode 0 Start). exact H1.
        -- apply step_stop. vm_compute in H1. injection H1 as <-. reflexivity.
      * apply (step_worker b64decode 0 Item). exact H2.
    + apply (step_join b64decode None); assumption.
  - clear Hj Hu Hp Hi. vm_compute in H1. injection H1 as <-.
    vm_compute in H2. injection H2 as <-. vm_compute. repeat split.
Qed.



End DaemonClaims.

(** *** An invariant of the daemon *)

Section DaemonSoundness.
Import TeamsCua DaemonObservers.
Variable b64decode : string -> option (list Byte.byte).

Lemma length_update {A} (i : nat) (f : A -> A) (l : list A) :
  List.length (update i f l) = List.length l.
Proof. revert i. induction l as [ | x l IH]; intros [ | i]; simpl; auto. Qed.

Lemma count_map_same {A} (g : A -> bool) (f : A -> A) (l : list A) :
  (forall x, g (f x) = g x) ->
  List.length (filter g (map f l)) = List.length (filter g l).
Proof.
  intros Hf. induction l as [ | x l IH]; simpl; [reflexivity | ].
  rewrite Hf. destruct (g x); simpl; rewrite IH; reflexivity.
Qed.

Lemma forallb_map_same {A} (g : A -> bool) (f : A -> A) (l : list A) :
  (forall x, g (f x) = g x) -> forallb g (map f l) = forallb g l.
Proof.
  intros Hf. induction l as [ | x l IH]; simpl; [reflexivity | ].
  rewrite Hf, IH. reflexivity.
Qed.

(** Moving coroutine [i] from [c] to [p] changes the number of tasks being
    run by what [c] and [p] count for. *)
Lemma in_task_move (i : nat) (c : coroutine) (p : pc) (l : list coroutine) :
  nth_error l i = Some c ->
  (List.length (filter in_task (update i (fun c => {| at_pc := p; must_cancel := must_cancel c |}) l))
   + (if in_task c then 1 else 0)
   = List.length (filter in_task l)
     + (if in_task {| at_pc := p; must_cancel := must_cancel c |} then 1 else 0))%nat.
Proof.
  revert i. induction l as [ | x l IH]; intros [ | i] Hi; simpl in *; try discriminate.
  - injection Hi as ->.
    destruct (in_task c); destruct (in_task {| at_pc := p; must_cancel := must_cancel c |});
      simpl; lia.
  - specialize (IH i Hi). destruct (in_task x); simpl; lia.
Qed.

Lemma no_loop_error_save (w : AgentWorker) (y : yielded) :
  forallb no_loop_error (save_screenshot_bytes w y) = true.
Proof. unfold save_screenshot_bytes. destruct (y_write_error y); reflexivity. Qed.

Lemma no_loop_error_process_result (w : AgentWorker) (y : yielded) (logged : list line) :
  process_result b64decode w y = Ok logged -> forallb no_loop_error logged = true.
Proof.
  unfold process_result.
  destruct (dict_get (y_result y) "text") as [t | e1]; [ | discriminate].
  destruct (dict_get (y_result y) "message") as [m | e2]; [ | discriminate].
  assert (Hrest : forall text_lines : list line,
            forallb no_loop_error text_lines = true ->
            match dict_get (y_result y) "screenshot", dict_get (y_result y) "image" with
            | Ok s, Ok i =>
                let screenshot := py_or s i in
                if truthy screenshot then
                  let img_bytes :=
                    match screenshot with
                    | VBytes b => Some b
                    | VStr s64 => b64decode s64
                    | _ => None
                    end in
                  match img_bytes with
                  | Some (_ :: _) => Ok (text_lines ++ save_screenshot_bytes w y)
                  | _ => Ok text_lines
                  end
                else Ok text_lines
            | Raise e, _ => Raise e
            | _, Raise e => Raise e
            end = Ok logged ->
            forallb no_loop_error logged = true).
  { intros text_lines Htext.
    destruct (dict_get (y_result y) "screenshot") as [shot | e3];
      [ | destruct (dict_get (y_result y) "image"); discriminate].
    destruct (dict_get (y_result y) "image") as [image | e4]; [ | discriminate].
    cbv zeta. destruct (truthy (py_or shot image)); [ | congruence].
    destruct (match py_or shot image with
              | VBytes b => Some b | VStr s64 => b64decode s64 | _ => None end)
      as [[ | x bytes] | ]; intros H; injection H as <-; auto.
    rewrite forallb_app, Htext, no_loop_error_save. reflexivity. }
  destruct (truthy (py_or t m)).
  - destruct (py_or t m); try discriminate. apply Hrest. reflexivity.
  - apply Hrest. reflexivity.
Qed.

Lemma no_loop_error_consume (w : AgentWorker) (ys : list yielded) (e : stream_end) :
  forallb no_loop_error (snd (consume b64decode w ys e)) = true.
Proof.
  induction ys as [ | y rest IH]; simpl.
  - destruct e; reflexivity.
  - destruct (process_result b64decode w y) as [logged | x] eqn:Hy; simpl; [ | reflexivity].
    rewrite forallb_app, IH, (no_loop_error_process_result w y logged Hy). reflexivity.
Qed.

Lemma no_loop_error_run_task (w : AgentWorker) (task_text : string) (b : agent_run) :
  forallb no_loop_error (snd (run_task b64decode w task_text b)) = true.
Proof.
  unfold run_task. destruct (negb (ready w)); [reflexivity | ].
  pose proof (no_loop_error_consume w (yields b) (ending b)) as Hlog.
  destruct (consume b64decode w (yields b) (ending b)) as [[verdict | [msg | ]] logged];
    simpl in *; try exact Hlog.
  rewrite forallb_app, Hlog. reflexivity.
Qed.

Lemma run_task_contains (w : AgentWorker) (task_text : string) (b : agent_run) (msg : string) :
  ready w = true -> fst (run_task b64decode w task_text b) <> Raise (Exception msg).
Proof.
  intros Hready. unfold run_task. rewrite Hready. simpl.
  destruct (consume b64decode w (yields b) (ending b)) as [[verdict | [msg' | ]] logged];
    simpl; discriminate.
Qed.

Lemma stop_begin_keeps (d : daemon) :
  agents (stop_begin d) = agents d /\
  log (stop_begin d) = log d ++ [Line "Stopping CUA Daemon..." []].
Proof.
  assert (H : forall (l : list AgentWorker) (d0 : daemon),
             agents (fold_left (fun acc _ => put None acc) l d0) = agents d0 /\
             log (fold_left (fun acc _ => put None acc) l d0) = log d0).
  { induction l as [ | a l IH]; intros d0; simpl; [auto | ].
    destruct (IH (put None d0)) as [Ha Hl]. rewrite Ha, Hl. auto. }
  unfold stop_begin. simpl.
  match goal with |- context [fold_left _ (agents d) ?d2] => exact (H (agents d) d2) end.
Qed.

(** Every step of the daemon keeps [sound]. *)
Lemma sound_step (d d' : daemon) : sound d -> step b64decode d d' -> sound d'.
Proof.
  intros Hs Hstep. pose proof Hs as (Hlen & Hready & Hcount & Hback & Hlog).
  destruct Hstep as [i k d d' Hres | person message d | d Hns | err d Hj Hzero].
  - unfold resume in Hres.
    destruct (nth_error (agents d) i) as [w | ] eqn:Hw; [ | discriminate].
    destruct (nth_error (tasks d) i) as [c | ] eqn:Hi; [ | discriminate].
    pose proof (forallb_nth_error ready (agents d) i w Hready Hw) as Hrw.
    pose proof (forallb_nth_error not_in_backoff (tasks d) i c Hback Hi) as Hnb.
    assert (Hmove : forall p q n l,
              not_in_backoff {| at_pc := p; must_cancel := must_cancel c |} = true ->
              (List.length q
               + (List.length (filter in_task (tasks d))
                  + (if in_task {| at_pc := p; must_cancel := must_cancel c |} then 1 else 0))
               <= n + (if in_task c then 1 else 0))%nat ->
              forallb no_loop_error l = true ->
              forall d2, items d2 = q -> unfinished d2 = n -> agents d2 = agents d ->
                         tasks d2 = update i (fun c => {| at_pc := p; must_cancel := must_cancel c |})
                                      (tasks d) ->
                         log d2 = l -> sound d2).
    { intros p q n l Hp Hn Hl d2 E1 E2 E3 E4 E5. unfold sound.
      rewrite E1, E2, E3, E4, E5, length_update.
      pose proof (in_task_move i c p (tasks d) Hi) as Hmv.
      repeat split; auto; [lia | ].
      apply forallb_update; [exact Hback | intros x; exact Hp]. }
    assert (Hhead : sound (loop_head b64decode i w d)).
    { unfold loop_head. destruct (running d).
      - destruct (items d) as [ | x rest] eqn:Hitems.
        + apply (Hmove AwaitGet [] (unfinished d) (log d)); auto.
          simpl in *. destruct (in_task c); lia.
        + unfold after_get. destruct x as [task_text | ].
          * rewrite Hrw.
            apply (Hmove (AwaitRun task_text) rest (unfinished d)
                     (log d ++ [Line "[{}] Dequeued task." [VStr (name w)]])); auto.
            -- simpl in *. destruct (in_task c); lia.
            -- rewrite forallb_app, Hlog. reflexivity.
          * unfold task_done. simpl. destruct (unfinished d) as [ | n] eqn:Hu.
            -- simpl in Hcount. lia.
            -- apply (Hmove (Finished (Ok tt)) rest n
                        (log d ++ [Line "[{}] Stop sentinel received." [VStr (name w)]])); auto.
               ++ simpl in *. destruct (in_task c); lia.
               ++ rewrite forallb_app, Hlog. reflexivity.
      - apply (Hmove (Finished (Ok tt)) (items d) (unfinished d) (log d)); auto.
        simpl in *. destruct (in_task c); lia. }
    assert (Hcancel : sound (on_cancelled i w d)).
    { unfold on_cancelled.
      apply (Hmove (Finished (Ok tt)) (items d) (unfinished d)
               (log d ++ [Line "[{}] Cancelled." [VStr (name w)]])); auto.
      - simpl. destruct (in_task c); lia.
      - rewrite forallb_app, Hlog. reflexivity. }
    assert (Hgone : sound (set_pc i (Finished (Raise CancelledError)) d)).
    { apply (Hmove (Finished (Raise CancelledError)) (items d) (unfinished d) (log d)); auto.
      simpl. destruct (in_task c); lia. }
    destruct (at_pc c) eqn:Hpc; destruct k; try discriminate.
    + destruct (must_cancel c); [discriminate | ]. injection Hres as <-. exact Hhead.
    + injection Hres as <-. exact Hgone.
    + destruct (must_cancel c); [discriminate | ].
      destruct (items d) as [ | x rest] eqn:Hitems; [discriminate | ]. injection Hres as <-.
      unfold after_get. destruct x as [task_text | ].
      * rewrite Hrw.
        apply (Hmove (AwaitRun task_text) rest (unfinished d)
                 (log d ++ [Line "[{}] Dequeued task." [VStr (name w)]])); auto.
        -- simpl in *. destruct (in_task c); lia.
        -- rewrite forallb_app, Hlog. reflexivity.
      * unfold task_done. simpl. destruct (unfinished d) as [ | n] eqn:Hu.
        -- simpl in Hcount. lia.
        -- apply (Hmove (Finished (Ok tt)) rest n
                    (log d ++ [Line "[{}] Stop sentinel received." [VStr (name w)]])); auto.
           ++ simpl in *. destruct (in_task c); lia.
           ++ rewrite forallb_app, Hlog. reflexivity.
    + injection Hres as <-. exact Hcancel.
    + (* the task ends *)
      injection Hres as <-.
      assert (Ht : in_task c = true) by (unfold in_task; rewrite Hpc; reflexivity).
      pose proof (in_task_positive i c (tasks d) Hi Ht) as Hpos.
      pose proof (no_loop_error_run_task w task_text b) as Hrun.
      pose proof (run_task_contains w task_text b) as Hcontains.
      unfold finish_run, handle, on_cancelled, task_done.
      destruct (run_task b64decode w task_text b) as [[verdict | [msg | ]] logged];
        simpl in *.
      * destruct (unfinished d) as [ | n] eqn:Hu; [lia | ].
        apply (Hmove AwaitSleep (items d) n (log d ++ logged)); auto.
        -- rewrite Ht. simpl. lia.
        -- rewrite forallb_app, Hlog, Hrun. reflexivity.
      * exfalso. apply (Hcontains msg Hrw). reflexivity.
      * apply (Hmove (Finished (Ok tt)) (items d) (unfinished d)
                 ((log d ++ logged) ++ [Line "[{}] Cancelled." [VStr (name w)]])); auto.
        -- rewrite Ht. simpl. lia.
        -- rewrite !forallb_app, Hlog, Hrun. reflexivity.
    + destruct (must_cancel c); [discriminate | ]. injection Hres as <-. exact Hhead.
    + injection Hres as <-. exact Hcancel.
    + unfold not_in_backoff, in_backoff in Hnb. rewrite Hpc in Hnb. discriminate.
    + unfold not_in_backoff, in_backoff in Hnb. rewrite Hpc in Hnb. discriminate.
  - unfold sound, enqueue_teams_message, logd, put, with_queue. simpl.
    rewrite length_app, forallb_app, Hlog. simpl. repeat split; auto. lia.
  - destruct (stop_puts_one_sentinel_per_agent d) as (Hi & Hu & _ & Ht & _).
    destruct (stop_begin_keeps d) as (Ha & Hl).
    unfold sound. rewrite Hi, Hu, Ht, Ha, Hl, length_app, repeat_length, forallb_app, Hlog.
    repeat split; auto. lia.
  - unfold sound, stop_finish. simpl.
    rewrite length_map, (count_map_same in_task), (forallb_map_same not_in_backoff),
      !forallb_app, Hlog by reflexivity.
    repeat split; auto. destruct err; reflexivity.
Qed.

Lemma sound_steps (d d' : daemon) : sound d -> steps b64decode d d' -> sound d'.
Proof.
  intros Hs Hsteps. induction Hsteps as [d | d1 d2 d3 Hsteps IH Hstep]; [exact Hs | ].
  apply (sound_step d2 d3); auto.
Qed.

Lemma forallb_repeat {A} (g : A -> bool) (x : A) (n : nat) :
  g x = true -> forallb g (repeat x n) = true.
Proof. intros H. induction n as [ | n IH]; simpl; [reflexivity | ]. rewrite H, IH. reflexivity. Qed.

Lemma filter_repeat_none {A} (g : A -> bool) (x : A) (n : nat) :
  g x = false -> filter g (repeat x n) = [].
Proof. intros H. induction n as [ | n IH]; simpl; [reflexivity | ]. rewrite H. exact IH. Qed.

(** [start] hands over a sound daemon. *)
Lemma sound_start (num_agents : nat) : sound (start num_agents).
Proof.
  unfold sound, start. simpl.
  rewrite repeat_length, length_map, length_seq, filter_repeat_none by reflexivity.
  repeat split; auto.
  - rewrite forallb_forall. intros w Hin. apply in_map_iff in Hin.
    destruct Hin as (i & <- & _). reflexivity.
  - apply forallb_repeat. reflexivity.
  - rewrite forallb_app. simpl. rewrite andb_true_r.
    induction (seq 0 num_agents) as [ | i l IH]; simpl; [reflexivity | exact IH].
Qed.

End DaemonSoundness.

Section WorkerClaims.
Import TeamsCua DaemonObservers.
Variable b64decode : string -> option (list Byte.byte).


End WorkerClaims.

Section DaemonExamples.
Import TeamsCua Samples.




End DaemonExamples.

(** ** testom/testing.py: the coordinate map survives the file *)

Section JsonStrings.
Import Json.
#[local] Open Scope string_scope.

Lemma string_app_assoc (a b c : string) : ((a ++ b) ++ c = a ++ (b ++ c))%string.
Proof. induction a as [ | x a IH]; simpl; [reflexivity | ]. rewrite IH. reflexivity. Qed.

Lemma string_length_app (a b : string) :
  String.length (a ++ b)%string = (String.length a + String.length b)%nat.
Proof. induction a as [ | x a IH]; simpl; [reflexivity | ]. rewrite IH. reflexivity. Qed.

(** Reading back what [ensure_ascii] wrote for one character. *)
Lemma scanstring_escape_char (c : ascii) (rest : string) :
  scanstring (escape_char c ++ rest)%string = cons_char c (scanstring rest).
Proof.
  destruct c as [[ | ] [ | ] [ | ] [ | ] [ | ] [ | ] [ | ] [ | ]]; reflexivity.
Qed.

Lemma scanstring_escape (s rest : string) :
  scanstring (escape s ++ String dquote rest)%string = Some (s, rest).
Proof.
  induction s as [ | c s IH]; simpl.
  - reflexivity.
  - rewrite string_app_assoc, scanstring_escape_char, IH. reflexivity.
Qed.

End JsonStrings.

Section JsonNumbers.
Import Json.
#[local] Open Scope string_scope.

Lemma scan_digits_uint (d : Decimal.uint) (rest : string) :
  ends_number rest = true ->
  scan_digits (NilEmpty.string_of_uint d ++ rest) = (d, rest).
Proof.
  intros Hrest.
  induction d as [ | d IH | d IH | d IH | d IH | d IH | d IH | d IH | d IH | d IH | d IH];
    simpl; try (rewrite IH; reflexivity).
  destruct rest as [ | c rest]; [reflexivity | ].
  simpl in *. destruct (digit_of c); [discriminate | reflexivity].
Qed.

(** The decimal digits of a positive number do not start with a zero. *)
Lemma to_uint_head (p : positive) :
  match Pos.to_uint p with
  | Decimal.Nil | Decimal.D0 _ => False
  | _ => True
  end.
Proof.
  pose proof (DecimalPos.Unsigned.to_of (Pos.to_uint p)) as Hnorm.
  rewrite DecimalPos.Unsigned.of_to in Hnorm. simpl in Hnorm.
  pose proof (DecimalPos.Unsigned.to_uint_nonnil p) as Hnil.
  pose proof (DecimalPos.Unsigned.to_uint_nonzero p) as Hzero.
  destruct (Pos.to_uint p) as [ | d | d | d | d | d | d | d | d | d | d] eqn:Hp; auto.
  unfold Decimal.unorm in Hnorm.
  pose proof (DecimalFacts.nzhead_nonzero (Decimal.D0 d)) as Hhead.
  destruct (Decimal.nzhead (Decimal.D0 d)) eqn:Hnz.
  - apply Hzero. rewrite Hnorm. reflexivity.
  - exact (Hhead _ (eq_sym Hnorm)).
  - discriminate.
  - discriminate.
  - discriminate.
  - discriminate.
  - discriminate.
  - discriminate.
  - discriminate.
  - discriminate.
  - discriminate.
Qed.

Lemma scan_uint_positive (p : positive) (rest : string) :
  ends_number rest = true ->
  scan_uint (NilEmpty.string_of_uint (Pos.to_uint p) ++ rest) = Some (Pos.to_uint p, rest) /\
  exists c s, NilEmpty.string_of_uint (Pos.to_uint p) = String c s /\ Ascii.eqb c "-" = false.
Proof.
  intros Hrest. pose proof (to_uint_head p) as Hhead.
  pose proof (scan_digits_uint (Pos.to_uint p) rest Hrest) as Hscan.
  destruct (Pos.to_uint p) as [ | d | d | d | d | d | d | d | d | d | d]; try contradiction;
    (split; [ | eexists; eexists; split; reflexivity]);
    unfold scan_uint; cbn [NilEmpty.string_of_uint append]; cbn [NilEmpty.string_of_uint append] in Hscan;
    rewrite Hscan; reflexivity.
Qed.

Lemma ends_number_not_float (rest : string) :
  ends_number rest = true -> float_follows rest = false.
Proof.
  destruct rest as [ | c rest]; [reflexivity | ].
  unfold ends_number. destruct (digit_of c); [discriminate | ].
  destruct (float_follows (String c rest)); [discriminate | reflexivity].
Qed.

(** Reading back an integer as [str] prints it. *)
Lemma scan_int_str_of_Z (n : Z) (rest : string) :
  ends_number rest = true ->
  scan_int (str_of_Z n ++ rest) = Some (n, rest).
Proof.
  intros Hrest. pose proof (ends_number_not_float rest Hrest) as Hfloat.
  unfold str_of_Z. rewrite <- (DecimalZ.of_to n) at 2.
  destruct n as [ | p | p]; simpl Z.to_int.
  - simpl. rewrite Hfloat. reflexivity.
  - destruct (scan_uint_positive p rest Hrest) as (Hscan & c & s & Hs & Hc).
    pose proof (to_uint_head p) as Hhead.
    unfold NilZero.string_of_int, NilZero.string_of_uint.
    destruct (Pos.to_uint p) eqn:Hp; try contradiction;
      rewrite <- Hp in *; unfold scan_int; rewrite Hs in *; cbn [append];
      rewrite Hc; cbn [append] in Hscan; rewrite Hscan, Hfloat; reflexivity.
  - destruct (scan_uint_positive p rest Hrest) as (Hscan & _).
    pose proof (to_uint_head p) as Hhead.
    unfold NilZero.string_of_int, NilZero.string_of_uint.
    destruct (Pos.to_uint p) eqn:Hp; try contradiction;
      rewrite <- Hp in *; unfold scan_int; cbn [append];
      change (Ascii.eqb "-" "-") with true; cbv iota; rewrite Hscan, Hfloat; reflexivity.
Qed.

End JsonNumbers.

Section JsonObjects.
Import Json.
#[local] Open Scope string_scope.

Lemma skip_ws_spaces (n : nat) (s : string) :
  skip_ws (string_of_list_ascii (repeat " "%char n) ++ s) = skip_ws s.
Proof. induction n as [ | n IH]; simpl; [reflexivity | exact IH]. Qed.

Lemma skip_ws_newline_indent (level : nat) (s : string) :
  skip_ws (newline_indent level ++ s) = skip_ws s.
Proof. unfold newline_indent. cbn [append]. simpl skip_ws. apply skip_ws_spaces. Qed.

Lemma ends_number_newline_indent (level : nat) (s : string) :
  ends_number (newline_indent level ++ s) = true.
Proof. reflexivity. Qed.

Lemma skip_ws_encode_str (key rest : string) :
  skip_ws (encode_str key ++ rest) = encode_str key ++ rest.
Proof. reflexivity. Qed.

Lemma skip_ws_member (key text rest : string) :
  skip_ws (member_text key text ++ rest) = member_text key text ++ rest.
Proof. reflexivity. Qed.

Lemma skip_ws_join (sep key text : string) (more : list string) (rest : string) :
  skip_ws (join sep (member_text key text :: more) ++ rest)
  = join sep (member_text key text :: more) ++ rest.
Proof. destruct more; reflexivity. Qed.

(** A member from its key's opening quote to the end of its value. *)
Lemma parse_member (f fv : nat) (acc : list (string * value)) (key text : string)
    (v : value) (tail : string) :
  reads fv text v -> (fv <= f)%nat -> ends_number tail = true ->
  parse_members (Datatypes.S f) acc (member_text key text ++ tail) =
  match skip_ws tail with
  | String sep rest =>
      if Ascii.eqb sep "}" then Some (VDict (dict_set key v acc), rest)
      else if Ascii.eqb sep ","
           then parse_members f (dict_set key v acc) (skip_ws rest)
           else None
  | EmptyString => None
  end.
Proof.
  intros [Hws Hread] Hf Htail.
  unfold member_text, encode_str. rewrite !string_app_assoc.
  cbn [append parse_members]. change (Ascii.eqb dquote dquote) with true. cbv iota.
  rewrite string_app_assoc. cbn [append]. rewrite scanstring_escape.
  cbn [skip_ws]. change (is_ws ":") with false. cbv iota.
  change (Ascii.eqb ":" ":") with true. cbv iota.
  cbn [skip_ws]. change (is_ws " ") with true. cbv iota.
  rewrite Hws, (Hread f tail Hf Htail). reflexivity.
Qed.

Lemma join_cons (sep a b : string) (l : list string) :
  join sep (a :: b :: l) = a ++ sep ++ join sep (b :: l).
Proof. reflexivity. Qed.

(** The members of an object, up to its closing brace. *)
Lemma parse_members_join (level m fv : nat) (entries : list (string * (string * value))) :
  entries <> [] ->
  Forall (fun e => reads fv (fst (snd e)) (snd (snd e))) entries ->
  forall (acc : list (string * value)) (f : nat) (rest : string),
    (List.length entries + fv <= f)%nat ->
    parse_members f acc
      (join ("," ++ newline_indent level) (member_texts entries)
         ++ newline_indent m ++ "}" ++ rest)
    = Some (VDict (built entries acc), rest).
Proof.
  induction entries as [ | [key [text v]] entries IH]; intros Hne Hall acc f rest Hf;
    [contradiction | ].
  inversion Hall as [ | e l Hread Hrest]; subst. cbn [fst snd] in Hread.
  destruct f as [ | f]; [simpl in Hf; lia | ]. cbn [List.length] in Hf.
  destruct entries as [ | [key' [text' v']] more].
  - cbn [member_texts map join fst snd built fold_left].
    rewrite (parse_member f fv acc key text v _ Hread); [ | lia | reflexivity].
    rewrite skip_ws_newline_indent. reflexivity.
  - unfold member_texts. cbn [map fst snd]. rewrite join_cons, !string_app_assoc.
    rewrite (parse_member f fv acc key text v _ Hread); [ | lia | reflexivity].
    cbn [append skip_ws]. change (is_ws ",") with false. cbv iota.
    change (Ascii.eqb "," "}") with false. change (Ascii.eqb "," ",") with true. cbv iota.
    rewrite skip_ws_newline_indent.
    change (member_text key' text' :: map (fun e => member_text (fst e) (fst (snd e))) more)
      with (member_texts ((key', (text', v')) :: more)).
    assert (Hskip : forall T, skip_ws (join ("," ++ newline_indent level)
                                         (member_texts ((key', (text', v')) :: more)) ++ T)
                              = join ("," ++ newline_indent level)
                                  (member_texts ((key', (text', v')) :: more)) ++ T).
    { intros T. apply (skip_ws_join _ key' text'). }
    rewrite Hskip.
    apply (IH ltac:(discriminate) Hrest (dict_set key v acc) f rest).
    cbn [List.length] in *. lia.
Qed.

Lemma parse_value_object (f : nat) (s : string) :
  parse_value (Datatypes.S f) ("{" ++ s) =
  match skip_ws s with
  | String c rest => if Ascii.eqb c "}" then Some (VDict [], rest)
                     else parse_members f [] (skip_ws s)
  | EmptyString => None
  end.
Proof. reflexivity. Qed.

(** A non-empty object is read back as the dict its members build. *)
Lemma reads_object (level fv : nat) (entries : list (string * (string * value))) :
  entries <> [] ->
  Forall (fun e => reads fv (fst (snd e)) (snd (snd e))) entries ->
  reads (Datatypes.S (List.length entries + fv))
        (object_text level (member_texts entries))
        (VDict (built entries [])).
Proof.
  intros Hne Hall. split.
  - intros rest. reflexivity.
  - intros f rest Hf _. destruct f as [ | f]; [lia | ].
    unfold object_text. rewrite !string_app_assoc, parse_value_object.
    rewrite skip_ws_newline_indent.
    destruct entries as [ | [key [text v]] more]; [contradiction | ].
    assert (Hskip : forall T, skip_ws (join ("," ++ newline_indent (Datatypes.S level))
                                         (member_texts ((key, (text, v)) :: more)) ++ T)
                              = join ("," ++ newline_indent (Datatypes.S level))
                                  (member_texts ((key, (text, v)) :: more)) ++ T).
    { intros T. apply (skip_ws_join _ key text). }
    rewrite Hskip.
    assert (Hhead : forall T, exists s,
               join ("," ++ newline_indent (Datatypes.S level))
                 (member_texts ((key, (text, v)) :: more)) ++ T = String dquote s).
    { intros T. unfold member_texts. cbn [map fst snd]. destruct more; eexists; reflexivity. }
    destruct (Hhead (newline_indent level ++ "}" ++ rest)) as [s Hs].
    rewrite Hs. change (Ascii.eqb dquote "}") with false. cbv iota. rewrite <- Hs.
    apply (parse_members_join (Datatypes.S level) level fv _ Hne Hall [] f rest). lia.
Qed.

End JsonObjects.

Section CoordsRoundTrip.
Import Json Testing.
#[local] Open Scope string_scope.

Lemma str_of_Z_head (n : Z) :
  exists c s, str_of_Z n = String c s /\ In c (list_ascii_of_string "-0123456789").
Proof.
  unfold str_of_Z. destruct n as [ | p | p]; simpl Z.to_int.
  - exists "0"%char, "". split; [reflexivity | simpl; tauto].
  - pose proof (to_uint_head p) as Hhead.
    unfold NilZero.string_of_int, NilZero.string_of_uint.
    destruct (Pos.to_uint p); try contradiction;
      eexists; eexists; (split; [reflexivity | simpl; tauto]).
  - eexists; eexists. split; [reflexivity | simpl; tauto].
Qed.

Lemma parse_value_number (f : nat) (c : ascii) (s : string) :
  In c (list_ascii_of_string "-0123456789") ->
  parse_value (Datatypes.S f) (String c s) =
  match scan_int (String c s) with
  | Some (n, rest) => Some (VInt n, rest)
  | None => None
  end
  /\ skip_ws (String c s) = String c s.
Proof.
  simpl. intros H.
  repeat (destruct H as [<- | H]; [split; reflexivity | ]). contradiction.
Qed.

Lemma reads_int (n : Z) : reads 1 (str_of_Z n) (VInt n).
Proof.
  destruct (str_of_Z_head n) as (c & s & Hs & Hc). split.
  - intros rest. rewrite Hs. cbn [append].
    apply (parse_value_number 0 c (s ++ rest) Hc).
  - intros f rest Hf Hrest. destruct f as [ | f]; [lia | ].
    pose proof (scan_int_str_of_Z n rest Hrest) as Hscan.
    rewrite Hs in *. cbn [append] in *.
    destruct (parse_value_number f c (s ++ rest) Hc) as [-> _].
    rewrite Hscan. reflexivity.
Qed.

Lemma encode_position (p : Z * Z) : encode 1 (position p) = Some (position_text p).
Proof. reflexivity. Qed.

Lemma reads_position (p : Z * Z) : reads 4 (position_text p) (position p).
Proof.
  apply (reads_object 1 1 (position_entries p)).
  - discriminate.
  - repeat constructor; apply reads_int.
Qed.

Lemma encode_coords (anchors : list (string * (Z * Z))) :
  encode 0 (coords_value anchors) = Some (coords_text anchors).
Proof.
  assert (Hmembers : forall l : list (string * (Z * Z)),
    (fix members (d : list (string * value)) : option (list string) :=
       match d with
       | [] => Some []
       | (k, x) :: rest =>
           match encode 1 x, members rest with
           | Some a, Some b => Some ((encode_str k ++ ": " ++ a) :: b)
           | _, _ => None
           end
       end) (map (fun a => (fst a, position (snd a))) l)
    = Some (member_texts (coords_entries l))).
  { induction l as [ | [key p] l IH]; [reflexivity | ].
    cbn [map fst snd]. rewrite encode_position, IH. reflexivity. }
  destruct anchors as [ | [key p] anchors]; [reflexivity | ].
  unfold coords_value, coords_text. cbn [map fst snd].
  change (encode 0 (VDict ((key, position p) :: map (fun a => (fst a, position (snd a))) anchors)))
    with (match (fix members (d : list (string * value)) : option (list string) :=
                   match d with
                   | [] => Some []
                   | (k, x) :: rest =>
                       match encode 1 x, members rest with
                       | Some a, Some b => Some ((encode_str k ++ ": " ++ a) :: b)
                       | _, _ => None
                       end
                   end) (map (fun a => (fst a, position (snd a))) ((key, p) :: anchors)) with
          | Some parts =>
              Some ("{" ++ newline_indent 1 ++ join ("," ++ newline_indent 1) parts
                        ++ newline_indent 0 ++ "}")
          | None => None
          end).
  rewrite Hmembers. reflexivity.
Qed.

Lemma dict_set_fresh (key : string) (v : value) (acc : list (string * value)) :
  ~ In key (map fst acc) -> dict_set key v acc = (acc ++ [(key, v)])%list.
Proof.
  induction acc as [ | [k x] acc IH]; intros Hin; simpl; [reflexivity | ].
  simpl in Hin. destruct (String.eqb_spec k key) as [-> | Hne]; [tauto | ].
  rewrite IH; [reflexivity | tauto].
Qed.

(** With keys that are all different, the dict built is the list of the
    entries, in their order. *)
Lemma built_distinct (entries : list (string * (string * value)))
    (acc : list (string * value)) :
  NoDup (map fst acc ++ map fst entries)%list ->
  built entries acc = (acc ++ map (fun e => (fst e, snd (snd e))) entries)%list.
Proof.
  revert acc. induction entries as [ | [key [text v]] entries IH]; intros acc Hnd.
  - simpl. rewrite app_nil_r. reflexivity.
  - unfold built in *. cbn [fold_left map fst snd] in *.
    rewrite dict_set_fresh.
    + rewrite IH; [rewrite <- app_assoc; reflexivity | ].
      rewrite map_app. cbn [map fst]. rewrite <- app_assoc. exact Hnd.
    + apply NoDup_remove_2 in Hnd. intros Hin. apply Hnd. apply in_or_app. tauto.
Qed.

Lemma string_app_nil_r (s : string) : (s ++ "")%string = s.
Proof. induction s as [ | c s IH]; simpl; [reflexivity | ]. rewrite IH. reflexivity. Qed.

Lemma length_join (sep : string) (parts : list string) :
  Forall (fun p => 1 <= String.length p)%nat parts ->
  (List.length parts <= String.length (join sep parts))%nat.
Proof.
  induction parts as [ | p parts IH]; intros Hall; [simpl; lia | ].
  inversion Hall as [ | x l Hp Hrest]; subst. specialize (IH Hrest).
  destruct parts as [ | p' parts]; [simpl; lia | ].
  rewrite join_cons, !string_length_app. cbn [List.length] in *. lia.
Qed.

Lemma length_coords_text (anchors : list (string * (Z * Z))) :
  anchors <> [] -> (List.length anchors + 4 <= String.length (coords_text anchors))%nat.
Proof.
  intros Hne. destruct anchors as [ | a anchors]; [contradiction | ].
  unfold coords_text, object_text. rewrite !string_length_app.
  pose proof (length_join ("," ++ newline_indent 1) (member_texts (coords_entries (a :: anchors))))
    as Hjoin.
  unfold member_texts, coords_entries in *. rewrite !length_map in Hjoin.
  assert (Hall : Forall (fun p => 1 <= String.length p)%nat
                   (map (fun e => member_text (fst e) (fst (snd e)))
                      (map (fun a0 => (fst a0, (position_text (snd a0), position (snd a0))))
                         (a :: anchors)))).
  { apply Forall_forall. intros part Hin. apply in_map_iff in Hin.
    destruct Hin as (e & <- & _). unfold member_text, encode_str. simpl. lia. }
  specialize (Hjoin Hall).
  change (String.length "{") with 1%nat. change (String.length "}") with 1%nat.
  change (String.length (newline_indent 1)) with 3%nat.
  change (String.length (newline_indent 0)) with 1%nat.
  lia.
Qed.

(** C8: a coordinate map, a dict from anchor names (all different, as the
    keys of a dict are) to positions [{"x": x, "y": y}], written by
    [save_coords] and read by [load_coords] comes back as the same dict,
    entries in the same order, whatever the file held before. *)
Theorem coords_round_trip (anchors : list (string * (Z * Z))) (f : coord_file) :
  NoDup (map fst anchors) ->
  exists f',
    save_coords (coords_value anchors) f = Ok f' /\
    load_coords f' = Ok (coords_value anchors).
Proof.
  intros Hnd. exists (Some (coords_text anchors)). split.
  - unfold save_coords, dumps. rewrite encode_coords. reflexivity.
  - unfold load_coords, loads.
    destruct anchors as [ | a others] eqn:Ha; [reflexivity | ]. rewrite <- Ha in *.
    assert (Hne : anchors <> []) by (rewrite Ha; discriminate).
    assert (Hreads : reads (Datatypes.S (List.length (coords_entries anchors) + 4))
                       (coords_text anchors)
                       (VDict (built (coords_entries anchors) []))).
    { rewrite Ha. unfold coords_text. rewrite <- Ha.
      apply (reads_object 0 4 (coords_entries anchors)).
      - rewrite Ha. discriminate.
      - unfold coords_entries. apply Forall_forall. intros e Hin.
        apply in_map_iff in Hin. destruct Hin as (a0 & <- & _). cbn [fst snd].
        apply reads_position. }
    destruct Hreads as [Hws Hparse].
    specialize (Hws ""). rewrite string_app_nil_r in Hws. rewrite Hws.
    specialize (Hparse (Datatypes.S (String.length (coords_text anchors))) "").
    rewrite string_app_nil_r in Hparse. rewrite Hparse.
    + simpl skip_ws. cbv iota. f_equal. unfold coords_value. f_equal.
      rewrite built_distinct.
      * unfold coords_entries. rewrite map_map. reflexivity.
      * unfold coords_entries. rewrite map_map. cbn [fst app map]. exact Hnd.
    + unfold coords_entries. rewrite length_map.
      pose proof (length_coords_text anchors Hne). lia.
    + reflexivity.
Qed.

End CoordsRoundTrip.

Section CoordsExamples.
Import Json Testing.

(** The map of the specification: anchors A at (10, 20) and B at (30, 40). *)
Lemma coords_round_trip_witness :
  NoDup (map fst [("A", (10, 20)); ("B", (30, 40))]) /\
  exists f',
    save_coords (coords_value [("A", (10, 20)); ("B", (30, 40))]) None = Ok f' /\
    load_coords f' = Ok (coords_value [("A", (10, 20)); ("B", (30, 40))]).
Proof.
  assert (H : NoDup (map fst [("A", (10, 20)); ("B", (30, 40))])).
  { repeat constructor; simpl; intuition discriminate. }
  split; [exact H | ].
  exact (coords_round_trip [("A", (10, 20)); ("B", (30, 40))] None H).
Defined.

(** The same by running the code of the model, with a key that needs
    escaping and a negative coordinate. *)
Example coords_round_trip_computed :
  let c := coords_value [("search box", (45, 95)); ("first
result", (-7, 0))] in
  match save_coords c (Some "stale") with
  | Ok f' => load_coords f' = Ok c
  | Raise _ => False
  end.
Proof. vm_compute. reflexivity. Qed.

End CoordsExamples.

(** * Further properties of the code *)

(** ** agent_preview.py: the decision service *)

Section ServiceProperties.
Import AgentPreview Observers.
Context {S : Type} {E : Env S}.

(** What one call of [get_agent_actions] on a screenshot does to the trace
    and to the history: one request, with the id of the last stored
    response, and the response stored as soon as it arrives. *)
Lemma get_agent_actions_request (b : list Byte.byte) (prompt : string) (w : world S)
    (prev : value) :
  last_response_id (response_history w) = Ok prev ->
  trace (snd (get_agent_actions (VBytes b) prompt w))
  = trace w ++ [Sync (ResponsesCreate prev prompt b)] /\
  response_history (snd (get_agent_actions (VBytes b) prompt w))
  = match fst (sync_op (ResponsesCreate prev prompt b) (env w)) with
    | inr response => response_history w ++ [response]
    | inl _ => response_history w
    end.
Proof.
  intros Hprev.
  unfold get_agent_actions, try_except, bind, lift, get_history, set_history, sync, print, ret.
  simpl. rewrite Hprev. simpl.
  destruct (fst (sync_op _ _)) as [msg | response]; simpl; [auto | ].
  destruct (getattr response "output") as [output | [msg | ]]; simpl; auto.
  destruct (py_iter output) as [items | ]; simpl; auto.
  destruct (computer_calls items) as [calls | [msg | ]]; simpl; auto.
  destruct (build_actions calls) as [acts | [msg | ]]; simpl; auto.
Qed.

Lemma last_response_id_snoc (history : list value) (response : value) :
  last_response_id (history ++ [response]) = getattr response "id".
Proof. unfold last_response_id. rewrite rev_app_distr. reflexivity. Qed.

(** X2: the requests of a conversation are chained.  A call whose request
    is answered stores the response at the end of the history, whether or
    not actions can be read from it, and the next call, whatever its
    screenshot and prompt, sends the id of that response as
    [previous_response_id], in one request. *)
Theorem responses_are_chained (b b' : list Byte.byte) (prompt prompt' : string)
    (w : world S) (prev response id : value) :
  last_response_id (response_history w) = Ok prev ->
  fst (sync_op (ResponsesCreate prev prompt b) (env w)) = inr response ->
  getattr response "id" = Ok id ->
  let w1 := snd (get_agent_actions (VBytes b) prompt w) in
  trace w1 = trace w ++ [Sync (ResponsesCreate prev prompt b)] /\
  response_history w1 = response_history w ++ [response] /\
  trace (snd (get_agent_actions (VBytes b') prompt' w1))
  = trace w1 ++ [Sync (ResponsesCreate id prompt' b')].
Proof.
  intros Hprev Hanswer Hid w1.
  destruct (get_agent_actions_request b prompt w prev Hprev) as [Ht Hh].
  rewrite Hanswer in Hh. fold w1 in Ht, Hh.
  split; [exact Ht | ]. split; [exact Hh | ].
  apply (get_agent_actions_request b' prompt' w1 id).
  rewrite Hh, last_response_id_snoc. exact Hid.
Qed.

(** X3: a stored response without an [id] silences the agent.  The lookup
    of the previous id fails before the request is made, so the service is
    not called and the result is the empty action list. *)
Theorem response_without_id_blocks_requests (b : list Byte.byte) (prompt : string)
    (w : world S) (history : list value) (response : value) :
  response_history w = history ++ [response] ->
  getattr response "id" = Raise (Exception "AttributeError: id") ->
  fst (get_agent_actions (VBytes b) prompt w) = Ok [] /\
  trace (snd (get_agent_actions (VBytes b) prompt w)) = trace w /\
  response_history (snd (get_agent_actions (VBytes b) prompt w)) = response_history w.
Proof.
  intros Hh Hid.
  unfold get_agent_actions, try_except, bind, lift, get_history, print, ret. simpl.
  rewrite Hh, last_response_id_snoc, Hid. simpl. rewrite Hh. auto.
Qed.

Lemma computer_calls_readable (items : list value) :
  forallb readable_item items = true ->
  computer_calls items = Ok (filter is_computer_call items).
Proof.
  induction items as [ | item rest IH]; intros Hall; simpl in *; [reflexivity | ].
  apply andb_prop in Hall. destruct Hall as [Hitem Hrest].
  unfold readable_item, is_computer_call in *.
  destruct (getattr item "type") as [t | e]; [ | discriminate].
  rewrite (IH Hrest). reflexivity.
Qed.

Lemma build_actions_readable (calls : list value) :
  forallb readable_item calls = true ->
  forallb is_computer_call calls = true ->
  build_actions calls = Ok (map action_of calls).
Proof.
  induction calls as [ | call rest IH]; intros Hall Hcalls; simpl in *; [reflexivity | ].
  apply andb_prop in Hall. destruct Hall as [Hitem Hrest].
  apply andb_prop in Hcalls. destruct Hcalls as [Hcall Hothers].
  unfold readable_item, is_computer_call, action_of, getattr_default in *.
  destruct (getattr call "type") as [t | e]; [ | discriminate].
  rewrite Hcall in Hitem.
  destruct (getattr call "action") as [act | e]; [ | discriminate].
  destruct (getattr call "call_id") as [cid | e]; [ | discriminate].
  destruct (getattr act "type") as [ty | e]; [ | discriminate].
  rewrite (IH Hrest Hothers). reflexivity.
Qed.

Lemma forallb_filter_keeps {A} (f g : A -> bool) (l : list A) :
  forallb f l = true -> forallb f (filter g l) = true.
Proof.
  induction l as [ | x l IH]; simpl; [reflexivity | ].
  intros H. apply andb_prop in H. destruct H as [Hx Hl].
  destruct (g x); simpl; [rewrite Hx | ]; auto.
Qed.

Lemma forallb_filter_same {A} (g : A -> bool) (l : list A) :
  forallb g (filter g l) = true.
Proof.
  induction l as [ | x l IH]; simpl; [reflexivity | ].
  destruct (g x) eqn:Hx; simpl; [rewrite Hx | ]; auto.
Qed.

(** X4: the actions returned are the computer calls of the response, in
    its order, and nothing else: an item of any other type (a message, a
    reasoning step) yields no action. *)
Theorem actions_are_the_computer_calls (b : list Byte.byte) (prompt : string)
    (w : world S) (prev response : value) (items : list value) :
  last_response_id (response_history w) = Ok prev ->
  fst (sync_op (ResponsesCreate prev prompt b) (env w)) = inr response ->
  getattr response "output" = Ok (VList items) ->
  forallb readable_item items = true ->
  fst (get_agent_actions (VBytes b) prompt w)
  = Ok (map action_of (filter is_computer_call items)).
Proof.
  intros Hprev Hanswer Hout Hall.
  unfold get_agent_actions, try_except, bind, lift, get_history, set_history, sync, ret.
  simpl. rewrite Hprev. simpl. rewrite Hanswer. simpl. rewrite Hout. simpl.
  rewrite (computer_calls_readable items Hall). simpl.
  rewrite build_actions_readable; [reflexivity | | ].
  - apply forallb_filter_keeps. exact Hall.
  - apply forallb_filter_same.
Qed.

End ServiceProperties.

(** ** agent_preview.py: the action translator *)

Section TranslatorProperties.
Import AgentPreview Observers.
Context {S : Type} {E : Env S}.

Lemma press_keys_only_enter (keys : list value) :
  forall w : world S, exists n : nat,
    trace (snd (press_keys keys w)) = trace w ++ repeat (Await (PressKey "enter")) n /\
    (n <= List.length (filter is_enter_key keys))%nat.
Proof.
  induction keys as [ | key rest IH]; intros w.
  - exists 0%nat. simpl. rewrite app_nil_r. auto.
  - cbn [press_keys]. rewrite bind_print.
    set (w1 := {| env := env w; trace := trace w; out := out w ++ [_];
                  response_history := response_history w; computer := computer w |}).
    assert (Ht1 : trace w1 = trace w) by reflexivity.
    assert (Hc1 : computer w1 = computer w) by reflexivity.
    clearbody w1.
    destruct key as [ | flag | n | k | bytes | l | d | attrs];
      try (exists 0%nat; unfold raise; simpl; rewrite Ht1, app_nil_r; split; [reflexivity | lia]).
    + cbn [filter is_enter_key]. destruct (lower k =? "enter")%string.
      * unfold on_interface, bind, get_computer, await, raise, ret. simpl.
        destruct (computer w1).
        -- destruct (fst (await_op (PressKey "enter") (env w1))) as [v | e].
           ++ match goal with |- context [press_keys rest ?w2] =>
                destruct (IH w2) as (n & Hn & Hle) end.
              exists (Datatypes.S n). rewrite Hn. simpl. rewrite Ht1, <- app_assoc.
              split; [reflexivity | lia].
           ++ exists 1%nat. simpl. rewrite Ht1. split; [reflexivity | lia].
        -- exists 0%nat. simpl. rewrite Ht1, app_nil_r. split; [reflexivity | lia].
      * unfold bind, ret. destruct (IH w1) as (n & Hn & Hle).
        exists n. rewrite Hn, Ht1. auto.
    + cbn [filter is_enter_key]. destruct (IH w1) as (n & Hn & Hle).
      exists n. rewrite Hn, Ht1. auto.
Qed.

(** X5: a keypress action can press Enter and nothing else.  Every
    operation it issues is [press_key("enter")], at most one for each key
    that is "enter" up to case; any other key (a letter, "ctrl", "tab") is
    printed and dropped. *)
Theorem keypress_presses_only_enter (details call_id : value) (w : world S) :
  exists n : nat,
    trace (snd (execute_agent_action
                  {| a_type := VStr "keypress"; a_details := details; a_call_id := call_id |}
                  w))
    = trace w ++ repeat (Await (PressKey "enter")) n /\
    (n <= enter_keys (getattr_default details "keys" (VList [])))%nat.
Proof.
  unfold execute_agent_action, try_except, enter_keys. simpl.
  destruct (py_iter (getattr_default details "keys" (VList []))) as [l | ].
  - destruct (press_keys_only_enter l w) as (n & Hn & Hle).
    exists n. split; [ | exact Hle].
    destruct (press_keys l w) as [[u | [msg | ]] w1]; simpl in *; exact Hn.
  - exists 0%nat. unfold raise. simpl. rewrite app_nil_r. auto.
Qed.

(** X6: a wait action sleeps for the [ms] of the action (2000 when it has
    none) and does nothing else: the one operation is that sleep, and an
    [Exception] of the sleep is printed and goes no further.  When [ms] is
    no number, or an [int] too large for the division to give a float, the
    division fails: the error is printed after the announcement, no sleep
    is issued, and the call returns normally. *)
Theorem wait_sleeps_the_given_time (details call_id : value) (w : world S) :
  let a := {| a_type := VStr "wait"; a_details := details; a_call_id := call_id |} in
  let wait_ms := getattr_default details "ms" (VInt 2000) in
  let announced := out w ++ [Line "Agent action: Wait for {}ms" [wait_ms]] in
  match to_number wait_ms with
  | inr ms =>
      execute_agent_action a w =
      (match fst (await_op (Sleep ms) (env w)) with
       | Raise CancelledError => Raise CancelledError
       | _ => Ok tt
       end,
       {| env := snd (await_op (Sleep ms) (env w));
          trace := trace w ++ [Await (Sleep ms)];
          out := match fst (await_op (Sleep ms) (env w)) with
                 | Raise (Exception msg) =>
                     announced ++ [Line "Error executing agent action {}: {}"
                                        [VStr "wait"; VStr msg]]
                 | _ => announced
                 end;
          response_history := response_history w; computer := computer w |})
  | inl msg =>
      execute_agent_action a w =
      (Ok tt,
       {| env := env w; trace := trace w;
          out := announced ++ [Line "Error executing agent action {}: {}"
                                    [VStr "wait"; VStr msg]];
          response_history := response_history w; computer := computer w |})
  end.
Proof.
  unfold execute_agent_action, try_except, bind, print, await, raise, ret.
  cbn [a_type a_details is_str String.eqb Ascii.eqb Bool.eqb fst snd env trace out
       response_history computer].
  destruct (to_number (getattr_default details "ms" (VInt 2000))) as [msg | ms];
    cbn [fst snd env trace out response_history computer].
  - reflexivity.
  - destruct (fst (await_op (Sleep ms) (env w))) as [v | [msg | ]]; reflexivity.
Qed.

(** X7: no [Exception] leaves the translator.  Whatever the action and
    whatever the session answers, [execute_agent_action] returns normally
    or is cancelled. *)
Theorem translator_contains_exceptions (a : action) (w : world S) :
  fst (execute_agent_action a w) = Ok tt \/
  fst (execute_agent_action a w) = Raise CancelledError.
Proof.
  unfold execute_agent_action, try_except.
  match goal with |- context [match ?body w with _ => _ end] =>
    destruct (body w) as [[[] | [msg | ]] w1] end; simpl; auto.
Qed.

End TranslatorProperties.

(** ** agent_preview.py: the perception loop *)

Section ImageFrames.
Import AgentPreview Observers.
Context {S : Type} {E : Env S}.

Lemma extends_press_keys_image (keys : list value) :
  extends carries_image any_line (press_keys (S:=S) keys).
Proof. induction keys as [ | key rest IH]; simpl; frame_with reflexivity. Qed.

Lemma extends_execute_agent_action_image (a : action) :
  extends carries_image any_line (execute_agent_action (S:=S) a).
Proof.
  unfold execute_agent_action. pose proof extends_press_keys_image. frame_with reflexivity.
Qed.

Lemma extends_execute_actions_image (total i : Z) (actions : list action) :
  extends carries_image any_line (execute_actions (S:=S) total i actions).
Proof.
  revert i. induction actions as [ | a rest IH]; intros i; simpl.
  - frame_with reflexivity.
  - pose proof extends_execute_agent_action_image. frame_with reflexivity. apply IH.
Qed.

(** A screenshot that passes [if not screenshot] is sent as it is, or,
    when it is no [bytes], not at all. *)
Lemma extends_get_agent_actions_image (screenshot : value) (prompt : string) :
  truthy screenshot = true ->
  extends carries_image any_line (get_agent_actions (S:=S) screenshot prompt).
Proof.
  intros Htruthy. unfold get_agent_actions.
  destruct screenshot as [ | flag | n | s | b | l | d | attrs];
    try (frame_with reflexivity; fail).
  destruct b as [ | x b]; [discriminate | ].
  apply extends_try_except; [ | intros msg; frame_with reflexivity].
  match goal with |- extends _ _ (bind (lift (Ok ?v)) ?k) =>
    change (extends carries_image any_line (k v)) end.
  cbv beta.
  apply extends_bind; [frame_with reflexivity | intros history].
  apply extends_bind; [frame_with reflexivity | intros prev].
  apply extends_bind; [apply extends_sync; reflexivity | intros response].
  frame_with reflexivity.
Qed.

Lemma extends_loop_body_image (tp : string) (mx it : Z) (tc : bool) :
  extends carries_image any_line (loop_body (S:=S) tp mx it tc).
Proof.
  unfold loop_body.
  apply extends_bind; [frame_with reflexivity | intros _].
  apply extends_bind; [unfold take_screenshot; frame_with reflexivity | intros screenshot].
  destruct (truthy screenshot) eqn:Htruthy; simpl; [ | frame_with reflexivity].
  pose proof (extends_get_agent_actions_image screenshot tp Htruthy) as Hagent.
  pose proof extends_execute_actions_image.
  cbv zeta.
  apply extends_bind; [frame_with reflexivity | intros _].
  apply extends_bind; [frame_with reflexivity | intros _].
  apply extends_bind; [frame_with reflexivity | intros _].
  apply extends_bind; [exact Hagent | intros actions].
  frame_with reflexivity.
Qed.

(** A frame of the body of the [while] is a frame of the loop. *)
Lemma extends_while (p : event -> bool) (q : line -> bool) (tp : string) (mx : Z) :
  (forall it tc, extends p q (loop_body (S:=S) tp mx it tc)) ->
  forall (n : nat) (it : Z) (tc : bool),
    Z.to_nat (mx - it) = n -> extends p q (perception_loop (S:=S) tp mx it tc).
Proof.
  intros Hbody. induction n as [n IH] using lt_wf_ind. intros it tc Hn w.
  rewrite perception_loop_unroll.
  destruct (Z_lt_dec it mx) as [Hlt | Hge].
  2:{ exists [], []. simpl. rewrite !app_nil_r. auto 6. }
  destruct tc.
  { exists [], []. simpl. rewrite !app_nil_r. auto 6. }
  destruct (Hbody (it + 1) false w) as (t1 & o1 & Ht1 & Hp1 & Ho1 & Hq1 & Hc1).
  destruct (loop_body tp mx (it + 1) false w) as [[[[ | ] tc'] | e] w']; simpl in *.
  - assert (Hm : (Z.to_nat (mx - (it + 1)) < n)%nat) by lia.
    destruct (IH _ Hm (it + 1) tc' eq_refl w') as (t2 & o2 & Ht2 & Hp2 & Ho2 & Hq2 & Hc2).
    exists (t1 ++ t2), (o1 ++ o2).
    rewrite Ht2, Ho2, Hc2, Ht1, Ho1, Hc1, !app_assoc, !forallb_app, Hp1, Hp2, Hq1, Hq2.
    auto 6.
  - exists t1, o1. auto 6.
  - exists t1, o1. auto 6.
Qed.

Lemma extends_automation_attempt_image (person_name message : string) (mx : Z) :
  extends carries_image any_line (automation_attempt (S:=S) person_name message mx).
Proof.
  unfold automation_attempt.
  apply extends_try_except; [ | intros msg; frame_with reflexivity].
  do 3 (apply extends_bind; [frame_with reflexivity | intros _]).
  apply extends_bind; [ | intros r; frame_with reflexivity].
  apply (extends_while carries_image any_line _ mx (extends_loop_body_image _ mx) _ 0 false
           eq_refl).
Qed.

Lemma appends_of_extends {A} (p : event -> bool) (q : line -> bool) (m : M S A) :
  extends p q m -> appends p m.
Proof. intros H w. destruct (H w) as (t & o & Ht & Hp & _). exists t. auto. Qed.

(** X8: the decision service is never asked about an empty screenshot.
    In a whole run of [automate_teams_with_agent] every request carries
    image bytes: a pass whose screenshot failed or came back empty ends the
    loop before the request, and a screenshot that is no [bytes] cannot be
    encoded. *)
Theorem no_request_without_image (person_name message : string) (max_iterations : Z) :
  appends carries_image (automate_teams_with_agent (S:=S) person_name message max_iterations).
Proof.
  intros w. rewrite automate_unfold.
  assert (Hinit : exists t0, trace (snd (initialize_computer w)) = trace w ++ t0 /\
                             forallb carries_image t0 = true).
  { unfold initialize_computer, try_except, bind, print, sync, set_computer, await, ret.
    simpl. destruct (fst (sync_op NewComputer (env w))) as [msg | c]; simpl.
    - exists [Sync NewComputer]. auto.
    - destruct (fst (await_op Run _)) as [v | [msg | ]]; simpl;
        exists [Sync NewComputer; Await Run]; rewrite <- app_assoc; auto. }
  destruct Hinit as (t0 & Ht0 & Hp0).
  destruct (initialize_computer w) as [[[ | ] | e] w1]; simpl in Ht0;
    [ | exists t0; auto | exists t0; auto].
  unfold try_finally.
  destruct (extends_automation_attempt_image person_name message max_iterations w1)
    as (t1 & o1 & Ht1 & Hp1 & _).
  destruct (automation_attempt person_name message max_iterations w1) as [r2 w2].
  simpl in Ht1.
  assert (Hclean : exists t2, trace (snd (cleanup w2)) = trace w2 ++ t2 /\
                              forallb carries_image t2 = true).
  { unfold cleanup, bind, get_computer, await, clear_history, set_history, ret. simpl.
    destruct (computer w2); simpl.
    - exists [Await Stop]. destruct (fst (await_op Stop (env w2))); simpl; auto.
    - exists []. rewrite app_nil_r. auto. }
  destruct Hclean as (t2 & Ht2 & Hp2).
  exists (t0 ++ t1 ++ t2).
  rewrite !forallb_app, Hp0, Hp1, Hp2. split; [ | reflexivity].
  destruct (cleanup w2) as [[u | e] w3]; simpl in *;
    rewrite Ht2, Ht1, Ht0, <- !app_assoc; reflexivity.
Qed.

End ImageFrames.

Section RequestBound.
Import AgentPreview Observers.
Context {S : Type} {E : Env S}.

Section AwaitFrames.
Variables (p : event -> bool) (q : line -> bool).
Hypothesis Hawait : forall c, p (Await c) = true.
Hypothesis Hline : forall l, q l = true.

Lemma extends_press_keys_await (keys : list value) : extends p q (press_keys (S:=S) keys).
Proof.
  induction keys as [ | key rest IH]; simpl; frame_with ltac:(first [apply Hawait | apply Hline]).
Qed.

Lemma extends_execute_agent_action_await (a : action) :
  extends p q (execute_agent_action (S:=S) a).
Proof.
  unfold execute_agent_action. pose proof extends_press_keys_await.
  frame_with ltac:(first [apply Hawait | apply Hline]).
Qed.

Lemma extends_execute_actions_await (total i : Z) (actions : list action) :
  extends p q (execute_actions (S:=S) total i actions).
Proof.
  revert i. induction actions as [ | a rest IH]; intros i; simpl.
  - frame_with ltac:(first [apply Hawait | apply Hline]).
  - pose proof extends_execute_agent_action_await.
    frame_with ltac:(first [apply Hawait | apply Hline]). apply IH.
Qed.

End AwaitFrames.

Lemma count_no_request (t : list event) :
  forallb no_request t = true -> count_events is_service_call t = 0%nat.
Proof.
  intros H. apply (count_events_none is_service_call no_request t); [ | exact H].
  intros e He. unfold no_request in He. destruct (is_service_call e); [discriminate | reflexivity].
Qed.

Lemma requests_of_extends {A} (q : line -> bool) (m : M S A) :
  extends no_request q m -> requests_le 0 m.
Proof.
  intros H w. destruct (H w) as (t & o & Ht & Hp & _).
  rewrite Ht, count_events_app, (count_no_request t Hp). lia.
Qed.

Lemma requests_bind {A B} (a b : nat) (m : M S A) (k : A -> M S B) :
  requests_le a m -> (forall x, requests_le b (k x)) -> requests_le (a + b) (bind m k).
Proof.
  intros Hm Hk w. unfold bind. specialize (Hm w).
  destruct (m w) as [[x | e] w1]; simpl in *; [specialize (Hk x w1) | ]; lia.
Qed.

Lemma requests_weaken {A} (a b : nat) (m : M S A) :
  (a <= b)%nat -> requests_le a m -> requests_le b m.
Proof. intros Hab Hm w. specialize (Hm w). lia. Qed.

(** One call of [get_agent_actions] makes one request at most. *)
Lemma requests_get_agent_actions (screenshot : value) (prompt : string) :
  requests_le 1 (get_agent_actions (S:=S) screenshot prompt).
Proof.
  intros w.
  destruct screenshot as [ | flag | n | s | b | l | d | attrs];
    try (unfold get_agent_actions, try_except, bind, lift, print, ret; simpl; lia).
  destruct (last_response_id (response_history w)) as [prev | e] eqn:Hprev.
  - destruct (get_agent_actions_request b prompt w prev Hprev) as [Ht _].
    rewrite Ht, count_events_app.
    change (count_events is_service_call [Sync (ResponsesCreate prev prompt b)]) with 1%nat.
    lia.
  - unfold get_agent_actions, try_except, bind, lift, get_history, print, ret. simpl.
    rewrite Hprev. destruct e as [msg | ]; simpl; lia.
Qed.

Lemma bind_unfold {A B} (m : M S A) (k : A -> M S B) (w : world S) :
  bind m k w = match m w with
               | (Ok a, w') => k a w'
               | (Raise e, w') => (Raise e, w')
               end.
Proof. reflexivity. Qed.

Lemma take_screenshot_cases (w : world S) :
  count_events is_service_call (trace (snd (take_screenshot w)))
  = count_events is_service_call (trace w) /\
  (count_events is_screenshot (trace (snd (take_screenshot w)))
   = Datatypes.S (count_events is_screenshot (trace w)) \/
   (trace (snd (take_screenshot w)) = trace w /\ fst (take_screenshot w) = Ok (VBytes []))).
Proof.
  unfold take_screenshot, on_interface, try_except, bind, get_computer, await, raise, print, ret.
  simpl. destruct (computer w); simpl; [ | auto].
  destruct (fst (await_op Screenshot (env w))) as [v | [msg | ]]; simpl;
    unfold count_events; rewrite !filter_app, !length_app; simpl;
    (split; [lia | left; lia]).
Qed.

(** One pass through the body of the [while] makes a request only after
    it took a screenshot, and one request at most. *)
Lemma paced_loop_body (tp : string) (mx it : Z) (tc : bool) :
  paced (loop_body (S:=S) tp mx it tc).
Proof.
  intros w. unfold loop_body. rewrite bind_print.
  set (w1 := {| env := env w; trace := trace w; out := out w ++ [_];
                response_history := response_history w; computer := computer w |}).
  change (trace w) with (trace w1). clearbody w1. clear w.
  rewrite (bind_unfold take_screenshot).
  destruct (take_screenshot_cases w1) as [Hreq Hshot].
  destruct (take_screenshot w1) as [[screenshot | e] w2]; cbv beta iota; cbn [fst snd] in *.
  2:{ destruct Hshot as [Hshot | [Hshot Habs]]; [lia | discriminate]. }
  destruct Hshot as [Hshot | [Hsame Hempty]].
  2:{ injection Hempty as ->. cbn [truthy negb]. rewrite bind_print. unfold ret.
      cbn [fst snd trace]. rewrite Hsame. lia. }
  pose proof (extends_execute_actions_await no_request any_line
                (fun c => eq_refl) (fun l => eq_refl)) as Hactions.
  pose proof (extends_execute_actions_await any_event any_line
                (fun c => eq_refl) (fun l => eq_refl)) as Hactions'.
  pose proof (extends_get_agent_actions (S:=S) any_event any_line
                (fun e _ _ => eq_refl) (fun l _ => eq_refl)) as Hagent.
  match goal with |- context [(if negb (truthy screenshot) then ?a else ?b) w2] =>
    assert (Hle : requests_le 1 (if negb (truthy screenshot) then a else b));
    [ | assert (Hgrow : extends any_event any_line
                          (if negb (truthy screenshot) then a else b));
        [ | specialize (Hle w2); destruct (Hgrow w2) as (t & o & Ht & _);
            destruct ((if negb (truthy screenshot) then a else b) w2) as [r3 w3] ] ]
  end.
  - destruct (negb (truthy screenshot)).
    + apply (requests_weaken 0 1); [lia | ].
      apply (requests_of_extends any_line). frame_with reflexivity.
    + cbv zeta.
      do 3 (apply (requests_bind 0 1);
            [apply (requests_of_extends any_line); frame_with reflexivity | intros _]).
      apply (requests_bind 1 0); [apply requests_get_agent_actions | ].
      intros actions. apply (requests_of_extends any_line). frame_with reflexivity.
  - destruct (negb (truthy screenshot)); cbv zeta; frame_with reflexivity.
  - cbn [fst snd] in *. rewrite Ht in *. rewrite !count_events_app in *. lia.
Qed.

Lemma paced_of_extends {A} (q : line -> bool) (m : M S A) :
  extends no_request q m -> paced m.
Proof.
  intros H w. destruct (H w) as (t & o & Ht & Hp & _).
  rewrite Ht, !count_events_app, (count_no_request t Hp). lia.
Qed.

Lemma paced_bind {A B} (m : M S A) (k : A -> M S B) :
  paced m -> (forall x, paced (k x)) -> paced (bind m k).
Proof.
  intros Hm Hk w. rewrite bind_unfold. specialize (Hm w).
  destruct (m w) as [[x | e] w1]; cbn [fst snd] in *; [specialize (Hk x w1) | ]; lia.
Qed.

Lemma paced_try_except {A} (body : M S A) (handler : string -> M S A) :
  paced body -> (forall msg, paced (handler msg)) -> paced (try_except body handler).
Proof.
  intros Hm Hk w. unfold try_except. specialize (Hm w).
  destruct (body w) as [[x | [msg | ]] w1]; cbn [fst snd] in *;
    [ | specialize (Hk msg w1) | ]; lia.
Qed.

Lemma paced_while (tp : string) (mx : Z) (n : nat) :
  forall (it : Z) (tc : bool),
    Z.to_nat (mx - it) = n -> paced (perception_loop (S:=S) tp mx it tc).
Proof.
  induction n as [n IH] using lt_wf_ind. intros it tc Hn w.
  rewrite perception_loop_unroll.
  destruct (Z_lt_dec it mx) as [Hlt | Hge]; [ | simpl; lia].
  destruct tc; [simpl; lia | ].
  pose proof (paced_loop_body tp mx (it + 1) false w) as Hbody.
  destruct (loop_body tp mx (it + 1) false w) as [[[[ | ] tc'] | e] w']; cbn [fst snd] in *;
    try lia.
  assert (Hm : (Z.to_nat (mx - (it + 1)) < n)%nat) by lia.
  pose proof (IH _ Hm (it + 1) tc' eq_refl w'). lia.
Qed.

Lemma paced_automation_attempt (person_name message : string) (mx : Z) :
  paced (automation_attempt (S:=S) person_name message mx).
Proof.
  unfold automation_attempt.
  apply paced_try_except;
    [ | intros msg; apply (paced_of_extends any_line); frame_with reflexivity].
  do 3 (apply paced_bind;
        [apply (paced_of_extends any_line); frame_with reflexivity | intros _]).
  apply paced_bind; [apply (paced_while _ mx _ 0 false eq_refl) | intros r].
  apply (paced_of_extends any_line). frame_with reflexivity.
Qed.

(** X9: the decision service is asked at most [max_iterations] times in a
    run, and never more often than a screenshot was taken: each pass makes
    its one request only after its screenshot. *)
Theorem requests_within_max_iterations (person_name message : string)
    (max_iterations : Z) (w : world S) :
  (count_events is_service_call
     (trace (snd (automate_teams_with_agent person_name message max_iterations w)))
   <= count_events is_service_call (trace w) + Z.to_nat max_iterations)%nat /\
  (count_events is_service_call
     (trace (snd (automate_teams_with_agent person_name message max_iterations w)))
   + count_events is_screenshot (trace w)
   <= count_events is_screenshot
        (trace (snd (automate_teams_with_agent person_name message max_iterations w)))
      + count_events is_service_call (trace w))%nat.
Proof.
  assert (Hpaced : paced (automate_teams_with_agent (S:=S) person_name message max_iterations)).
  { clear w. intros w. rewrite automate_unfold.
    assert (Hinit : paced (initialize_computer (S:=S))).
    { clear w. intros w.
      unfold initialize_computer, try_except, bind, print, sync, set_computer, await, ret.
      simpl. destruct (fst (sync_op NewComputer (env w))) as [msg | c]; simpl;
        [ | destruct (fst (await_op Run _)) as [v | [msg | ]]; simpl];
        unfold count_events; rewrite !filter_app, !length_app; simpl; lia. }
    specialize (Hinit w).
    destruct (initialize_computer w) as [[[ | ] | e] w1]; cbn [fst snd] in *; try lia.
    unfold try_finally.
    pose proof (paced_automation_attempt person_name message max_iterations w1) as Hattempt.
    destruct (automation_attempt person_name message max_iterations w1) as [r2 w2].
    cbn [fst snd] in *.
    assert (Hclean : paced (cleanup (S:=S))).
    { clear. intros w.
      unfold cleanup, bind, get_computer, await, clear_history, set_history, ret. simpl.
      destruct (computer w); simpl; [ | lia].
      destruct (fst (await_op Stop (env w))); simpl;
        unfold count_events; rewrite !filter_app, !length_app; simpl; lia. }
    specialize (Hclean w2).
    destruct (cleanup w2) as [[u | e] w3]; cbn [fst snd] in *; lia. }
  destruct (Hpaced w) as (Hp & _ & _).
  pose proof (automate_counts person_name message max_iterations w) as [Hshots _].
  cbv zeta in Hshots. split; [lia | exact Hp].
Qed.

End RequestBound.

(** ** agent_preview.py: the run as a whole *)

Section RunProperties.
Import AgentPreview Observers.
Context {S : Type} {E : Env S}.

(** X10: a session whose [run()] fails is never stopped.  The SDK object is
    built and kept in [self.computer], [automate_teams_with_agent] returns
    [False] before its [try], and so the [finally] with the call of
    [stop()] is not reached. *)
Theorem failed_run_is_never_stopped (person_name message : string) (max_iterations : Z)
    (w : world S) (c : value) (msg : string) :
  fst (sync_op NewComputer (env w)) = inr c ->
  fst (await_op Run (snd (sync_op NewComputer (env w)))) = Raise (Exception msg) ->
  fst (automate_teams_with_agent person_name message max_iterations w) = Ok false /\
  trace (snd (automate_teams_with_agent person_name message max_iterations w))
  = trace w ++ [Sync NewComputer; Await Run] /\
  computer (snd (automate_teams_with_agent person_name message max_iterations w)) = true.
Proof.
  intros Hnew Hrun.
  unfold automate_teams_with_agent, initialize_computer, try_except, bind, print, sync,
    set_computer, await, ret.
  simpl. rewrite Hnew. simpl. rewrite Hrun. simpl. rewrite <- app_assoc. auto.
Qed.

Lemma automation_attempt_no_pass (person_name message : string) (max_iterations : Z)
    (w : world S) :
  max_iterations <= 0 ->
  exists o : list line,
    automation_attempt person_name message max_iterations w
    = (Ok false, {| env := env w; trace := trace w; out := o;
                    response_history := response_history w; computer := computer w |}).
Proof.
  intros Hmx. unfold automation_attempt, try_except.
  rewrite !bind_print. unfold bind at 1. rewrite perception_loop_unroll.
  destruct (Z_lt_dec 0 max_iterations) as [Hlt | _]; [lia | ].
  cbn [snd]. rewrite bind_print. eexists. reflexivity.
Qed.

(** X11: with [max_iterations] at zero or below the loop makes no pass.
    The session is acquired and stopped and nothing happens in between: no
    screenshot, no file, no request; the task counts as not complete. *)
Theorem no_pass_without_iterations (person_name message : string) (max_iterations : Z)
    (w : world S) :
  acquired w ->
  max_iterations <= 0 ->
  trace (snd (automate_teams_with_agent person_name message max_iterations w))
  = trace w ++ [Sync NewComputer; Await Run; Await Stop] /\
  fst (automate_teams_with_agent person_name message max_iterations w)
  = match fst (await_op Stop (snd (await_op Run (snd (sync_op NewComputer (env w)))))) with
    | Ok _ => Ok false
    | Raise e => Raise e
    end.
Proof.
  intros Hacq Hmx. rewrite automate_unfold.
  destruct (initialize_computer_acquired w Hacq) as (Hr & Ht & Hc & _ & He).
  destruct (initialize_computer w) as [r1 w1]. simpl in Hr, Ht, Hc, He. subst r1.
  destruct (automation_attempt_no_pass person_name message max_iterations w1 Hmx)
    as (o & Hattempt).
  unfold try_finally. rewrite Hattempt.
  unfold cleanup, bind, get_computer, await, clear_history, set_history, ret.
  cbn [computer env trace fst snd]. rewrite Hc, He, Ht.
  destruct (fst (await_op Stop _)) as [v | e]; simpl; rewrite <- app_assoc; auto.
Qed.

(** X12: the history is cleared at the end of a run exactly when [stop()]
    returns.  After a session was acquired, a [stop()] that returns leaves
    the outcome of the automation as the result and the history empty; a
    [stop()] that raises replaces the outcome by its exception, and
    [clear_history] is skipped. *)
Theorem history_cleared_when_stop_returns (person_name message : string)
    (max_iterations : Z) (w : world S) :
  acquired w ->
  let attempt := automation_attempt person_name message max_iterations
                   (snd (initialize_computer w)) in
  let r := automate_teams_with_agent person_name message max_iterations w in
  match fst (await_op Stop (env (snd attempt))) with
  | Ok _ => fst r = fst attempt /\ response_history (snd r) = []
  | Raise e => fst r = Raise e /\ response_history (snd r) = response_history (snd attempt)
  end.
Proof.
  intros Hacq attempt r. subst attempt r. rewrite automate_unfold.
  destruct (initialize_computer_acquired w Hacq) as (Hr & _ & Hc & _).
  destruct (initialize_computer w) as [r1 w1]. simpl in Hr, Hc. subst r1. cbn [snd].
  destruct (bounded_automation_attempt person_name message max_iterations w1)
    as (_ & _ & Hc2).
  unfold try_finally.
  destruct (automation_attempt person_name message max_iterations w1) as [r2 w2].
  cbn [fst snd] in *.
  unfold cleanup, bind, get_computer, await, clear_history, set_history, ret.
  cbn [computer env fst snd]. rewrite Hc2, Hc.
  destruct (fst (await_op Stop (env w2))) as [v | e]; simpl; auto.
Qed.

Lemma automation_attempt_failed_screenshot (person_name message : string)
    (max_iterations : Z) (w : world S) (msg : string) :
  0 < max_iterations ->
  computer w = true ->
  fst (await_op Screenshot (env w)) = Raise (Exception msg) ->
  exists o : list line,
    automation_attempt person_name message max_iterations w
    = (Ok false, {| env := snd (await_op Screenshot (env w));
                    trace := trace w ++ [Await Screenshot]; out := o;
                    response_history := response_history w; computer := computer w |}).
Proof.
  intros Hmx Hc Hshot. unfold automation_attempt, try_except.
  rewrite !bind_print. unfold bind at 1. rewrite perception_loop_unroll.
  destruct (Z_lt_dec 0 max_iterations) as [_ | Hge]; [ | lia].
  unfold loop_body. rewrite bind_print. unfold bind at 1.
  unfold take_screenshot, try_except, on_interface, bind at 1, get_computer.
  cbn [computer env trace fst snd]. rewrite Hc. unfold await.
  cbn [computer env trace fst snd]. rewrite Hshot.
  rewrite !bind_print. unfold ret at 1. cbn [truthy negb].
  rewrite bind_print. unfold ret at 1. cbn [fst snd]. rewrite bind_print.
  eexists. reflexivity.
Qed.

(** X13: a screenshot that fails ends the run before any request.  When
    the first [screenshot()] raises an [Exception], [take_screenshot]
    turns it into empty bytes, the loop stops, and the run consists of the
    acquisition, that one screenshot and the [stop()]. *)
Theorem failed_screenshot_ends_the_run (person_name message : string) (max_iterations : Z)
    (w : world S) (msg : string) :
  acquired w ->
  0 < max_iterations ->
  fst (await_op Screenshot (snd (await_op Run (snd (sync_op NewComputer (env w))))))
  = Raise (Exception msg) ->
  trace (snd (automate_teams_with_agent person_name message max_iterations w))
  = trace w ++ [Sync NewComputer; Await Run; Await Screenshot; Await Stop] /\
  (forall b, fst (automate_teams_with_agent person_name message max_iterations w) = Ok b ->
             b = false).
Proof.
  intros Hacq Hmx Hshot. rewrite automate_unfold.
  destruct (initialize_computer_acquired w Hacq) as (Hr & Ht & Hc & _ & He).
  destruct (initialize_computer w) as [r1 w1]. simpl in Hr, Ht, Hc, He. subst r1.
  destruct (automation_attempt_failed_screenshot person_name message max_iterations w1 msg
              Hmx Hc) as (o & Hattempt); [rewrite He; exact Hshot | ].
  unfold try_finally. rewrite Hattempt.
  unfold cleanup, bind, get_computer, await, clear_history, set_history, ret.
  cbn [computer env trace fst snd]. rewrite Hc, Ht.
  destruct (fst (await_op Stop _)) as [v | e]; simpl; rewrite <- !app_assoc; simpl.
  - split; [reflexivity | ]. intros b Hb. congruence.
  - split; [reflexivity | ]. intros b Hb. discriminate.
Qed.











End RunProperties.

(** ** cui.py *)

Section CuiFurther.
Import AgentPreview.
Context {S : Type} {E : Env S}.

Lemma automate_steps_failed_run (w : world S) (msg : string) :
  fst (await_op Run (env w)) = Raise (Exception msg) ->
  Cui.automate_steps w
  = (Raise (Exception msg),
     {| env := snd (await_op Run (env w)); trace := trace w ++ [Await Run]; out := out w;
        response_history := response_history w; computer := computer w |}).
Proof.
  intros Hrun. unfold Cui.automate_steps.
  match goal with |- bind ?m ?k w = _ =>
    change (match m w with
            | (Ok a, w') => k a w'
            | (Raise e, w') => (Raise e, w')
            end = (Raise (Exception msg),
                   {| env := snd (await_op Run (env w)); trace := trace w ++ [Await Run];
                      out := out w; response_history := response_history w;
                      computer := computer w |})) end.
  unfold await at 1. rewrite Hrun. reflexivity.
Qed.

Lemma cui_result (w : world S) :
  fst (Cui.automate_teams w) = Ok tt \/ fst (Cui.automate_teams w) = Raise CancelledError.
Proof.
  unfold Cui.automate_teams, try_except.
  match goal with |- context [match ?body w with _ => _ end] =>
    destruct (body w) as [[[] | [msg | ]] w1] end; simpl; auto.
Qed.

(** X15: [automate_teams] releases a session whose [run()] failed.  The
    SDK object exists, so the inner [finally] calls [stop()] although the
    session never ran, and none of the steps is taken; the error of
    [run()] is reported by the outer handler and no [Exception] leaves
    the function, an [Exception] of [stop()] included. *)
Theorem cui_failed_run_is_stopped (w : world S) (c : value) (msg : string) :
  fst (sync_op NewComputer (env w)) = inr c ->
  fst (await_op Run (snd (sync_op NewComputer (env w)))) = Raise (Exception msg) ->
  trace (snd (Cui.automate_teams w)) = trace w ++ [Sync NewComputer; Await Run; Await Stop] /\
  (fst (Cui.automate_teams w) = Ok tt \/ fst (Cui.automate_teams w) = Raise CancelledError).
Proof.
  intros Hnew Hrun. split; [ | apply cui_result].
  unfold Cui.automate_teams, try_except, try_finally.
  rewrite bind_print. unfold bind at 1, sync at 1. cbn [fst snd env trace]. rewrite Hnew.
  match goal with |- context [Cui.automate_steps ?w1] =>
    rewrite (automate_steps_failed_run w1 msg Hrun) end.
  unfold bind, await, ret, print. cbn [fst snd env trace].
  destruct (fst (await_op Stop _)) as [v | [msg' | ]]; simpl; rewrite <- !app_assoc; auto.
Qed.

(** X16: no [Exception] leaves [automate_teams], and the session is
    stopped exactly when its object was built: once if [Computer(...)]
    returned, not at all if it raised. *)
Theorem cui_contains_exceptions (w : world S) :
  (fst (Cui.automate_teams w) = Ok tt \/ fst (Cui.automate_teams w) = Raise CancelledError) /\
  count_events is_stop (trace (snd (Cui.automate_teams w)))
  = (count_events is_stop (trace w)
     + match fst (sync_op NewComputer (env w)) with inr _ => 1 | inl _ => 0 end)%nat.
Proof.
  split; [apply cui_result | ].
  destruct (fst (sync_op NewComputer (env w))) as [msg | c] eqn:Hnew.
  - unfold Cui.automate_teams, try_except. rewrite bind_print.
    unfold bind at 1, sync at 1. cbn [fst snd env trace]. rewrite Hnew.
    unfold print, bind, ret. cbn [fst snd trace].
    unfold count_events. rewrite filter_app, length_app. simpl. lia.
  - rewrite (cui_stop_once w c Hnew). lia.
Qed.

End CuiFurther.

(** ** teams_cua.py: the worker *)

Section WorkerProperties.
Import TeamsCua DaemonObservers.
Variable b64decode : string -> option (list Byte.byte).

Lemma length_substring_head (n : nat) (s : string) :
  (String.length (substring 0 n s) <= n)%nat.
Proof.
  revert s. induction n as [ | n IH]; intros [ | c s]; simpl; try lia.
  specialize (IH s). lia.
Qed.

Lemma forallb_substring_head (f : ascii -> bool) (n : nat) (s : string) :
  forallb f (list_ascii_of_string s) = true ->
  forallb f (list_ascii_of_string (substring 0 n s)) = true.
Proof.
  revert s. induction n as [ | n IH]; intros [ | c s] H; simpl in *; auto.
  apply andb_prop in H. destruct H as [Hc Hs]. rewrite Hc. simpl. apply IH. exact Hs.
Qed.

(** X17: what [run_task] logs of a result's text is one line of at most
    300 characters: the line feeds are replaced before the cut. *)
Theorem snippet_is_one_short_line (text : string) :
  (String.length (snippet text) <= 300)%nat /\
  forallb no_newline (list_ascii_of_string (snippet text)) = true.
Proof.
  unfold snippet. split; [apply length_substring_head | ].
  apply forallb_substring_head. unfold replace_newlines.
  rewrite list_ascii_of_string_of_list_ascii.
  induction (list_ascii_of_string text) as [ | c l IH]; simpl; [reflexivity | ].
  rewrite IH, andb_true_r. unfold no_newline.
  destruct (Ascii.eqb c (ascii_of_nat 10)) eqn:Hc; [reflexivity | ].
  rewrite Hc. reflexivity.
Qed.

Lemma dict_get_exception (d : value) (key : string) (e : exn) :
  dict_get d key = Raise e -> exists msg, e = Exception msg.
Proof.
  unfold dict_get. destruct d; try (intros H; injection H as <-; eexists; reflexivity).
  destruct (lookup key entries); discriminate.
Qed.

(** What the body of the [async for] raises is an [Exception]. *)
Lemma process_result_exception (w : AgentWorker) (y : yielded) (e : exn) :
  process_result b64decode w y = Raise e -> exists msg, e = Exception msg.
Proof.
  unfold process_result.
  destruct (dict_get (y_result y) "text") as [t | e1] eqn:Ht.
  2:{ intros H. injection H as <-. apply (dict_get_exception _ _ _ Ht). }
  destruct (dict_get (y_result y) "message") as [m | e2] eqn:Hm.
  2:{ intros H. injection H as <-. apply (dict_get_exception _ _ _ Hm). }
  destruct (truthy (py_or t m)).
  - destruct (py_or t m); try (intros H; injection H as <-; eexists; reflexivity).
    destruct (dict_get (y_result y) "screenshot") as [shot | e3] eqn:Hs.
    2:{ destruct (dict_get (y_result y) "image");
          intros H; injection H as <-; apply (dict_get_exception _ _ _ Hs). }
    destruct (dict_get (y_result y) "image") as [image | e4] eqn:Hi.
    2:{ intros H. injection H as <-. apply (dict_get_exception _ _ _ Hi). }
    destruct (truthy (py_or shot image)); [ | discriminate].
    destruct (match py_or shot image with
              | VBytes b => Some b | VStr s64 => b64decode s64 | _ => None end)
      as [[ | x bytes] | ]; discriminate.
  - destruct (dict_get (y_result y) "screenshot") as [shot | e3] eqn:Hs.
    2:{ destruct (dict_get (y_result y) "image");
          intros H; injection H as <-; apply (dict_get_exception _ _ _ Hs). }
    destruct (dict_get (y_result y) "image") as [image | e4] eqn:Hi.
    2:{ intros H. injection H as <-. apply (dict_get_exception _ _ _ Hi). }
    destruct (truthy (py_or shot image)); [ | discriminate].
    destruct (match py_or shot image with
              | VBytes b => Some b | VStr s64 => b64decode s64 | _ => None end)
      as [[ | x bytes] | ]; discriminate.
Qed.

Lemma consume_verdict (w : AgentWorker) (ys : list yielded) (e : stream_end) :
  match fst (consume b64decode w ys e) with
  | Ok verdict => verdict = true /\ e = Ended /\ forallb (processed b64decode w) ys = true
  | Raise (Exception _) =>
      (exists msg, e = Raised (Exception msg)) \/ forallb (processed b64decode w) ys = false
  | Raise CancelledError =>
      e = Raised CancelledError /\ forallb (processed b64decode w) ys = true
  end.
Proof.
  induction ys as [ | y rest IH]; simpl.
  - destruct e as [ | [msg | ]]; simpl; auto. left. eexists. reflexivity.
  - unfold processed at 1 3 5.
    destruct (process_result b64decode w y) as [logged | x] eqn:Hy; simpl.
    + exact IH.
    + destruct (process_result_exception w y x Hy) as [msg ->]. auto.
Qed.

(** X18: the verdict of [run_task].  An initialised worker returns [True]
    exactly when the agent's stream ends by itself and the body of the
    loop went through for every result; an [Exception] from the stream or
    from a result makes it return [False]; the one exception it lets
    through is a cancellation delivered by the stream. *)
Theorem run_task_verdict (w : AgentWorker) (task_text : string) (b : agent_run) :
  ready w = true ->
  match fst (run_task b64decode w task_text b) with
  | Ok true => ending b = Ended /\ forallb (processed b64decode w) (yields b) = true
  | Ok false =>
      (exists msg, ending b = Raised (Exception msg)) \/
      forallb (processed b64decode w) (yields b) = false
  | Raise e => e = CancelledError /\ ending b = Raised CancelledError
  end.
Proof.
  intros Hready. unfold run_task. rewrite Hready. simpl.
  pose proof (consume_verdict w (yields b) (ending b)) as Hverdict.
  destruct (consume b64decode w (yields b) (ending b)) as [[verdict | [msg | ]] logged];
    simpl in *.
  - destruct Hverdict as (-> & He & Hall). auto.
  - exact Hverdict.
  - destruct Hverdict as [He _]. auto.
Qed.

End WorkerProperties.

(** ** teams_cua.py: the daemon *)

Section DaemonRuns.
Import TeamsCua DaemonObservers.
Variable b64decode : string -> option (list Byte.byte).

(** X19: [join] lets [stop] through only when the daemon is idle.  In every
    run from [start], whenever the count of unfinished tasks is zero, which
    is what [queue.join()] waits for, the queue is empty and no worker is
    inside a task: a shutdown never cuts a running task off. *)
Theorem join_returns_only_when_idle (num_agents : nat) (d : daemon) :
  steps b64decode (start num_agents) d ->
  unfinished d = 0%nat ->
  items d = [] /\ forallb not_in_task (tasks d) = true.
Proof.
  intros Hsteps Hzero.
  destruct (sound_steps b64decode _ _ (sound_start num_agents) Hsteps) as (_ & _ & Hcount & _).
  rewrite Hzero in Hcount. split.
  - destruct (items d); [reflexivity | simpl in Hcount; lia].
  - assert (Hnone : List.length (filter in_task (tasks d)) = 0%nat) by lia.
    clear Hcount. induction (tasks d) as [ | c l IH]; simpl in *; [reflexivity | ].
    unfold not_in_task at 1. destruct (in_task c); simpl in *; [lia | auto].
Qed.

(** X20: the error handler of the worker loop is never reached.  In every
    run from [start] no "Loop error" is logged and no worker sleeps the
    handler's second: [run_task] keeps every [Exception] of a task to
    itself, and [task_done] is never called more often than items were
    put. *)
Theorem loop_handler_is_never_reached (num_agents : nat) (d : daemon) :
  steps b64decode (start num_agents) d ->
  forallb no_loop_error (log d) = true /\ forallb not_in_backoff (tasks d) = true.
Proof.
  intros Hsteps.
  destruct (sound_steps b64decode _ _ (sound_start num_agents) Hsteps) as (_ & _ & _ & Hback & Hlog).
  auto.
Qed.

End DaemonRuns.

Section IdleShutdown.
Import TeamsCua DaemonObservers.
Variable b64decode : string -> option (list Byte.byte).

Lemma nth_error_repeat_app {A} (a b : A) (k n : nat) :
  (k < n)%nat -> nth_error (repeat a k ++ repeat b (n - k)) k = Some b.
Proof.
  intros Hk. rewrite nth_error_app2 by (rewrite repeat_length; lia).
  rewrite repeat_length, Nat.sub_diag.
  destruct (n - k)%nat as [ | m] eqn:Hm; [lia | reflexivity].
Qed.

Lemma update_repeat_app (p q : pc) (k n : nat) :
  (k < n)%nat ->
  update k (fun c => {| at_pc := p; must_cancel := must_cancel c |})
         (repeat (task_at p) k ++ repeat (task_at q) (n - k))
  = repeat (task_at p) (Datatypes.S k) ++ repeat (task_at q) (n - Datatypes.S k).
Proof.
  revert n. induction k as [ | k IH]; intros n Hk.
  - destruct n as [ | n]; [lia | ]. simpl. rewrite Nat.sub_0_r. reflexivity.
  - destruct n as [ | n]; [lia | ]. cbn [repeat app update Nat.sub].
    rewrite (IH n) by lia. reflexivity.
Qed.

Lemma nth_error_new_worker (k n : nat) :
  (k < n)%nat -> nth_error (map new_worker (seq 0 n)) k = Some (new_worker k).
Proof.
  intros Hk. rewrite nth_error_map.
  rewrite (nth_error_nth' (seq 0 n) 0%nat) by (rewrite length_seq; exact Hk).
  rewrite seq_nth by exact Hk. reflexivity.
Qed.

(** Every worker scheduled once with an empty queue: all wait in
    [queue.get()]. *)
Lemma all_waiting (n k : nat) :
  (k <= n)%nat ->
  exists d, steps b64decode (start n) d /\
            items d = [] /\ unfinished d = 0%nat /\
            agents d = map new_worker (seq 0 n) /\
            running d = true /\ stopping d = NotStopping /\
            tasks d = repeat (task_at AwaitGet) k ++ repeat (task_at Created) (n - k).
Proof.
  induction k as [ | k IH]; intros Hk.
  - exists (start n). rewrite Nat.sub_0_r. repeat split. apply steps_refl.
  - destruct IH as (d & Hsteps & Hitems & Hun & Hagents & Hrun & Hstop & Htasks); [lia | ].
    exists (set_pc k AwaitGet d). split.
    + apply (@steps_step b64decode _ d _); [exact Hsteps | ].
      apply (step_worker b64decode k Start). unfold resume.
      rewrite Hagents, Htasks, nth_error_new_worker, nth_error_repeat_app by lia.
      cbn [at_pc must_cancel task_at]. unfold loop_head. rewrite Hrun, Hitems. reflexivity.
    + unfold set_pc, with_tasks. cbn [items unfinished agents running stopping tasks].
      rewrite Htasks, update_repeat_app by lia. auto 7.
Qed.

(** After [stop] has put its sentinels, the workers take one each. *)
Lemma all_returned (n k : nat) :
  (k <= n)%nat ->
  exists d, steps b64decode (start n) d /\
            items d = repeat None (n - k) /\ unfinished d = (n - k)%nat /\
            agents d = map new_worker (seq 0 n) /\
            stopping d = InJoin /\
            tasks d = repeat (task_at (Finished (Ok tt))) k ++ repeat (task_at AwaitGet) (n - k).
Proof.
  induction k as [ | k IH]; intros Hk.
  - destruct (all_waiting n n (Nat.le_refl n))
      as (d & Hsteps & Hitems & Hun & Hagents & Hrun & Hstop & Htasks).
    exists (stop_begin d).
    destruct (stop_puts_one_sentinel_per_agent d) as (Hi & Hu & _ & Ht & Hs).
    destruct (stop_begin_keeps d) as (Ha & _).
    split; [apply (@steps_step b64decode _ d _); [exact Hsteps | apply step_stop; exact Hstop] | ].
    rewrite Hi, Hu, Ht, Hs, Ha, Hitems, Hun, Hagents, Htasks, length_map, length_seq,
      Nat.sub_diag, Nat.sub_0_r.
    simpl. rewrite app_nil_r. auto 6.
  - destruct IH as (d & Hsteps & Hitems & Hun & Hagents & Hstop & Htasks); [lia | ].
    assert (Hmore : (n - k = Datatypes.S (n - Datatypes.S k))%nat) by lia.
    rewrite Hmore in Hitems, Hun. cbn [repeat] in Hitems.
    exists (set_pc k (Finished (Ok tt))
              (with_queue (repeat None (n - Datatypes.S k)) (n - Datatypes.S k)
                 (logd [Line "[{}] Stop sentinel received." [VStr (name (new_worker k))]]
                    (with_queue (repeat None (n - Datatypes.S k)) (unfinished d) d)))).
    split.
    + apply (@steps_step b64decode _ d _); [exact Hsteps | ].
      apply (step_worker b64decode k Item). unfold resume.
      rewrite Hagents, Htasks, nth_error_new_worker, nth_error_repeat_app by lia.
      cbn [at_pc must_cancel task_at]. rewrite Hitems.
      unfold after_get, task_done. cbn [unfinished logd with_queue]. rewrite Hun.
      reflexivity.
    + unfold set_pc, with_tasks, with_queue, logd.
      cbn [items unfinished agents running stopping tasks].
      rewrite Htasks, update_repeat_app by lia. auto 6.
Qed.

(** X21: an idle daemon shuts down.  For any number of agents, when every
    worker waits in [queue.get()] and nothing was enqueued, [stop] goes
    through: each worker takes one sentinel and returns, the count of
    unfinished tasks comes back to zero, [join] returns and the session is
    closed. *)
Theorem idle_daemon_shuts_down (num_agents : nat) :
  exists d, steps b64decode (start num_agents) d /\
            stopping d = Stopped /\ computer_open d = false /\
            items d = [] /\ unfinished d = 0%nat /\
            List.length (tasks d) = num_agents /\
            forallb returned (tasks d) = true.
Proof.
  destruct (all_returned num_agents num_agents (Nat.le_refl _))
    as (d & Hsteps & Hitems & Hun & Hagents & Hstop & Htasks).
  rewrite Nat.sub_diag in *. simpl in Hitems, Htasks. rewrite app_nil_r in Htasks.
  exists (stop_finish None d). split.
  - apply (@steps_step b64decode _ d _); [exact Hsteps | ].
    apply (step_join b64decode None); assumption.
  - unfold stop_finish. cbn [stopping computer_open items unfinished tasks].
    rewrite Htasks, length_map, repeat_length. repeat split; auto.
    clear. induction num_agents as [ | n IH]; simpl; [reflexivity | exact IH].
Qed.

End IdleShutdown.

(** ** Scripts over other operations *)

Section ScriptFrames.
Import Script.
Context {op S : Type}.
Variable perform : op -> S -> res value * S.
Variable p : op -> bool.

Lemma appends_ret {A} (a : A) : appends p (ret (op:=op) (S:=S) a).
Proof. intros w. exists []. simpl. rewrite app_nil_r. auto. Qed.

Lemma appends_raise {A} (e : exn) : appends p (raise (op:=op) (S:=S) (A:=A) e).
Proof. intros w. exists []. simpl. rewrite app_nil_r. auto. Qed.

Lemma appends_lift {A} (r : res A) : appends p (lift (op:=op) (S:=S) r).
Proof. intros w. exists []. simpl. rewrite app_nil_r. auto. Qed.

Lemma appends_print (l : line) : appends p (print (op:=op) (S:=S) l).
Proof. intros w. exists []. simpl. rewrite app_nil_r. auto. Qed.

Lemma appends_call (o : op) : p o = true -> appends p (call perform o).
Proof. intros H w. exists [o]. simpl. rewrite H. auto. Qed.

Lemma appends_bind {A B} (m : M op S A) (k : A -> M op S B) :
  appends p m -> (forall a, appends p (k a)) -> appends p (bind m k).
Proof.
  intros Hm Hk w. unfold bind. destruct (Hm w) as (t1 & Ht1 & Hp1).
  destruct (m w) as [[a | e] w1]; simpl in *.
  - destruct (Hk a w1) as (t2 & Ht2 & Hp2). exists (t1 ++ t2).
    rewrite Ht2, Ht1, app_assoc, forallb_app, Hp1, Hp2. auto.
  - exists t1. auto.
Qed.

Lemma appends_try_except {A} (body : M op S A) (handler : string -> M op S A) :
  appends p body -> (forall msg, appends p (handler msg)) ->
  appends p (try_except body handler).
Proof.
  intros Hm Hk w. unfold try_except. destruct (Hm w) as (t1 & Ht1 & Hp1).
  destruct (body w) as [[a | [msg | ]] w1]; simpl in *; try (exists t1; auto; fail).
  destruct (Hk msg w1) as (t2 & Ht2 & Hp2). exists (t1 ++ t2).
  rewrite Ht2, Ht1, app_assoc, forallb_app, Hp1, Hp2. auto.
Qed.

Lemma appends_try_finally {A} (body : M op S A) (cleanup : M op S unit) :
  appends p body -> appends p cleanup -> appends p (try_finally body cleanup).
Proof.
  intros Hm Hk w. unfold try_finally. destruct (Hm w) as (t1 & Ht1 & Hp1).
  destruct (body w) as [r w1]. simpl in *.
  destruct (Hk w1) as (t2 & Ht2 & Hp2). exists (t1 ++ t2).
  destruct (cleanup w1) as [[u | e] w2]; simpl in *;
    rewrite Ht2, Ht1, app_assoc, forallb_app, Hp1, Hp2; auto.
Qed.

End ScriptFrames.

(** Breaks a goal [appends p m] down along the structure of [m]. *)
Ltac script_frame :=
  repeat first
    [ assumption
    | apply appends_ret | apply appends_raise | apply appends_lift | apply appends_print
    | apply appends_call; reflexivity
    | apply appends_bind; [ | intros ? ]
    | apply appends_try_except; [ | intros ? ]
    | apply appends_try_finally
    | match goal with
      | |- Script.appends _ (if ?b then _ else _) => destruct b
      | |- Script.appends _ (match ?x with _ => _ end) => destruct x
      end ].

(** ** host.py *)

Section HostProperties.
Import Script Host.
Context {S : Type}.
Variable perform : op -> S -> res value * S.
Variable comp : string -> attribute.

(** What [_graceful_stop] does with the attribute it finds under [name]. *)
Lemma graceful_stop_found (name : string) (rest : list string) (w : state op S) :
  comp name <> Absent ->
  trace (snd (graceful_stop_from perform comp (name :: rest) w))
  = trace w ++ invocation name (comp name) /\
  (fst (graceful_stop_from perform comp (name :: rest) w) = Ok tt \/
   fst (graceful_stop_from perform comp (name :: rest) w) = Raise CancelledError).
Proof.
  intros Hfound. cbn [graceful_stop_from].
  destruct (comp name); [contradiction | | | ]; unfold try_except, bind, call, ret; simpl.
  - destruct (fst (perform (AwaitMethod name) (env w))) as [v | [msg | ]]; simpl; auto.
  - destruct (fst (perform (CallMethod name) (env w))) as [v | [msg | ]]; simpl; auto.
  - rewrite app_nil_r. auto.
Qed.

(** X22: [_graceful_stop] invokes at most one shutdown method, the first
    of [stop], [shutdown] and [close] that the object has: [shutdown] is
    tried only when there is no [stop], [close] only when there is neither,
    and a method after the one found is not tried even if that one fails.
    The method is awaited if it is a coroutine function and called
    otherwise.  Every [Exception] of it stays inside. *)
Theorem graceful_stop_calls_one_method (w : state op S) :
  trace (snd (graceful_stop perform comp w))
  = trace w ++
    match comp "stop", comp "shutdown" with
    | Absent, Absent => invocation "close" (comp "close")
    | Absent, found => invocation "shutdown" found
    | found, _ => invocation "stop" found
    end
  /\ (fst (graceful_stop perform comp w) = Ok tt \/
      fst (graceful_stop perform comp w) = Raise CancelledError).
Proof.
  assert (Hskip : forall name rest,
            comp name = Absent ->
            graceful_stop_from perform comp (name :: rest) w
            = graceful_stop_from perform comp rest w).
  { intros name rest Hname. cbn [graceful_stop_from]. rewrite Hname. reflexivity. }
  unfold graceful_stop.
  destruct (comp "stop") eqn:Hstop.
  2, 3, 4: rewrite <- Hstop; apply graceful_stop_found; rewrite Hstop; discriminate.
  rewrite (Hskip _ _ Hstop).
  destruct (comp "shutdown") eqn:Hshutdown.
  2, 3, 4: rewrite <- Hshutdown; apply graceful_stop_found; rewrite Hshutdown; discriminate.
  rewrite (Hskip _ _ Hshutdown).
  destruct (comp "close") eqn:Hclose.
  2, 3, 4: rewrite <- Hclose; apply graceful_stop_found; rewrite Hclose; discriminate.
  rewrite (Hskip _ _ Hclose). simpl. rewrite app_nil_r. auto.
Qed.

Lemma appends_checks : appends working (checks perform).
Proof. unfold checks, write_bytes. script_frame. Qed.

(** X23: [main] shuts the session down once [run()] has returned, however
    the checks end.  With a [stop] coroutine on the object, the trace of
    [main] is the construction, [run()], operations of the checks and, as
    the last operation, the one call of [stop]. *)
Theorem host_main_always_stops (w : state op S) (c r : value) :
  fst (perform NewComputer (env w)) = Ok c ->
  fst (perform Run (snd (perform NewComputer (env w)))) = Ok r ->
  comp "stop" = CoroutineFunction ->
  exists t : list op,
    trace (snd (main perform comp w))
    = trace w ++ [NewComputer; Run] ++ t ++ [AwaitMethod "stop"] /\
    forallb working t = true.
Proof.
  intros Hnew Hrun Hstop.
  unfold main, bind at 1 2, call at 1 2. simpl. rewrite Hnew. simpl. rewrite Hrun.
  unfold try_finally.
  match goal with |- context [checks perform ?w1] =>
    destruct (appends_checks w1) as (t & Ht & Hp);
    destruct (checks perform w1) as [r1 w2] end.
  simpl in Ht. exists t. split; [ | exact Hp].
  unfold graceful_stop. cbn [graceful_stop_from]. rewrite Hstop.
  unfold try_except, bind, call, ret. simpl.
  destruct (fst (perform (AwaitMethod "stop") (env w2))) as [v | [msg | ]]; simpl;
    rewrite Ht, <- !app_assoc; reflexivity.
Qed.

End HostProperties.

(** ** cua_agent.py *)

Section CuaAgentProperties.
Import TeamsCua CuaAgent.

Lemma process_result_raises_exception (i : nat) (y : yielded) (e : exn) :
  fst (CuaAgent.process_result i y) = Raise e -> exists msg, e = Exception msg.
Proof.
  unfold CuaAgent.process_result.
  destruct (dict_get (y_result y) "text") as [text | e1] eqn:Ht.
  2:{ intros H. injection H as <-. apply (dict_get_exception _ _ _ Ht). }
  assert (Hshot : forall printed : list line,
            fst (match dict_get (y_result y) "screenshot" with
                 | Ok shot =>
                     if truthy shot
                     then match y_write_error y, shot with
                          | Some e0, _ => (Raise (Exception e0), printed)
                          | None, VBytes _ =>
                              (Ok tt,
                               printed ++ [Line " Screenshot saved: {}"
                                                [VStr (screenshot_path i)]])
                          | None, _ =>
                              (Raise (Exception "TypeError: a bytes-like object is required"),
                               printed)
                          end
                     else (Ok tt, printed)
                 | Raise e0 => (Raise e0, printed)
                 end) = Raise e -> exists msg, e = Exception msg).
  { intros printed.
    destruct (dict_get (y_result y) "screenshot") as [shot | e2] eqn:Hs.
    2:{ intros H. injection H as <-. apply (dict_get_exception _ _ _ Hs). }
    destruct (truthy shot); [ | discriminate].
    destruct (y_write_error y) as [e0 | ]; [intros H; injection H as <-; eexists; reflexivity | ].
    destruct shot; try discriminate; intros H; injection H as <-; eexists; reflexivity. }
  destruct (truthy text); [ | apply Hshot].
  destruct (head100 text) as [shown | e3] eqn:Hh; [apply Hshot | ].
  intros H. injection H as <-.
  destruct text; try discriminate; injection Hh as <-; eexists; reflexivity.
Qed.

Lemma consume_cancelled (i : nat) (ys : list yielded) (e : stream_end) :
  fst (CuaAgent.consume i ys e) = Raise CancelledError -> e = Raised CancelledError.
Proof.
  induction ys as [ | y rest IH]; simpl.
  - destruct e as [ | x]; [discriminate | ]. intros H. injection H as ->. reflexivity.
  - pose proof (process_result_raises_exception i y) as Hy.
    destruct (CuaAgent.process_result i y) as [[u | x] printed]; simpl in *; [exact IH | ].
    destruct (Hy x eq_refl) as [msg ->]. discriminate.
Qed.

(** The lines of the results are none of the three lines of the loop. *)
Lemma count_process_result (fmt : string) (i : nat) (y : yielded) :
  (fmt =? " {}...")%string = false ->
  (fmt =? " Screenshot saved: {}")%string = false ->
  count_lines (has_format fmt) (snd (CuaAgent.process_result i y)) = 0%nat.
Proof.
  intros H1 H2. unfold CuaAgent.process_result.
  destruct (dict_get (y_result y) "text") as [text | e1]; [ | reflexivity].
  assert (Hshot : forall shown : list line,
            count_lines (has_format fmt) shown = 0%nat ->
            count_lines (has_format fmt)
              (snd (match dict_get (y_result y) "screenshot" with
                    | Ok shot =>
                        if truthy shot
                        then match y_write_error y, shot with
                             | Some e0, _ => (Raise (Exception e0), shown)
                             | None, VBytes _ =>
                                 (Ok tt,
                                  shown ++ [Line " Screenshot saved: {}"
                                                 [VStr (screenshot_path i)]])
                             | None, _ =>
                                 (Raise (Exception
                                           "TypeError: a bytes-like object is required"),
                                  shown)
                             end
                        else (Ok tt, shown)
                    | Raise e0 => (Raise e0, shown)
                    end)) = 0%nat).
  { intros shown Hshown.
    destruct (dict_get (y_result y) "screenshot") as [shot | e2]; [ | exact Hshown].
    destruct (truthy shot); [ | exact Hshown].
    destruct (y_write_error y) as [e0 | ]; [exact Hshown | ].
    destruct shot; try exact Hshown. cbn [snd].
    rewrite count_lines_app, Hshown. unfold count_lines. cbn [filter has_format].
    rewrite String.eqb_sym, H2. reflexivity. }
  destruct (truthy text); [ | apply Hshot; reflexivity].
  destruct (head100 text) as [shown | e3]; [ | reflexivity].
  apply Hshot. unfold count_lines. cbn [filter has_format].
  rewrite String.eqb_sym, H1. reflexivity.
Qed.

Lemma count_consume (fmt : string) (i : nat) (ys : list yielded) (e : stream_end) :
  (fmt =? " {}...")%string = false ->
  (fmt =? " Screenshot saved: {}")%string = false ->
  count_lines (has_format fmt) (snd (CuaAgent.consume i ys e)) = 0%nat.
Proof.
  intros H1 H2. induction ys as [ | y rest IH]; simpl.
  - destruct e; reflexivity.
  - pose proof (count_process_result fmt i y H1 H2) as Hy.
    destruct (CuaAgent.process_result i y) as [[u | x] printed]; simpl in *; [ | exact Hy].
    rewrite count_lines_app, IH, Hy. reflexivity.
Qed.

(** X24: a failing task does not stop the tasks after it.  When no stream
    is cancelled, the loop announces and runs every task of the list
    whatever the earlier ones raised, and returns normally; a task is
    reported completed exactly when its stream ended by itself and every
    result was handled, and reported failed otherwise. *)
Theorem every_task_is_attempted (behaviour : nat -> agent_run) (total i : nat)
    (remaining : list string) :
  (forall j, uncancelled (behaviour j) = true) ->
  let printed := snd (run_tasks behaviour total i remaining) in
  fst (run_tasks behaviour total i remaining) = Ok tt /\
  count_lines is_executing printed = List.length remaining /\
  count_lines is_completed printed
  = List.length (filter (fun j => clean j (behaviour j)) (seq i (List.length remaining))) /\
  (count_lines is_completed printed + count_lines is_failed printed)%nat
  = List.length remaining.
Proof.
  intros Hall. revert i. induction remaining as [ | task rest IH]; intros i printed.
  - subst printed. simpl. auto.
  - subst printed. cbn [run_tasks List.length seq filter]. unfold clean.
    pose proof (consume_cancelled i (yields (behaviour i)) (ending (behaviour i))) as Hc.
    assert (H1 : count_lines is_executing
                   (snd (CuaAgent.consume i (yields (behaviour i)) (ending (behaviour i))))
                 = 0%nat)
      by exact (count_consume "Executing task {}/{}: {}" i _ _ eq_refl eq_refl).
    assert (H2 : count_lines is_completed
                   (snd (CuaAgent.consume i (yields (behaviour i)) (ending (behaviour i))))
                 = 0%nat)
      by exact (count_consume "Task {}/{} completed: {}" i _ _ eq_refl eq_refl).
    assert (H3 : count_lines is_failed
                   (snd (CuaAgent.consume i (yields (behaviour i)) (ending (behaviour i))))
                 = 0%nat)
      by exact (count_consume "Task {} failed: {}" i _ _ eq_refl eq_refl).
    destruct (IH (Datatypes.S i)) as (Hr & He & Hd & Hf).
    destruct (CuaAgent.consume i (yields (behaviour i)) (ending (behaviour i)))
      as [[u | [msg | ]] shown]; cbn [fst snd] in *.
    + split; [exact Hr | ].
      change (executing total i task :: shown ++ [completed total i task] ++ ?l)
        with ([executing total i task] ++ shown ++ [completed total i task] ++ l).
      rewrite !count_lines_app, H1, H2, H3, He, Hd. cbn [List.length].
      change (count_lines is_executing [executing total i task]) with 1%nat.
      change (count_lines is_executing [completed total i task]) with 0%nat.
      change (count_lines is_completed [executing total i task]) with 0%nat.
      change (count_lines is_completed [completed total i task]) with 1%nat.
      change (count_lines is_failed [executing total i task]) with 0%nat.
      change (count_lines is_failed [completed total i task]) with 0%nat.
      repeat split; lia.
    + split; [exact Hr | ].
      change (executing total i task :: shown ++ [failed i msg] ++ ?l)
        with ([executing total i task] ++ shown ++ [failed i msg] ++ l).
      rewrite !count_lines_app, H1, H2, H3, He, Hd. cbn [List.length].
      change (count_lines is_executing [executing total i task]) with 1%nat.
      change (count_lines is_executing [failed i msg]) with 0%nat.
      change (count_lines is_completed [executing total i task]) with 0%nat.
      change (count_lines is_completed [failed i msg]) with 0%nat.
      change (count_lines is_failed [executing total i task]) with 0%nat.
      change (count_lines is_failed [failed i msg]) with 1%nat.
      repeat split; lia.
    + specialize (Hc eq_refl). specialize (Hall i). unfold uncancelled in Hall.
      rewrite Hc in Hall. discriminate.
Qed.

End CuaAgentProperties.

(** ** testom/testing.py: calibration and sending *)

Section CalibrationProperties.
Import Json Testing Calibration.
Variable int_of_str : string -> option Z.
Variable int_of_bytes : list Byte.byte -> option Z.

Lemma capture_cursor_position (pos c : value) :
  capture_cursor int_of_str int_of_bytes pos = Ok c -> exists p, c = position p.
Proof.
  unfold capture_cursor.
  destruct (match pos with VDict _ => getitem pos "x" | _ => getattr pos "x" end)
    as [x | e]; [ | discriminate].
  destruct (py_int int_of_str int_of_bytes x) as [xn | e]; [ | discriminate].
  destruct (match pos with VDict _ => getitem pos "y" | _ => getattr pos "y" end)
    as [y | e]; [ | discriminate].
  destruct (py_int int_of_str int_of_bytes y) as [yn | e]; [ | discriminate].
  intros H. injection H as <-. exists (xn, yn). reflexivity.
Qed.

Lemma dict_set_anchor (key : string) (p : Z * Z) (anchors : list (string * (Z * Z))) :
  dict_set key (position p) (map (fun a => (fst a, position (snd a))) anchors)
  = map (fun a => (fst a, position (snd a))) (set_anchor key p anchors).
Proof.
  induction anchors as [ | [k q] rest IH]; simpl; [reflexivity | ].
  destruct (k =? key)%string; simpl; [reflexivity | ]. rewrite IH. reflexivity.
Qed.

Lemma keys_set_anchor (key : string) (p : Z * Z) (anchors : list (string * (Z * Z))) :
  map fst (set_anchor key p anchors)
  = if existsb (String.eqb key) (map fst anchors) then map fst anchors
    else map fst anchors ++ [key].
Proof.
  induction anchors as [ | [k q] rest IH]; simpl; [reflexivity | ].
  rewrite (String.eqb_sym key k).
  destruct (k =? key)%string; simpl; [reflexivity | ]. rewrite IH.
  destruct (existsb (String.eqb key) (map fst rest)); reflexivity.
Qed.

Lemma NoDup_set_anchor (key : string) (p : Z * Z) (anchors : list (string * (Z * Z))) :
  NoDup (map fst anchors) -> NoDup (map fst (set_anchor key p anchors)).
Proof.
  intros Hnd. rewrite keys_set_anchor.
  destruct (existsb (String.eqb key) (map fst anchors)) eqn:Hin; [exact Hnd | ].
  apply NoDup_app; [exact Hnd | repeat constructor; simpl; tauto | ].
  intros k Hk [<- | []].
  assert (Hex : existsb (String.eqb key) (map fst anchors) = true).
  { apply existsb_exists. exists key. split; [exact Hk | apply String.eqb_refl]. }
  congruence.
Qed.

Lemma lookup_set_anchor (key k : string) (p : Z * Z) (anchors : list (string * (Z * Z))) :
  lookup k (map (fun a => (fst a, position (snd a))) (set_anchor key p anchors))
  = if (k =? key)%string then Some (position p)
    else lookup k (map (fun a => (fst a, position (snd a))) anchors).
Proof.
  induction anchors as [ | [k0 q] rest IH]; simpl.
  - rewrite (String.eqb_sym key k). reflexivity.
  - destruct (String.eqb_spec k0 key) as [-> | Hne]; simpl.
    + rewrite (String.eqb_sym key k). destruct (k =? key)%string; reflexivity.
    + destruct (String.eqb_spec k0 k) as [-> | Hne'].
      * destruct (String.eqb_spec k key) as [-> | _]; [contradiction | reflexivity].
      * exact IH.
Qed.

(** What [save_coords] writes for a coordinate map is read back by
    [load_coords] as that map. *)
Lemma coords_saved_and_loaded (anchors : list (string * (Z * Z))) (f : coord_file) :
  NoDup (map fst anchors) ->
  save_coords (coords_value anchors) f = Ok (Some (coords_text anchors)) /\
  load_coords (Some (coords_text anchors)) = Ok (coords_value anchors).
Proof.
  intros Hnd. split.
  - unfold save_coords, dumps. rewrite encode_coords. reflexivity.
  - unfold load_coords, loads.
    destruct anchors as [ | a others] eqn:Ha; [reflexivity | ]. rewrite <- Ha in *.
    assert (Hne : anchors <> []) by (rewrite Ha; discriminate).
    assert (Hreads : reads (Datatypes.S (List.length (coords_entries anchors) + 4))
                       (coords_text anchors)
                       (VDict (built (coords_entries anchors) []))).
    { rewrite Ha. unfold coords_text. rewrite <- Ha.
      apply (reads_object 0 4 (coords_entries anchors)).
      - rewrite Ha. discriminate.
      - unfold coords_entries. apply Forall_forall. intros e Hin.
        apply in_map_iff in Hin. destruct Hin as (a0 & <- & _). cbn [fst snd].
        apply reads_position. }
    destruct Hreads as [Hws Hparse].
    specialize (Hws ""). rewrite string_app_nil_r in Hws. rewrite Hws.
    specialize (Hparse (Datatypes.S (String.length (coords_text anchors))) "").
    rewrite string_app_nil_r in Hparse. rewrite Hparse.
    + simpl skip_ws. cbv iota. f_equal. unfold coords_value. f_equal.
      rewrite built_distinct.
      * unfold coords_entries. rewrite map_map. reflexivity.
      * unfold coords_entries. rewrite map_map. cbn [fst app map]. exact Hnd.
    + unfold coords_entries. rewrite length_map.
      pose proof (length_coords_text anchors Hne). lia.
    + reflexivity.
Qed.

(** X25: a calibration survives the file.  When the cursor position can
    be captured and the coordinate map has positions under distinct names,
    one calibration of [key] writes a file that [load_coords] reads back
    as the same map with the captured position under [key]: [key] is
    updated in place or appended, and every other anchor is as it was. *)
Theorem calibration_is_saved (key : string) (pos c : value)
    (anchors : list (string * (Z * Z))) (f : coord_file) :
  NoDup (map fst anchors) ->
  capture_cursor int_of_str int_of_bytes pos = Ok c ->
  exists (p : Z * Z) (f' : coord_file) (loaded : value),
    c = position p /\
    calibrate int_of_str int_of_bytes key pos (coords_value anchors) f = Ok f' /\
    load_coords f' = Ok loaded /\
    loaded = coords_value (set_anchor key p anchors) /\
    getitem loaded key = Ok c /\
    forall k, (k =? key)%string = false -> getitem loaded k = getitem (coords_value anchors) k.
Proof.
  intros Hnd Hcap. destruct (capture_cursor_position pos c Hcap) as [p ->].
  destruct (coords_saved_and_loaded (set_anchor key p anchors) f
              (NoDup_set_anchor key p anchors Hnd)) as [Hsave Hload].
  exists p, (Some (coords_text (set_anchor key p anchors))),
    (coords_value (set_anchor key p anchors)).
  split; [reflexivity | ]. split.
  - unfold calibrate. rewrite Hcap. unfold setitem, coords_value.
    rewrite dict_set_anchor. exact Hsave.
  - split; [exact Hload | ]. split; [reflexivity | ].
    unfold getitem, coords_value. split.
    + rewrite lookup_set_anchor, String.eqb_refl. reflexivity.
    + intros k Hk. rewrite lookup_set_anchor, Hk. reflexivity.
Qed.

End CalibrationProperties.

Section SendProperties.
Import Script Calibration.
Context {S : Type}.
Variable perform : op -> S -> res value * S.

Lemma call_returns (o : op) (w : state op S) :
  reliable perform ->
  exists v, call perform o w
            = (Ok v, {| env := snd (perform o (env w)); trace := trace w ++ [o];
                        out := out w |}).
Proof.
  intros Hrel. unfold call. destruct (Hrel o (env w)) as [v Hv]. exists v.
  rewrite Hv. reflexivity.
Qed.

(** X26: without a search box nothing is sent.  [send_message] looks the
    search box up before it touches the session; when the map has none,
    no operation is issued, the failure is reported and the call returns
    normally. *)
Theorem send_needs_the_search_box (comp : bool) (coords : value)
    (recipient message msg : string) (w : state op S) :
  getitem coords "search_box" = Raise (Exception msg) ->
  fst (send_message perform comp coords recipient message w) = Ok tt /\
  trace (snd (send_message perform comp coords recipient message w)) = trace w /\
  out (snd (send_message perform comp coords recipient message w))
  = out w ++ [Line "Failed to send: {}" [VStr msg]; Line "traceback.format_exc()" []].
Proof.
  intros Hsearch.
  unfold send_message, try_except, async_send, bind, lift, print.
  rewrite Hsearch. simpl. rewrite <- app_assoc. auto.
Qed.

(** X27: without a message box the recipient is looked up and nothing is
    typed to them.  With a session that answers every operation and a map
    that has the search box only, [_async_send] clears the search field,
    types the recipient, presses Enter and then fails on the lookup of the
    message box: the message itself is never typed. *)
Theorem send_without_message_box (coords search sx sy : value)
    (recipient message : string) (e : exn) (w : state op S) :
  reliable perform ->
  getitem coords "search_box" = Ok search ->
  getitem search "x" = Ok sx ->
  getitem search "y" = Ok sy ->
  has_key coords "first_result" = false ->
  getitem coords "message_box" = Raise e ->
  fst (async_send perform true coords recipient message w) = Raise e /\
  trace (snd (async_send perform true coords recipient message w))
  = trace w ++ [LeftClick sx sy; Hotkey "ctrl" "a"; PressKey "backspace"; Sleep 200;
                TypeText recipient; Sleep 500; PressKey "enter"; Sleep 1000].
Proof.
  intros Hrel Hsearch Hx Hy Hfirst Hbox.
  unfold async_send, on_interface, bind, lift, ret.
  rewrite Hsearch, Hx, Hy, Hfirst.
  repeat match goal with
         | |- context [call perform ?o ?w0] =>
             let v := fresh "v" in
             let Hv := fresh "Hv" in
             destruct (call_returns o w0 Hrel) as [v Hv]; rewrite Hv; clear Hv
         end.
  rewrite Hbox. cbn [fst snd trace]. rewrite <- !app_assoc. auto.
Qed.

End SendProperties.

(** ** Instances *)

Section FurtherInstances.
Import AgentPreview Observers Samples MoreSamples.

Lemma responses_are_chained_witness :
  trace (snd (get_agent_actions (E := scripted 3) screen "send hello" fresh))
  = trace fresh ++ [Sync (ResponsesCreate VNone "send hello"
                            [Byte.x89; Byte.x50; Byte.x4e; Byte.x47])] /\
  response_history (snd (get_agent_actions (E := scripted 3) screen "send hello" fresh))
  = response_history fresh ++ [click_response] /\
  trace (snd (get_agent_actions (E := scripted 3) (VBytes [Byte.x00]) "go on"
                (snd (get_agent_actions (E := scripted 3) screen "send hello" fresh))))
  = trace (snd (get_agent_actions (E := scripted 3) screen "send hello" fresh))
    ++ [Sync (ResponsesCreate (VStr "resp") "go on" [Byte.x00])].
Proof.
  exact (responses_are_chained (E := scripted 3)
           [Byte.x89; Byte.x50; Byte.x4e; Byte.x47] [Byte.x00] "send hello" "go on"
           fresh VNone click_response (VStr "resp") eq_refl eq_refl eq_refl).
Defined.

Lemma response_without_id_blocks_requests_witness :
  fst (get_agent_actions (E := scripted 3) screen "send hello" anonymous_history) = Ok [] /\
  trace (snd (get_agent_actions (E := scripted 3) screen "send hello" anonymous_history))
  = trace anonymous_history /\
  response_history
    (snd (get_agent_actions (E := scripted 3) screen "send hello" anonymous_history))
  = response_history anonymous_history.
Proof.
  exact (response_without_id_blocks_requests (E := scripted 3)
           [Byte.x89; Byte.x50; Byte.x4e; Byte.x47] "send hello" anonymous_history
           [click_response] (VObj [("output", VList [])]) eq_refl eq_refl).
Defined.

Lemma actions_are_the_computer_calls_witness :
  fst (get_agent_actions (E := mixed) screen "send hello" fresh)
  = Ok [{| a_type := VStr "type";
           a_details := VObj [("type", VStr "type"); ("text", VStr "John Doe")];
           a_call_id := VStr "call_7" |}].
Proof.
  exact (actions_are_the_computer_calls (E := mixed)
           [Byte.x89; Byte.x50; Byte.x4e; Byte.x47] "send hello" fresh VNone
           mixed_response mixed_items eq_refl eq_refl eq_refl eq_refl).
Defined.

Lemma failed_run_is_never_stopped_witness :
  fst (automate_teams_with_agent (E := run_fails) "John Doe" "hello" 15 fresh) = Ok false /\
  trace (snd (automate_teams_with_agent (E := run_fails) "John Doe" "hello" 15 fresh))
  = trace fresh ++ [Sync NewComputer; Await Run] /\
  computer (snd (automate_teams_with_agent (E := run_fails) "John Doe" "hello" 15 fresh))
  = true.
Proof.
  exact (failed_run_is_never_stopped (E := run_fails) "John Doe" "hello" 15 fresh VNone
           "ConnectionRefusedError" eq_refl eq_refl).
Defined.

Lemma acquired_fresh (E : Env nat) :
  fst (sync_op NewComputer O) = inr VNone ->
  fst (await_op Run (snd (sync_op NewComputer O))) = Ok VNone ->
  acquired (E := E) fresh.
Proof. intros Hnew Hrun. exists VNone, VNone. split; assumption. Defined.

Lemma no_pass_without_iterations_witness :
  trace (snd (automate_teams_with_agent (E := scripted 3) "John Doe" "hello" 0 fresh))
  = trace fresh ++ [Sync NewComputer; Await Run; Await Stop] /\
  fst (automate_teams_with_agent (E := scripted 3) "John Doe" "hello" 0 fresh) = Ok false.
Proof.
  exact (no_pass_without_iterations (E := scripted 3) "John Doe" "hello" 0 fresh
           (acquired_fresh (scripted 3) eq_refl eq_refl) (Z.le_refl 0)).
Defined.

Lemma history_cleared_when_stop_returns_witness :
  fst (automate_teams_with_agent (E := scripted 3) "John Doe" "hello" 15 fresh)
  = fst (automation_attempt (E := scripted 3) "John Doe" "hello" 15
           (snd (initialize_computer (E := scripted 3) fresh))) /\
  response_history
    (snd (automate_teams_with_agent (E := scripted 3) "John Doe" "hello" 15 fresh)) = [].
Proof.
  exact (history_cleared_when_stop_returns (E := scripted 3) "John Doe" "hello" 15 fresh
           (acquired_fresh (scripted 3) eq_refl eq_refl)).
Defined.

Lemma failed_screenshot_ends_the_run_witness :
  trace (snd (automate_teams_with_agent (E := screenshot_fails) "John Doe" "hello" 15 fresh))
  = trace fresh ++ [Sync NewComputer; Await Run; Await Screenshot; Await Stop] /\
  (forall b,
     fst (automate_teams_with_agent (E := screenshot_fails) "John Doe" "hello" 15 fresh)
     = Ok b -> b = false).
Proof.
  exact (failed_screenshot_ends_the_run (E := screenshot_fails) "John Doe" "hello" 15 fresh
           "TimeoutError" (acquired_fresh screenshot_fails eq_refl eq_refl) eq_refl eq_refl).
Defined.



(** Both clicks fail, and both are issued, each followed by its pause. *)
Example failed_clicks_are_all_issued :
  trace (snd (execute_actions (E := clicks_fail) 2 0 [click_at 10 20; click_at 30 40]
                in_session))
  = [Await (LeftClick (VInt 10) (VInt 20)); Await (Sleep 1000);
     Await (LeftClick (VInt 30) (VInt 40)); Await (Sleep 1000)].
Proof. vm_compute. reflexivity. Qed.

(** A wait of 10^400 ms: the division overflows, the error is printed and
    no sleep is issued. *)
Example wait_overflows :
  execute_agent_action (E := scripted 3)
    {| a_type := VStr "wait"; a_details := VObj [("ms", VInt (10 ^ 400))];
       a_call_id := VStr "call" |} in_session
  = (Ok tt,
     {| env := O; trace := [];
        out := [Line "Agent action: Wait for {}ms" [VInt (10 ^ 400)];
                Line "Error executing agent action {}: {}"
                     [VStr "wait";
                      VStr "OverflowError: integer division result too large for a float"]];
        response_history := []; computer := true |}).
Proof. vm_compute. reflexivity. Qed.

Lemma cui_failed_run_is_stopped_witness :
  trace (snd (Cui.automate_teams (E := run_fails) fresh))
  = trace fresh ++ [Sync NewComputer; Await Run; Await Stop] /\
  (fst (Cui.automate_teams (E := run_fails) fresh) = Ok tt \/
   fst (Cui.automate_teams (E := run_fails) fresh) = Raise CancelledError).
Proof.
  exact (cui_failed_run_is_stopped (E := run_fails) fresh VNone "ConnectionRefusedError"
           eq_refl eq_refl).
Defined.

End FurtherInstances.

Section DaemonInstances.
Import TeamsCua DaemonObservers Samples MoreSamples.

Lemma run_task_verdict_witness :
  fst (run_task no_base64 (new_worker 0) "open Teams" unwritable_run) = Ok true /\
  ending unwritable_run = Ended /\
  forallb (processed no_base64 (new_worker 0)) (yields unwritable_run) = true.
Proof.
  split; [reflexivity | ].
  exact (run_task_verdict no_base64 (new_worker 0) "open Teams" unwritable_run eq_refl).
Defined.

(** The run of one idle worker up to the moment [join] can return. *)
Lemma idle_run : steps no_base64 (start 1) idle_returned.
Proof.
  apply (@steps_step no_base64 _ idle_stopping _).
  - apply (@steps_step no_base64 _ idle_waiting _).
    + apply (@steps_step no_base64 _ (start 1) _); [apply steps_refl | ].
      apply (step_worker no_base64 0 Start). vm_compute. reflexivity.
    + apply step_stop. vm_compute. reflexivity.
  - apply (step_worker no_base64 0 Item). vm_compute. reflexivity.
Defined.

Lemma join_returns_only_when_idle_witness :
  unfinished idle_returned = 0%nat /\
  items idle_returned = [] /\ forallb not_in_task (tasks idle_returned) = true.
Proof.
  split; [vm_compute; reflexivity | ].
  exact (join_returns_only_when_idle no_base64 1 idle_returned idle_run
           ltac:(vm_compute; reflexivity)).
Defined.

(** The run of [main] up to the worker stuck behind the cleared flag. *)
Lemma stuck_run : steps no_base64 (start 1) (main_stuck no_base64).
Proof.
  destruct (resume no_base64 0 (RunEnds no_run) (main_stopping no_base64)) as [d1 | ] eqn:H1;
    [ | vm_compute in H1; discriminate].
  apply (@steps_step no_base64 _ d1 _).
  - apply (@steps_step no_base64 _ (main_stopping no_base64) _).
    + apply (@steps_step no_base64 _ (main_waiting no_base64) _).
      * apply (@steps_step no_base64 _
                 (enqueue_teams_message "John Doe" demo_message (start 1)) _).
        -- apply (@steps_step no_base64 _ (start 1) _); [apply steps_refl | ].
           apply (step_enqueue no_base64 "John Doe" demo_message).
        -- apply (step_worker no_base64 0 Start). vm_compute. reflexivity.
      * apply step_stop. vm_compute. reflexivity.
    + apply (step_worker no_base64 0 (RunEnds no_run)). exact H1.
  - apply (step_worker no_base64 0 Timer).
    vm_compute in H1. injection H1 as <-. vm_compute. reflexivity.
Defined.

Lemma loop_handler_is_never_reached_witness :
  forallb no_loop_error (log (main_stuck no_base64)) = true /\
  forallb not_in_backoff (tasks (main_stuck no_base64)) = true.
Proof.
  exact (loop_handler_is_never_reached no_base64 1 (main_stuck no_base64) stuck_run).
Defined.

End DaemonInstances.

Section ScriptInstances.
Import Script MoreSamples.

Lemma host_main_always_stops_witness :
  exists t : list Host.op,
    trace (snd (Host.main obliging stoppable blank))
    = trace blank ++ [Host.NewComputer; Host.Run] ++ t ++ [Host.AwaitMethod "stop"] /\
    forallb Host.working t = true.
Proof.
  exact (host_main_always_stops obliging stoppable blank VNone VNone eq_refl eq_refl eq_refl).
Defined.

Lemma uncancelled_second_fails (j : nat) : CuaAgent.uncancelled (second_fails j) = true.
Proof. unfold second_fails. destruct (Nat.eqb j 1); reflexivity. Defined.

Lemma every_task_is_attempted_witness :
  fst (CuaAgent.run_tasks second_fails 5 0 CuaAgent.tasks) = Ok tt /\
  count_lines CuaAgent.is_executing (snd (CuaAgent.run_tasks second_fails 5 0 CuaAgent.tasks))
  = 5%nat /\
  count_lines CuaAgent.is_completed (snd (CuaAgent.run_tasks second_fails 5 0 CuaAgent.tasks))
  = 4%nat /\
  (count_lines CuaAgent.is_completed (snd (CuaAgent.run_tasks second_fails 5 0 CuaAgent.tasks))
   + count_lines CuaAgent.is_failed (snd (CuaAgent.run_tasks second_fails 5 0 CuaAgent.tasks))
   = 5)%nat.
Proof.
  exact (every_task_is_attempted second_fails 5 0 CuaAgent.tasks uncancelled_second_fails).
Defined.

Lemma calibration_is_saved_witness :
  exists (p : Z * Z) (f' : Testing.coord_file) (loaded : value),
    Testing.position (1798, 945) = Testing.position p /\
    Calibration.calibrate no_int no_int "message_box" (cursor_at 1798 945)
      (Testing.coords_value [("search_box", (45, 95))]) None = Ok f' /\
    Testing.load_coords f' = Ok loaded /\
    loaded = Testing.coords_value
               (Calibration.set_anchor "message_box" p [("search_box", (45, 95))]) /\
    Calibration.getitem loaded "message_box" = Ok (Testing.position (1798, 945)) /\
    forall k, (k =? "message_box")%string = false ->
              Calibration.getitem loaded k
              = Calibration.getitem (Testing.coords_value [("search_box", (45, 95))]) k.
Proof.
  exact (calibration_is_saved no_int no_int "message_box" (cursor_at 1798 945)
           (Testing.position (1798, 945)) [("search_box", (45, 95))] None
           (NoDup_cons "search_box" (fun H : In "search_box" [] => H) (NoDup_nil string))
           eq_refl).
Defined.

Lemma send_needs_the_search_box_witness :
  fst (Calibration.send_message obliging true (VDict []) "John Doe" "hello" (blank (op := Calibration.op))) = Ok tt /\
  trace (snd (Calibration.send_message obliging true (VDict []) "John Doe" "hello" (blank (op := Calibration.op))))
  = trace (blank (op := Calibration.op)) /\
  out (snd (Calibration.send_message obliging true (VDict []) "John Doe" "hello" (blank (op := Calibration.op))))
  = out (blank (op := Calibration.op)) ++ [Line "Failed to send: {}" [VStr "KeyError: search_box"];
                  Line "traceback.format_exc()" []].
Proof.
  exact (send_needs_the_search_box obliging true (VDict []) "John Doe" "hello"
           "KeyError: search_box" (blank (op := Calibration.op)) eq_refl).
Defined.

Lemma reliable_obliging : reliable (obliging (op := Calibration.op)).
Proof. intros o s. exists VNone. reflexivity. Defined.

Lemma send_without_message_box_witness :
  fst (Calibration.async_send obliging true
         (Testing.coords_value [("search_box", (45, 95))]) "John Doe" "hello" (blank (op := Calibration.op)))
  = Raise (Exception "KeyError: message_box") /\
  trace (snd (Calibration.async_send obliging true
                (Testing.coords_value [("search_box", (45, 95))]) "John Doe" "hello" (blank (op := Calibration.op))))
  = trace (blank (op := Calibration.op))
    ++ [Calibration.LeftClick (VInt 45) (VInt 95); Calibration.Hotkey "ctrl" "a";
        Calibration.PressKey "backspace"; Calibration.Sleep 200;
        Calibration.TypeText "John Doe"; Calibration.Sleep 500;
        Calibration.PressKey "enter"; Calibration.Sleep 1000].
Proof.
  exact (send_without_message_box obliging
           (Testing.coords_value [("search_box", (45, 95))]) (Testing.position (45, 95))
           (VInt 45) (VInt 95) "John Doe" "hello" (Exception "KeyError: message_box") (blank (op := Calibration.op))
           reliable_obliging eq_refl eq_refl eq_refl eq_refl eq_refl).
Defined.

End ScriptInstances.
